(** * The HTML to composable-JSON converter of [scripts/json-html-converter.js]

    A shallow embedding of the converter: JavaScript strings are Rocq
    strings (sequences of code units below 256, read as Latin-1),
    JavaScript objects used as
    maps ([props], style maps, the baseline cache) are [gmap]s, the
    [slots] object and arrays are lists, exceptions and the mutable
    converter state ([_baselineFrame], [_baselineCache], the UUID source)
    live in a state-and-exception monad. *)

From Stdlib Require Import Ascii String.
From stdpp Require Import base option list gmap strings fin_maps.

#[local] Set Warnings "-register-all,-clear-no-such-hyp".
Local Open Scope string_scope.

(** ** JavaScript string primitives *)

Module Js.

(** Code units in Latin-1 that [\s] and [String.prototype.trim] treat as
    white space: TAB, LF, VT, FF, CR, SPACE and NBSP. *)
Definition isSpace (c : ascii) : bool :=
  let n := nat_of_ascii c in
  bool_decide (n = 9 ∨ n = 10 ∨ n = 11 ∨ n = 12 ∨ n = 13 ∨ n = 32 ∨ n = 160)%nat.

Definition isLower (c : ascii) : bool :=
  let n := nat_of_ascii c in bool_decide (97 ≤ n ≤ 122)%nat.

Definition isUpper (c : ascii) : bool :=
  let n := nat_of_ascii c in bool_decide (65 ≤ n ≤ 90)%nat.

Definition isDigit (c : ascii) : bool :=
  let n := nat_of_ascii c in bool_decide (48 ≤ n ≤ 57)%nat.

(** The upper-case letters of Latin-1 beyond ASCII: 192 to 222 but for
    the multiplication sign 215. *)
Definition isUpperLatin1 (c : ascii) : bool :=
  let n := nat_of_ascii c in
  bool_decide (192 ≤ n ≤ 214 ∨ 216 ≤ n ≤ 222)%nat.

Definition lowerChar (c : ascii) : ascii :=
  if isUpper c || isUpperLatin1 c
  then ascii_of_nat (nat_of_ascii c + 32)%nat else c.

Definition upperChar (c : ascii) : ascii :=
  if isLower c then ascii_of_nat (nat_of_ascii c - 32)%nat else c.

Fixpoint mapChars (f : ascii → ascii) (s : string) : string :=
  match s with
  | EmptyString => EmptyString
  | String c r => String (f c) (mapChars f r)
  end.

(** [s.toLowerCase()] and [s.toUpperCase()]. *)
Definition toLowerCase : string → string := mapChars lowerChar.
Definition toUpperCase : string → string := mapChars upperChar.

(** Truthiness of a string: only [''] is falsy. *)
Definition truthy (s : string) : bool :=
  match s with EmptyString => false | _ => true end.

(** Truthiness of a possibly [null]/[undefined] string. *)
Definition truthyOpt (o : option string) : bool :=
  match o with Some s => truthy s | None => false end.

Fixpoint dropWhile (p : ascii → bool) (s : string) : string :=
  match s with
  | EmptyString => EmptyString
  | String c r => if p c then dropWhile p r else s
  end.

(** Removes the longest suffix all of whose characters satisfy [p]. *)
Fixpoint dropEndWhile (p : ascii → bool) (s : string) : string :=
  match s with
  | EmptyString => EmptyString
  | String c r =>
      match dropEndWhile p r with
      | EmptyString => if p c then EmptyString else String c EmptyString
      | r' => String c r'
      end
  end.

(** [s.trim()]. *)
Definition trim (s : string) : string :=
  dropEndWhile isSpace (dropWhile isSpace s).

(** [s.split(sep)] for a one-character separator. *)
Fixpoint split (sep : ascii) (s : string) : list string :=
  match s with
  | EmptyString => [EmptyString]
  | String c r =>
      if decide (c = sep) then EmptyString :: split sep r
      else match split sep r with
           | h :: t => String c h :: t
           | [] => [String c EmptyString]
           end
  end.

(** [s.startsWith(p)]. *)
Definition startsWith (p s : string) : bool := String.prefix p s.

(** [s.replace(/[^...]/g, '')]: keeps the characters satisfying [keep]. *)
Fixpoint filterChars (keep : ascii → bool) (s : string) : string :=
  match s with
  | EmptyString => EmptyString
  | String c r =>
      if keep c then String c (filterChars keep r) else filterChars keep r
  end.

(** [s.replace(/[cls]+/g, by)]: every maximal run of characters of the
    class [cls] is replaced by the one character [by]; [inRun] tells that
    the previous character belonged to the class. *)
Fixpoint collapseRuns (cls : ascii → bool) (by_ : ascii) (inRun : bool)
    (s : string) : string :=
  match s with
  | EmptyString => EmptyString
  | String c r =>
      if cls c then
        if inRun then collapseRuns cls by_ true r
        else String by_ (collapseRuns cls by_ true r)
      else String c (collapseRuns cls by_ false r)
  end.

(** [s.replace(/\.{3,}$/, '')]: a trailing run of three or more dots is
    removed, a shorter one is kept. *)
Definition stripTrailingDots (s : string) : string :=
  let t := dropEndWhile (λ c, bool_decide (c = "."%char)) s in
  if decide (3 ≤ String.length s - String.length t)%nat then t else s.

(** [p.replace(/-([a-z])/g, g => g[1].toUpperCase())]: kebab-case to
    camelCase. *)
Fixpoint camel (s : string) : string :=
  match s with
  | EmptyString => EmptyString
  | String c r =>
      if decide (c = "-"%char) then
        match r with
        | String d r' =>
            if isLower d then String (upperChar d) (camel r')
            else String c (camel r)
        | EmptyString => String c EmptyString
        end
      else String c (camel r)
  end.

End Js.

(** ** Route derivation for the export file name *)

(** The fields of [new URL(window.location.href)] that [getPageRoute]
    reads. *)
Record URL := mkURL {
  hostname : string;
  port : string;
  pathname : string;
}.

Definition isSlash (c : ascii) : bool := bool_decide (c = "/"%char).

Definition isUnderscoreOrSpace (c : ascii) : bool :=
  bool_decide (c = "_"%char) || Js.isSpace c.

(** The class [[a-zA-Z0-9_\-]]. *)
Definition isRouteChar (c : ascii) : bool :=
  Js.isLower c || Js.isUpper c || Js.isDigit c
  || bool_decide (c = "_"%char) || bool_decide (c = "-"%char).

Definition startsWithDigit (s : string) : bool :=
  match s with String c _ => Js.isDigit c | EmptyString => false end.

(** [getPageRoute()]; the argument is the parsed location, [None] when
    the [URL] constructor throws (the [catch] branch). *)
Definition getPageRoute (location : option URL) : string :=
  match location with
  | None => "page-conversion"
  | Some urlObj =>
      let hostPrefix :=
        if Js.truthy (port urlObj)
        then hostname urlObj +:+ "_" +:+ port urlObj
        else hostname urlObj in
      let pathname0 :=
        Js.dropEndWhile isSlash (Js.dropWhile isSlash (pathname urlObj)) in
      let pathname1 := if Js.truthy pathname0 then pathname0 else "root" in
      let fullRoute := hostPrefix +:+ "_" +:+ pathname1 in
      let cleanRoute0 := Js.collapseRuns isUnderscoreOrSpace "_" false fullRoute in
      let cleanRoute := Js.filterChars isRouteChar cleanRoute0 in
      if startsWithDigit cleanRoute then "page_" +:+ cleanRoute else cleanRoute
  end.

(** [https://example.com:8080/blog/post-1/] and [https://example.com/] as
    the [URL] constructor parses them. *)
Definition url_blog_post : URL :=
  {| hostname := "example.com"; port := "8080"; pathname := "/blog/post-1/" |}.
Definition url_root : URL :=
  {| hostname := "example.com"; port := ""; pathname := "/" |}.


(** ** JavaScript objects whose key order is observable *)

(** [obj[k] = v] on an object kept as the list of its own properties in
    insertion order: an existing key keeps its place, a new key goes last. *)
Fixpoint objSet {A} (k : string) (v : A) (obj : list (string * A))
    : list (string * A) :=
  match obj with
  | [] => [(k, v)]
  | (k', v') :: rest =>
      if decide (k' = k) then (k, v) :: rest else (k', v') :: objSet k v rest
  end.

(** [obj[k]], [None] for [undefined]. *)
Fixpoint objGet {A} (k : string) (obj : list (string * A)) : option A :=
  match obj with
  | [] => None
  | (k', v) :: rest => if decide (k' = k) then Some v else objGet k rest
  end.

(** ** The source document *)

(** The four declarations of [element.style] that [getFullTextContent]
    reads and writes. *)
Record InlineStyle := mkInlineStyle {
  overflow : string;
  textOverflow : string;
  whiteSpace : string;
  display : string;
}.

(** One entry of [select.options]. *)
Record OptionInfo := mkOptionInfo {
  opt_value : string;
  opt_text : string;
  opt_selected : bool;
}.

(** What the page reports about one element, apart from its child nodes.
    [computedStyle] is [getComputedStyle(element)]: the property names in
    iteration order, each with its value; the iteration lists no
    shorthand, so that [gap], the one shorthand whose value the
    converter stores, has a field of its own. [innerText] depends on the
    rendering, hence on the inline declarations in force when it is read. *)
Record ElementData := mkElementData {
  tagName : string;
  attributes : list (string * string);
  classList : list string;
  className : option string;      (* [None] when it is not a string (SVG) *)
  style : InlineStyle;
  computedStyle : list (string * string);
  computedGap : string;           (* [getComputedStyle(element).gap] *)
  innerText : InlineStyle → string;
  innerHTML : string;
  outerHTML : string;
  value : option string;          (* [element.value] of form controls *)
  options : option (list OptionInfo);
                                  (* [element.options]: [None] when
                                     undefined, as it is on every element
                                     but an HTML select *)
  src : string;                   (* [element.src] of an image *)
  naturalWidth : nat;
  width : nat;
  naturalHeight : nat;
  height : nat;
  loading : string;
  decoding : string;
}.

(** A node of the document: a text node, an element with its child
    nodes, or a node of another kind (comment, processing instruction),
    which has a [nodeName] and contributes nothing to [textContent]. *)
Inductive DomNode :=
| TextNode (data : string)
| OtherNode (name : string)
| Element (e : ElementData) (childNodes : list DomNode).

Definition nodeName (n : DomNode) : string :=
  match n with
  | TextNode _ => "#text"
  | OtherNode name => name
  | Element e _ => tagName e
  end.

Definition isTextNode (n : DomNode) : bool :=
  match n with TextNode _ => true | _ => false end.

Definition isElementNode (n : DomNode) : bool :=
  match n with Element _ _ => true | _ => false end.

(** [element.children]: the child nodes that are elements. *)
Definition children (childNodes : list DomNode) : list DomNode :=
  filter (λ n, isElementNode n = true) childNodes.

(** [node.textContent]. *)
Fixpoint textContent (n : DomNode) : string :=
  match n with
  | TextNode data => data
  | OtherNode _ => ""
  | Element _ childNodes =>
      (fix concat (l : list DomNode) : string :=
         match l with
         | [] => ""
         | c :: rest => textContent c +:+ concat rest
         end) childNodes
  end.

(** [element.getAttribute(name)], [None] for [null]. *)
Definition getAttribute (name : string) (e : ElementData) : option string :=
  objGet name (attributes e).

Definition hasAttribute (name : string) (e : ElementData) : bool :=
  bool_decide (is_Some (getAttribute name e)).

(** [cs.getPropertyValue(prop)] on a computed style or snapshot: [''] for
    a property that is not there. *)
Definition getPropertyValue (prop : string) (cs : list (string * string)) : string :=
  default "" (objGet prop cs).

(** [element.getElementsByTagName("source")]: the descendant elements
    named [source], in document order. An HTML element reports the upper
    case tag name, a foreign element its qualified name as written. *)
Fixpoint getSourceElements (n : DomNode) : list ElementData :=
  match n with
  | Element _ childNodes =>
      (fix descend (l : list DomNode) : list ElementData :=
         match l with
         | [] => []
         | c :: rest =>
             match c with
             | Element e' _ =>
                 if bool_decide (tagName e' ∈ ["SOURCE"; "source"])
                 then (e' :: getSourceElements c ++ descend rest)%list
                 else (getSourceElements c ++ descend rest)%list
             | _ => descend rest
             end
         end) childNodes
  | _ => []
  end.

(** ** The emitted document model *)

(** A JSON value the converter only passes through, kept serialized. *)
Definition Json := string.

(** A CSS value of a style map: the literal string, or the number
    [Number(seg)/100] that a [bg-opacity-N] class yields, kept symbolic
    ([seg] is the third dash-separated segment of the class, if any). *)
Inductive StyleValue :=
| SString (s : string)
| SPercentOf (seg : option string).

#[global] Instance StyleValue_eq_dec : EqDecision StyleValue.
Proof. solve_decision. Defined.

Record ResponsiveStyles := mkResponsiveStyles {
  rs_default : gmap string StyleValue;
  rs_tablet : gmap string StyleValue;
  rs_mobile : gmap string StyleValue;
}.

(** A value descriptor of [props]. [staticString] can be [null] (the
    [href] of an anchor without one), as can [staticValue] (a missing
    [alt]); [PRaw] is a value taken over from [propMappings]. *)
Inductive PropValue :=
| PString (staticString : option string)
| PImageUrl (staticString : string)
| PStaticValue (staticValue : option string)
| PSlot (slot : string)
| PRaw (json : Json).

#[global] Instance PropValue_eq_dec : EqDecision PropValue.
Proof. solve_decision. Defined.

(** [value?.staticString]. *)
Definition staticStringOf (v : option PropValue) : option string :=
  match v with
  | Some (PString s) => s
  | Some (PImageUrl s) => Some s
  | _ => None
  end.

(** Results of [href && href.startsWith(...)]: [null], [''] or a boolean. *)
Inductive JsFlag := FlagNull | FlagEmpty | FlagBool (b : bool).

Record LinkInfo := mkLinkInfo {
  li_href : option string;
  li_target : string;
  li_rel : string;
  li_isExternal : JsFlag;
  li_isInternal : JsFlag;
  li_isEmail : JsFlag;
  li_isPhone : JsFlag;
  li_textContent : string;
}.

Record FormInfo := mkFormInfo {
  fi_elementType : string;
  fi_inputType : string;
  fi_name : string;
  fi_placeholder : string;
  fi_required : bool;
  fi_value : string;
  fi_options : list OptionInfo;
}.

Record SourceEntry := mkSourceEntry {
  se_src : option string;
  se_type : option string;
  se_media : option string;
}.

Inductive MediaInfo :=
| ImageInfo (src : string) (alt : option string) (width height : nat)
    (loading decoding : string)
| VideoInfo (sources : list SourceEntry)
    (controls autoplay muted loop : bool) (poster : option string).

Record ComponentMappingInfo := mkComponentMappingInfo {
  cm_figmaNodeId : string;
  cm_codeComponentName : option string;
  cm_figmaComponentKey : option string;
  cm_variantProperties : Json;
}.

(** What [getElementMetadata] derives from the source element alone. *)
Record SourceMetadata := mkSourceMetadata {
  title : string;
  sourceInfo : Json;
  elementPath : string;
  contentPreview : string;
}.

Record Metadata := mkMetadata {
  source : SourceMetadata;
  linkInfo : option LinkInfo;
  formInfo : option FormInfo;
  mediaInfo : option MediaInfo;
  componentMapping : option ComponentMappingInfo;
}.

(** The unit of output. [slots] maps a slot id to the ordered child
    nodes; it is kept as the list of the object's own properties. *)
Inductive Node := mkNode {
  type : string;
  uid : string;
  metadata : Metadata;
  attrs : gmap string (option string);
  props : gmap string PropValue;
  slots : list (string * list Node);
  styles : ResponsiveStyles;
}.

Definition setType (t : string) (n : Node) : Node :=
  mkNode t (uid n) (metadata n) (attrs n) (props n) (slots n) (styles n).
Definition setMetadata (m : Metadata) (n : Node) : Node :=
  mkNode (type n) (uid n) m (attrs n) (props n) (slots n) (styles n).
Definition setAttrs (a : gmap string (option string)) (n : Node) : Node :=
  mkNode (type n) (uid n) (metadata n) a (props n) (slots n) (styles n).
Definition setProps (p : gmap string PropValue) (n : Node) : Node :=
  mkNode (type n) (uid n) (metadata n) (attrs n) p (slots n) (styles n).
Definition setSlots (sl : list (string * list Node)) (n : Node) : Node :=
  mkNode (type n) (uid n) (metadata n) (attrs n) (props n) sl (styles n).

(** [elementJSON.props[k] = v]. *)
Definition setProp (k : string) (v : PropValue) (n : Node) : Node :=
  setProps (<[k := v]> (props n)) n.

(** ** Component mappings (external input) *)

Record NodeIdEntry := mkNodeIdEntry {
  nodeId : string;
  variantProperties : option Json;
}.

Record ComponentMapping := mkComponentMapping {
  nodeIds : list NodeIdEntry;
  codeComponentName : option string;
  propMappings : option (gmap string PropValue);
  figmaComponentKey : option string;
}.

(** The local [component] object of the converter once a mapping has
    matched. *)
Record Component := mkComponent {
  c_codeComponentName : option string;
  c_propMappings : option (gmap string PropValue);
  c_nodeId : string;
  c_variantProperties : option Json;
  c_figmaComponentKey : option string;
}.

(** ** The hosting page, the converter state and its monad *)

(** The computed style of a pristine element, per tag, as the offscreen
    baseline document reports it. *)
Record Frame := mkFrame {
  probe : string → list (string * string);
}.

(** What the converter asks of the live page besides the element data.
    [random16 n] is [Math.random() * 16 | 0] at the [n]-th draw;
    [newBaselineFrame] is the offscreen iframe with its empty document,
    [None] when building it throws; [getElementMetadata] stands for the
    title, source information, path and preview of the element found at a
    child-index path below the conversion root (it catches its own
    failures); [resolveURL] is [new URL(src, location.href).href] and
    [btoa] the base64 encoder, [None] when they throw. *)
Record Host := mkHost {
  random16 : nat → nat;
  newBaselineFrame : option Frame;
  getElementMetadata : list nat → DomNode → SourceMetadata;
  resolveURL : string → option string;
  btoa : string → option string;
}.

(** The mutable state: the number of random draws so far and the two
    fields [_baselineFrame] and [_baselineCache] of [browserUtils]. *)
Record ConvState := mkConvState {
  draws : nat;
  baselineFrame : option Frame;
  baselineCache : gmap string (list (string * string));
}.

Inductive Outcome (A : Type) :=
| Ret (a : A)
| Throw (err : string).
Arguments Ret {A} a.
Arguments Throw {A} err.

(** A computation that reads and writes the state and may throw; the
    state changes made before a throw persist. *)
Definition Conv (A : Type) : Type := ConvState → Outcome A * ConvState.

Definition ret {A} (a : A) : Conv A := λ s, (Ret a, s).
Definition throw {A} (err : string) : Conv A := λ s, (Throw err, s).
Definition bind {A B} (m : Conv A) (k : A → Conv B) : Conv B :=
  λ s, match m s with
       | (Ret a, s') => k a s'
       | (Throw err, s') => (Throw err, s')
       end.
(** [try { m } catch (err) { h }]. *)
Definition tryCatch {A} (m : Conv A) (h : Conv A) : Conv A :=
  λ s, match m s with
       | (Ret a, s') => (Ret a, s')
       | (Throw _, s') => h s'
       end.

Notation "'let*' x ':=' m 'in' k" := (bind m (λ x, k))
  (at level 10, x pattern, m at level 100, k at level 200).

(** ** Constants *)

Definition MEDIA_TAGS : list string := ["IMG"; "VIDEO"].
Definition HTML_RTE_COMPONENTS : list string := ["richTextEditor"; "htmlRte"].
Definition STYLE_MODE : string := "uaDiffPlusInherited".

Definition SUPPORTED_PROPS : list string := [
  "display";"position";"top";"right";"bottom";"left";"z-index";
  "width";"height";"min-width";"min-height";"max-width";"max-height";"aspect-ratio";
  "overflow";"overflow-x";"overflow-y";
  "margin-top";"margin-right";"margin-bottom";"margin-left";
  "padding-top";"padding-right";"padding-bottom";"padding-left";
  "background-color";"background-image";"background-repeat";
  "background-size";"background-position";"background-clip";"background-origin";
  "background-attachment";"background-blend-mode";
  "border-top-width";"border-right-width";"border-bottom-width";"border-left-width";
  "border-top-style";"border-right-style";"border-bottom-style";"border-left-style";
  "border-top-color";"border-right-color";"border-bottom-color";"border-left-color";
  "border-top-left-radius";"border-top-right-radius";
  "border-bottom-right-radius";"border-bottom-left-radius";
  "border-image";
  "box-shadow";"opacity";"transform";"filter";"backdrop-filter";"mix-blend-mode";
  "clip-path";"mask";
  "color";"font-family";"font-size";"font-weight";"font-style";"line-height";
  "letter-spacing";"text-transform";"text-decoration-line";"text-decoration-color";
  "text-decoration-thickness";"text-underline-offset";
  "text-align";"white-space";"text-overflow";"overflow-wrap";"word-break";
  "flex";"flex-grow";"flex-shrink";"flex-basis";"flex-direction";"flex-wrap";
  "align-items";"justify-content";"align-content";"align-self";"gap";
  "grid-template-columns";"grid-template-rows";"grid-auto-flow";"grid-auto-rows";
  "grid-auto-columns";
  "grid-column";"grid-row";"row-gap";"column-gap";"place-items";"place-content";
  "justify-items";"justify-self";
  "list-style";"list-style-type";"list-style-position";"list-style-image";
  "table-layout";"border-collapse";"border-spacing";
  "visibility";"pointer-events";"user-select";"cursor";
  "object-fit";"object-position"
].

Definition INHERITABLE : list string := [
  "color";"font";"font-family";"font-feature-settings";"font-kerning";
  "font-language-override";
  "font-size";"font-size-adjust";"font-stretch";"font-style";"font-synthesis";
  "font-variant";
  "font-variant-caps";"font-variant-ligatures";"font-variant-numeric";
  "font-variant-position";
  "font-weight";"letter-spacing";"line-height";"text-align";"text-align-last";
  "text-indent";
  "text-justify";"text-shadow";"text-transform";"white-space";"word-break";
  "word-spacing";"word-wrap";
  "direction";"unicode-bidi";"writing-mode";
  "list-style";"list-style-image";"list-style-position";"list-style-type";
  "cursor";"quotes";"tab-size";"visibility";"pointer-events"
].

(** ** UUIDs *)

(** [v.toString(16)] for [v < 16]. *)
Definition hexDigit (v : nat) : ascii :=
  if decide (v < 10)%nat then ascii_of_nat (48 + v) else ascii_of_nat (87 + v).

(** The replacement of every [x] and [y] of the template by a random
    hexadecimal digit; [k] counts the draws. *)
Fixpoint fillTemplate (rnd : nat → nat) (k : nat) (template : string)
    : string * nat :=
  match template with
  | EmptyString => (EmptyString, k)
  | String c rest =>
      if decide (c = "x"%char) then
        let r := (rnd k mod 16)%nat in
        let '(t, k') := fillTemplate rnd (S k) rest in
        (String (hexDigit r) t, k')
      else if decide (c = "y"%char) then
        let r := (rnd k mod 16)%nat in
        let '(t, k') := fillTemplate rnd (S k) rest in
        (String (hexDigit (r mod 4 + 8)) t, k')
      else
        let '(t, k') := fillTemplate rnd k rest in
        (String c t, k')
  end.

Definition generateUUID (host : Host) : Conv string :=
  λ s,
    let '(u, k) := fillTemplate (random16 host) (draws s)
                     "xxxxxxxx-xxxx-4xxx-yxxx-xxxxxxxxxxxx" in
    (Ret u, mkConvState k (baselineFrame s) (baselineCache s)).

(** ** Component classifier *)

Definition getComponentName (e : ElementData) (childNodes : list DomNode)
    : string :=
  let htmlTag := Js.toLowerCase (tagName e) in
  let hasOnlyTextContent :=
    bool_decide (length (children childNodes) = 0%nat)
    && Js.truthy (Js.trim (textContent (Element e childNodes))) in
  if bool_decide (htmlTag ∈ ["h1"; "h2"; "h3"; "h4"; "h5"; "h6"]) then "header"
  else if decide (htmlTag = "a") then
    if bool_decide (0 < length (children childNodes))%nat
    then "link-container" else "link"
  else if decide (htmlTag = "video") then "video"
  else if decide (htmlTag = "section") then "section"
  else if bool_decide (htmlTag ∈ ["p"; "span"; "label"]) then "text"
  else if decide (htmlTag = "button") then "button"
  else if bool_decide (htmlTag ∈ ["img"; "svg"]) then "image"
  else if decide (htmlTag = "div") then
    if hasOnlyTextContent then "text"
    else if decide (getPropertyValue "display" (computedStyle e) = "flex") then
      if decide (getPropertyValue "flex-direction" (computedStyle e) = "column")
      then "vstack" else "hstack"
    else if decide (getPropertyValue "display" (computedStyle e) = "grid")
    then "box"
    else "box"
  else
    if hasOnlyTextContent then "text" else "box".

(** ** Style resolution engine *)

(** The [switch (mode)] of [getAppliedStyles]: whether the property
    [prop] with computed value [val] is kept, given the baseline [ua] of
    the tag and the computed style [ps] of the parent element, if any.
    The JavaScript value of [include] is reduced to its truthiness, which
    is all that [if (!include) continue] looks at. *)
Definition includeProperty (mode prop val : string)
    (ua : list (string * string)) (ps : option (list (string * string)))
    : bool :=
  let inherited :=
    match ps with
    | Some ps' =>
        bool_decide (prop ∈ INHERITABLE)
        && bool_decide (val = getPropertyValue prop ps')
    | None => false
    end in
  if decide (mode = "all") then true
  else if decide (mode = "inheritedOnly") then inherited
  else if decide (mode = "uaDiff") then
    bool_decide (val ≠ getPropertyValue prop ua)
  else
    let diffUA := bool_decide (val ≠ getPropertyValue prop ua) in
    diffUA || inherited.

(** One round of the collecting loop: [outKebab] after the property
    [prop] of the computed style [cs] has been looked at. *)
Definition collectStep (mode : string) (whitelist : list string)
    (cs ua : list (string * string)) (ps : option (list (string * string)))
    (outKebab : list (string * string)) (prop : string)
    : list (string * string) :=
  let val := getPropertyValue prop cs in
  if negb (Js.truthy val) || bool_decide (val = "initial")
     || bool_decide (val = "unset") then outKebab
  else if negb (includeProperty mode prop val ua ps) then outKebab
  else if bool_decide (whitelist ≠ []) && negb (bool_decide (prop ∈ whitelist))
  then outKebab
  else objSet prop val outKebab.

Definition collectStyles (mode : string) (whitelist : list string)
    (cs ua : list (string * string)) (ps : option (list (string * string)))
    : list (string * string) :=
  foldl (collectStep mode whitelist cs ua ps) [] (cs.*1).

(** [needle] occurs in [hay]. *)
Fixpoint includesStr (needle hay : string) : bool :=
  Js.startsWith needle hay ||
  match hay with
  | EmptyString => false
  | String _ rest => includesStr needle rest
  end.

(** [/(btn|button|cta)/i.test(cls)]. *)
Definition looksLikeButton (cls : string) : bool :=
  let l := Js.toLowerCase cls in
  includesStr "btn" l || includesStr "button" l || includesStr "cta" l.

(** The first block of [getAppliedStyles]: the baseline frame, built on
    first use. *)
Definition ensureBaselineFrame (host : Host) : Conv Frame :=
  λ s,
    match baselineFrame s with
    | Some f => (Ret f, s)
    | None =>
        match newBaselineFrame host with
        | Some f => (Ret f, mkConvState (draws s) (Some f) ∅)
        | None => (Throw "TypeError: cannot create the baseline document", s)
        end
    end.

(** The baseline snapshot of a tag, from the cache or probed and cached. *)
Definition getBaseline (frame : Frame) (tag : string)
    : Conv (list (string * string)) :=
  λ s,
    match baselineCache s !! tag with
    | Some ua => (Ret ua, s)
    | None =>
        let ua := probe frame tag in
        (Ret ua, mkConvState (draws s) (baselineFrame s)
                   (<[tag := ua]> (baselineCache s)))
    end.

(** The rest of [getAppliedStyles] once the baseline [ua] of the tag is
    at hand: the collecting loop, the change to camelCase and the
    [inline-block] of button-like anchors. *)
Definition stylesAgainst (e : ElementData) (parent : option ElementData)
    (mode : string) (whitelist : list string) (ua : list (string * string))
    : gmap string string :=
  let cs := computedStyle e in
  let ps := computedStyle <$> parent in
  let outKebab := collectStyles mode whitelist cs ua ps in
  let outCamel : gmap string string :=
    foldl (λ out kv, <[Js.camel kv.1 := kv.2]> out) ∅ outKebab in
  if decide (tagName e = "A") then
    let cls := default "" (className e) in
    if looksLikeButton cls && negb (Js.truthyOpt (outCamel !! "display"))
    then <["display" := "inline-block"]> outCamel
    else outCamel
  else outCamel.

Definition getAppliedStyles (host : Host) (e : ElementData)
    (parent : option ElementData) (mode : string) (whitelist : list string)
    : Conv (gmap string string) :=
  let* frame := ensureBaselineFrame host in
  let* ua := getBaseline frame (tagName e) in
  ret (stylesAgainst e parent mode whitelist ua).

(** ** Style deriver *)

(** The callback of [declarations.forEach] in [handleInlineStyles]. *)
Definition storeDeclaration (styles_ : gmap string StyleValue)
    (declaration : string) : gmap string StyleValue :=
  match Js.trim <$> Js.split ":" declaration with
  | property :: value_ :: _ =>
      if Js.truthy property && Js.truthy value_
      then <[Js.camel property := SString value_]> styles_
      else styles_
  | _ => styles_
  end.

Definition handleInlineStyles (e : ElementData) : gmap string StyleValue :=
  match getAttribute "style" e with
  | None => ∅
  | Some style_ =>
      if negb (Js.truthy style_) then ∅
      else foldl storeDeclaration ∅ (Js.split ";" style_)
  end.

Definition handleAdditionalStyles (e : ElementData) (classList_ : list string)
    : ResponsiveStyles :=
  let cs := computedStyle e in
  let gp (prop : string) := SString (getPropertyValue prop cs) in
  let additional0 : gmap string StyleValue :=
    if bool_decide ("border" ∈ classList_)
    then {[ "borderStyle" := SString "solid" ]} else ∅ in
  let htmlTag := Js.toLowerCase (tagName e) in
  let additionalStyles : gmap string StyleValue :=
    if decide (htmlTag = "img") then
      <["maxWidth" := SString "100%"]> additional0
    else if decide (htmlTag = "button") then
      let a := <["backgroundImage" := SString "none"]>
                 (<["backgroundColor" := SString "transparent"]> additional0) in
      if negb (bool_decide ("border" ∈ classList_))
      then <["border" := SString "unset"]> a else a
    else if decide (htmlTag = "div") then
      foldl (λ a cls,
               let a1 :=
                 if Js.startsWith "bg-opacity" cls
                 then <["opacity" := SPercentOf (Js.split "-" cls !! 2%nat)]> a
                 else a in
               if Js.startsWith "border" cls
               then <["border" := SString "0 solid"]> a1 else a1)
            additional0 classList_
    else if decide (htmlTag = "p") then
      <["display" := SString "inline-block"]> additional0
    else if bool_decide (htmlTag ∈ ["h1"; "h2"; "h3"; "h4"; "h5"; "h6"]) then
      <["display" := SString "block"]> additional0
    else if bool_decide (htmlTag ∈ ["ul"; "ol"; "nav"]) then
      let layout :=
        if decide (getPropertyValue "display" cs = "flex") then
          <["gap" := SString (computedGap e)]>
            (<["alignItems" := gp "align-items"]>
               (<["justifyContent" := gp "justify-content"]>
                  (<["flexDirection" := gp "flex-direction"]>
                     (<["display" := SString "flex"]> additional0))))
        else if decide (getPropertyValue "display" cs = "grid") then
          <["gap" := SString (computedGap e)]>
            (<["gridTemplateRows" := gp "grid-template-rows"]>
               (<["gridTemplateColumns" := gp "grid-template-columns"]>
                  (<["display" := SString "grid"]> additional0)))
        else <["display" := gp "display"]> additional0 in
      <["paddingRight" := gp "padding-right"]>
        (<["paddingLeft" := gp "padding-left"]>
           (<["marginBottom" := gp "margin-bottom"]>
              (<["marginTop" := gp "margin-top"]>
                 (<["listStyleImage" := gp "list-style-image"]>
                    (<["listStylePosition" := gp "list-style-position"]>
                       (<["listStyleType" := gp "list-style-type"]> layout))))))
    else if decide (htmlTag = "li") then
      <["textTransform" := gp "text-transform"]>
        (<["letterSpacing" := gp "letter-spacing"]>
           (<["paddingRight" := gp "padding-right"]>
              (<["paddingLeft" := gp "padding-left"]>
                 (<["marginBottom" := gp "margin-bottom"]>
                    (<["marginTop" := gp "margin-top"]>
                       (<["listStyleImage" := gp "list-style-image"]>
                          (<["listStylePosition" := gp "list-style-position"]>
                             (<["listStyleType" := gp "list-style-type"]>
                                (<["display" := gp "display"]> additional0)))))))))
    else additional0 in
  mkResponsiveStyles additionalStyles ∅ ∅.

(** [getElementResponsiveStyles]: computed styles, then the tag and class
    exceptions, then the inline declarations (the last wins); anything
    thrown on the way is caught and answered with three empty maps. *)
Definition getElementResponsiveStyles (host : Host) (e : ElementData)
    (parent : option ElementData) : Conv ResponsiveStyles :=
  tryCatch
    (let* stylesDefault :=
       getAppliedStyles host e parent STYLE_MODE SUPPORTED_PROPS in
     let inlineStyles := handleInlineStyles e in
     let additional := handleAdditionalStyles e (classList e) in
     let mergedDefault :=
       inlineStyles ∪ rs_default additional ∪ (SString <$> stylesDefault) in
     ret (mkResponsiveStyles mergedDefault ∅ ∅))
    (ret (mkResponsiveStyles ∅ ∅ ∅)).

(** ** Text recovery *)

(** [a || b || ''] on strings. *)
Definition orElse (a b : string) : string :=
  if Js.truthy a then a else if Js.truthy b then b else "".

(** [getFullTextContent]: the trimmed text of the element and the inline
    style it leaves behind. With a truncation indicator the four
    truncating declarations are overridden while the text is read and
    then written back one by one. *)
Definition getFullTextContent (e : ElementData) (childNodes : list DomNode)
    : string * InlineStyle :=
  let hasTruncation :=
    bool_decide ("line-clamp-3" ∈ classList e)
    || bool_decide ("line-clamp-2" ∈ classList e)
    || bool_decide ("line-clamp-1" ∈ classList e)
    || bool_decide (textOverflow (style e) = "ellipsis")
    || bool_decide (overflow (style e) = "hidden") in
  if hasTruncation then
    let originalStyles := style e in
    let temporary := mkInlineStyle "visible" "clip" "normal" "block" in
    let fullText :=
      orElse (textContent (Element e childNodes)) (innerText e temporary) in
    let s1 := mkInlineStyle (overflow originalStyles) (textOverflow temporary)
                (whiteSpace temporary) (display temporary) in
    let s2 := mkInlineStyle (overflow s1) (textOverflow originalStyles)
                (whiteSpace s1) (display s1) in
    let s3 := mkInlineStyle (overflow s2) (textOverflow s2)
                (whiteSpace originalStyles) (display s2) in
    let s4 := mkInlineStyle (overflow s3) (textOverflow s3)
                (whiteSpace s3) (display originalStyles) in
    (Js.trim fullText, s4)
  else
    (Js.trim (orElse (textContent (Element e childNodes)) (innerText e (style e))),
     style e).

(** [handleTextNode(textContent, elementJSON, previousValue)];
    [previousValue] is [None] when it is left out or [undefined]. *)
Definition handleTextNode (textContent_ : string) (elementJSON : Node)
    (previousValue : option string) : Node :=
  if Js.truthy (Js.trim textContent_) then
    let cleanText := Js.stripTrailingDots (Js.trim textContent_) in
    if bool_decide (cleanText = "...") || bool_decide (cleanText = "")
    then elementJSON
    else
      setProp "text"
        (PString (Some (match previousValue with
                        | Some prev =>
                            if Js.truthy prev then prev +:+ " " +:+ cleanText
                            else cleanText
                        | None => cleanText
                        end)))
        elementJSON
  else elementJSON.

(** ** Tag-specific handlers *)

Definition setLinkInfo (l : LinkInfo) (n : Node) : Node :=
  let m := metadata n in
  setMetadata (mkMetadata (source m) (Some l) (formInfo m) (mediaInfo m)
                 (componentMapping m)) n.
Definition setFormInfo (f : FormInfo) (n : Node) : Node :=
  let m := metadata n in
  setMetadata (mkMetadata (source m) (linkInfo m) (Some f) (mediaInfo m)
                 (componentMapping m)) n.
Definition setMediaInfo (i : MediaInfo) (n : Node) : Node :=
  let m := metadata n in
  setMetadata (mkMetadata (source m) (linkInfo m) (formInfo m) (Some i)
                 (componentMapping m)) n.
Definition setComponentMapping (c : ComponentMappingInfo) (n : Node) : Node :=
  let m := metadata n in
  setMetadata (mkMetadata (source m) (linkInfo m) (formInfo m) (mediaInfo m)
                 (Some c)) n.

(** [href && test(href)]. *)
Definition hrefFlag (href : option string) (test : string → bool) : JsFlag :=
  match href with
  | None => FlagNull
  | Some h => if Js.truthy h then FlagBool (test h) else FlagEmpty
  end.

Definition handleLinkElement (e : ElementData) (childNodes : list DomNode)
    (elementJSON : Node) : Node :=
  if decide (tagName e ≠ "A") then elementJSON
  else
    let href := getAttribute "href" e in
    let target := getAttribute "target" e in
    let rel := getAttribute "rel" e in
    let textContent_ := Js.trim (textContent (Element e childNodes)) in
    let j1 := setProp "href" (PString href) elementJSON in
    let j2 := setProp "label" (PString (Some textContent_)) j1 in
    let j3 := if Js.truthyOpt target then setProp "target" (PString target) j2
              else j2 in
    let j4 := if Js.truthyOpt rel then setProp "rel" (PString rel) j3 else j3 in
    setLinkInfo
      {| li_href := href;
         li_target := if Js.truthyOpt target then default "" target else "_self";
         li_rel := if Js.truthyOpt rel then default "" rel else "";
         li_isExternal :=
           hrefFlag href (λ h, Js.startsWith "http" h || Js.startsWith "//" h);
         li_isInternal := hrefFlag href (Js.startsWith "#");
         li_isEmail := hrefFlag href (Js.startsWith "mailto:");
         li_isPhone := hrefFlag href (Js.startsWith "tel:");
         li_textContent := textContent_ |}
      j4.

Definition orDefault (o : option string) (d : string) : string :=
  match o with Some s => if Js.truthy s then s else d | None => d end.

(** [handleFormElement]. [Array.from(element.options)] throws on an
    element that is called [select] and has no [options], as one of
    another namespace than HTML. *)
Definition handleFormElement (e : ElementData) (elementJSON : Node)
    : Conv Node :=
  let tagName_ := Js.toLowerCase (tagName e) in
  if negb (bool_decide (tagName_ ∈ ["input"; "textarea"; "select"; "form"]))
  then ret elementJSON
  else
    let* options_ :=
      if decide (tagName_ = "select") then
        match options e with
        | Some l => ret l
        | None => throw "TypeError: element.options is undefined"
        end
      else ret [] in
    ret (setFormInfo
           {| fi_elementType := tagName_;
              fi_inputType := orDefault (getAttribute "type" e) "text";
              fi_name := orDefault (getAttribute "name" e) "";
              fi_placeholder := orDefault (getAttribute "placeholder" e) "";
              fi_required := hasAttribute "required" e;
              fi_value := orDefault (value e) "";
              fi_options := options_ |}
           elementJSON).

Definition handleButtonElement (textContent_ : string) (elementJSON : Node)
    : Node :=
  setProp "label" (PString (Some textContent_)) elementJSON.

Definition handleImageElement (host : Host) (e : ElementData)
    (elementJSON : Node) : Conv Node :=
  if decide (tagName e ≠ "IMG") then ret elementJSON
  else
    let alt := getAttribute "alt" e in
    match resolveURL host (src e) with
    | None => throw "TypeError: Invalid URL"
    | Some absoluteSrc =>
        let j1 := setProp "src" (PImageUrl absoluteSrc) elementJSON in
        let j2 := setProp "alt" (PStaticValue alt) j1 in
        ret (setMediaInfo
               (ImageInfo absoluteSrc alt
                  (if decide (naturalWidth e = 0%nat) then width e
                   else naturalWidth e)
                  (if decide (naturalHeight e = 0%nat) then height e
                   else naturalHeight e)
                  (if Js.truthy (loading e) then loading e else "eager")
                  (if Js.truthy (decoding e) then decoding e else "auto"))
               j2)
    end.

Definition handleVideoElement (e : ElementData) (childNodes : list DomNode)
    (elementJSON : Node) : Conv Node :=
  if decide (tagName e ≠ "VIDEO") then ret elementJSON
  else
    let sources := getSourceElements (Element e childNodes) in
    match sources with
    | [] => throw "TypeError: sources[0] is undefined"
    | first :: _ =>
        let j1 :=
          setAttrs (<["type" := getAttribute "type" first]>
                      (<["src" := getAttribute "src" first]> (attrs elementJSON)))
                   elementJSON in
        ret (setMediaInfo
               (VideoInfo
                  ((λ s, mkSourceEntry (getAttribute "src" s)
                           (getAttribute "type" s) (getAttribute "media" s))
                     <$> sources)
                  (hasAttribute "controls" e) (hasAttribute "autoplay" e)
                  (hasAttribute "muted" e) (hasAttribute "loop" e)
                  (getAttribute "poster" e))
               j1)
    end.

(** [handleCustomComponents]: [{...props, ...propMappings}] lets the
    mapping win; [variantProperties || {}]. *)
Definition handleCustomComponents (elementJSON : Node) (component : Component)
    : Node :=
  let j1 := match c_codeComponentName component with
            | Some name => if Js.truthy name then setType name elementJSON
                           else elementJSON
            | None => elementJSON
            end in
  let j2 := match c_propMappings component with
            | Some pm => setProps (pm ∪ props j1) j1
            | None => j1
            end in
  if Js.truthy (c_nodeId component) then
    setComponentMapping
      {| cm_figmaNodeId := c_nodeId component;
         cm_codeComponentName := c_codeComponentName component;
         cm_figmaComponentKey := c_figmaComponentKey component;
         cm_variantProperties := default "{}" (c_variantProperties component) |}
      j2
  else j2.

Definition getElementAttributes (e : ElementData) : gmap string (option string) :=
  foldl (λ attrs_ attr,
           if bool_decide (attr.1 ≠ "class") && bool_decide (attr.1 ≠ "style")
           then <[attr.1 := Some attr.2]> attrs_ else attrs_)
        ∅ (attributes e).

(** [convertSVGToBase64]: the data URI, [''] when encoding throws. *)
Definition convertSVGToBase64 (host : Host) (e : ElementData) : string :=
  let svgString := if Js.truthy (outerHTML e) then outerHTML e else innerHTML e in
  match btoa host svgString with
  | Some b => "data:image/svg+xml;base64," +:+ b
  | None => ""
  end.

(** ** Tree converter *)

(** [node.nodeId === figmaNodeId]; the attribute may be missing. *)
Definition matchesFigmaId (figmaNodeId : option string) (node : NodeIdEntry)
    : bool :=
  bool_decide (Some (nodeId node) = figmaNodeId).

(** The object assigned to [component] when [node] of [componentMapping]
    has matched. *)
Definition componentOf (componentMapping : ComponentMapping)
    (node : NodeIdEntry) : Component :=
  {| c_codeComponentName := codeComponentName componentMapping;
     c_propMappings := propMappings componentMapping;
     c_nodeId := nodeId node;
     c_variantProperties := variantProperties node;
     c_figmaComponentKey := figmaComponentKey componentMapping |}.

(** One round of the [forEach] over the component mappings. *)
Definition visitMapping (figmaNodeId : option string)
    (component : option Component) (componentMapping : ComponentMapping)
    : option Component :=
  match List.find (matchesFigmaId figmaNodeId) (nodeIds componentMapping) with
  | Some node => Some (componentOf componentMapping node)
  | None => component
  end.

(** The [forEach] over the component mappings: [component] after the
    whole list has been visited. [None] is the initial empty object. *)
Definition findComponent (componentMappings : list ComponentMapping)
    (figmaNodeId : option string) : option Component :=
  foldl (visitMapping figmaNodeId) None componentMappings.

(** [component?.nodeId] as a condition. *)
Definition mappedComponent (component : option Component) : option Component :=
  match component with
  | Some c => if Js.truthy (c_nodeId c) then Some c else None
  | None => None
  end.

(** The closing block: the children go under one slot. *)
Definition attachChildren (uid_ : string) (children_ : list Node)
    (elementJSON : Node) : Node :=
  match children_ with
  | [] => elementJSON
  | _ =>
      setSlots (objSet uid_ children_ (slots elementJSON))
        (setProp "children" (PSlot uid_) elementJSON)
  end.

(** An entry of the local [children] array of the line-break branch: a
    converted child, or a reference to the one shared [childJSON] object,
    which is still written to after it has been pushed. *)
Inductive ChildRef :=
| OwnNode (n : Node)
| WrapperRef.

Definition resolveRef (childJSON : Node) (r : ChildRef) : Node :=
  match r with OwnNode n => n | WrapperRef => childJSON end.

Definition optionNode (o : option Node) : list Node :=
  match o with Some n => [n] | None => [] end.

Definition isBrNode (n : DomNode) : bool :=
  bool_decide (Js.toLowerCase (nodeName n) = "br").

Section Loops.

Context (host : Host).
(** The recursive call, on a child element at a path. *)
Context (rec : option ElementData → list nat → DomNode → Conv (option Node)).
Context (e : ElementData) (childNodes : list DomNode) (path : list nat).

(** The loop of the line-break branch from index [i] on; [nodes] are
    the child nodes from there. It yields the shared [childJSON], the
    type of [elementJSON] and the [children] array. *)
Fixpoint brLoop (i : nat) (nodes : list DomNode) (childJSON : Node)
    (type_ : string) (children_ : list ChildRef)
    : Conv (Node * string * list ChildRef) :=
  match nodes with
  | [] => ret (childJSON, type_, children_)
  | childNode :: rest =>
      if isBrNode childNode then
        brLoop (S i) rest childJSON type_ children_
      else
        match childNode with
        | TextNode _ =>
            let textContent_ := (getFullTextContent e childNodes).1 in
            let childJSON' :=
              handleTextNode textContent_ childJSON
                (staticStringOf (props childJSON !! "text")) in
            let boundary :=
              match rest with
              | next :: _ => negb (isTextNode next) && negb (isBrNode next)
              | [] => true
              end in
            brLoop (S i) rest childJSON' "box"
              (if boundary then children_ ++ [WrapperRef] else children_)%list
        | Element _ _ =>
            let* childJSON_ := rec (Some e) (path ++ [i])%list childNode in
            brLoop (S i) rest childJSON type_
              (children_ ++ (OwnNode <$> optionNode childJSON_))%list
        | OtherNode _ => brLoop (S i) rest childJSON type_ children_
        end
  end.

(** The loop of the default branch. *)
Fixpoint childLoop (i : nat) (nodes : list DomNode) (elementJSON : Node)
    (children_ : list Node) : Conv (Node * list Node) :=
  match nodes with
  | [] => ret (elementJSON, children_)
  | childNode :: rest =>
      match childNode with
      | TextNode _ =>
          let elementJSON' :=
            if decide (Js.toLowerCase (tagName e) ≠ "a") then
              handleTextNode (getFullTextContent e childNodes).1 elementJSON None
            else elementJSON in
          childLoop (S i) rest elementJSON' children_
      | Element _ _ =>
          let* childJSON := rec (Some e) (path ++ [i])%list childNode in
          childLoop (S i) rest elementJSON
            (children_ ++ optionNode childJSON)%list
      | OtherNode _ => childLoop (S i) rest elementJSON children_
      end
  end.

End Loops.

(** The [else] block of [convertHTMLToComposableJSON], entered when no
    component mapping applies: the children of the element are looked at
    and attached. [rec] is the recursive call; [elementJSON], its
    metadata and its style come from the caller. *)
Definition convertUnmapped (host : Host)
    (rec : option ElementData → list nat → DomNode → Conv (option Node))
    (path : list nat) (e : ElementData) (childNodes : list DomNode)
    (componentName : string) (metadata_ : Metadata) (style_ : ResponsiveStyles)
    (elementJSON : Node) : Conv (option Node) :=
  let* uid_ := generateUUID host in
  let hasBrElement := existsb isBrNode childNodes in
  if bool_decide (Js.toLowerCase (tagName e) = "div")
     && bool_decide (childNodes = [])
     && Js.truthy (textContent (Element e childNodes)) then
    let textContent_ := (getFullTextContent e childNodes).1 in
    let* cuid := generateUUID host in
    let childJSON := mkNode "text" cuid metadata_ ∅ ∅ [] style_ in
    let children_ :=
      if Js.truthy (Js.trim textContent_)
      then [handleTextNode textContent_ childJSON None] else [] in
    ret (Some (attachChildren uid_ children_ elementJSON))
  else if hasBrElement
          && negb (bool_decide (componentName ∈ HTML_RTE_COMPONENTS)) then
    let* cuid := generateUUID host in
    let childJSON := mkNode componentName cuid metadata_ ∅ ∅ [] style_ in
    let* r :=
      brLoop rec e childNodes path 0 childNodes childJSON
        (type elementJSON) [] in
    let '(childJSON', type_, refs) := r in
    ret (Some (attachChildren uid_ (resolveRef childJSON' <$> refs)
                 (setType type_ elementJSON)))
  else if bool_decide (componentName ∈ HTML_RTE_COMPONENTS)
          && negb (bool_decide (childNodes = [])) then
    ret (Some (setProp "html" (PString (Some (innerHTML e))) elementJSON))
  else if decide (Js.toLowerCase (tagName e) = "svg") then
    ret (Some (setProp "src" (PImageUrl (convertSVGToBase64 host e))
                 elementJSON))
  else
    let j1 :=
      if decide (Js.toLowerCase (tagName e) = "button") then
        handleButtonElement (getFullTextContent e childNodes).1 elementJSON
      else elementJSON in
    let j2 :=
      if decide (Js.toLowerCase (tagName e) = "a") then
        handleLinkElement e childNodes j1
      else j1 in
    let* j3 := handleFormElement e j2 in
    if bool_decide (tagName e ∈ MEDIA_TAGS) then
      let* j4 := handleImageElement host e j3 in
      let* j5 := handleVideoElement e childNodes j4 in
      ret (Some j5)
    else
      let* r := childLoop rec e childNodes path 0 childNodes j3 [] in
      let '(j6, children_) := r in
      ret (Some (attachChildren uid_ children_ j6)).

(** [elementJSON] as first built: the classifier's type, a fresh uid, the
    metadata and attributes of the element, no property and no slot. *)
Definition initialElementJSON (host : Host) (path : list nat)
    (e : ElementData) (childNodes : list DomNode) (uid0 : string)
    (style_ : ResponsiveStyles) : Node :=
  mkNode (getComponentName e childNodes) uid0
    (mkMetadata (getElementMetadata host path (Element e childNodes))
       None None None None)
    (getElementAttributes e) ∅ [] style_.

(** The body of [convertHTMLToComposableJSON] for an element, with the
    recursive call [rec]; [None] is [null]. *)
Definition convertElement (host : Host)
    (componentMappings : list ComponentMapping)
    (rec : option ElementData → list nat → DomNode → Conv (option Node))
    (parent : option ElementData) (path : list nat)
    (e : ElementData) (childNodes : list DomNode) : Conv (option Node) :=
  if decide (Js.toLowerCase (tagName e) = "br") then ret None
  else
    let figmaNodeId := getAttribute "data-figma-id" e in
    let component := findComponent componentMappings figmaNodeId in
    let componentName := getComponentName e childNodes in
    let* style_ := getElementResponsiveStyles host e parent in
    let* uid0 := generateUUID host in
    let elementJSON := initialElementJSON host path e childNodes uid0 style_ in
    match mappedComponent component with
    | Some c => ret (Some (handleCustomComponents elementJSON c))
    | None =>
        convertUnmapped host rec path e childNodes componentName
          (metadata elementJSON) style_ elementJSON
    end.

(** [convertHTMLToComposableJSON(element, componentMappings)]. Reading
    [tagName] off a node that is no element throws. *)
Fixpoint convertHTMLToComposableJSON (host : Host)
    (componentMappings : list ComponentMapping)
    (parent : option ElementData) (path : list nat) (element : DomNode)
    {struct element} : Conv (option Node) :=
  match element with
  | Element e childNodes =>
      convertElement host componentMappings
        (convertHTMLToComposableJSON host componentMappings)
        parent path e childNodes
  | _ => throw "TypeError: element.tagName is undefined"
  end.

(** [convertPageToJSON]: the conversion of [document.body], [None] when
    there is none. *)
Definition convertPageToJSON (host : Host)
    (componentMappings : list ComponentMapping)
    (html : option ElementData) (body : option DomNode) : Conv Node :=
  match body with
  | None => throw "No body element found"
  | Some b =>
      let* result := convertHTMLToComposableJSON host componentMappings html [] b in
      match result with
      | None => throw "Failed to convert body element"
      | Some r => ret r
      end
  end.

(** ** Sample inputs *)

Definition noInlineStyle : InlineStyle := mkInlineStyle "" "" "" "".

(** An element with a tag, attributes, classes and a computed style, and
    nothing else of note. *)
Definition plainElement (tag : string) (attributes_ : list (string * string))
    (classes : list string) (cs : list (string * string)) : ElementData :=
  {| tagName := tag; attributes := attributes_; classList := classes;
     className := Some ""; style := noInlineStyle; computedStyle := cs;
     computedGap := "normal";
     innerText := λ _, ""; innerHTML := ""; outerHTML := "";
     value := None;
     options := if decide (tag = "SELECT") then Some [] else None;
     src := "";
     naturalWidth := 0; width := 0; naturalHeight := 0; height := 0;
     loading := ""; decoding := "" |}.

(** A page whose baseline document can be built and reports no default
    at all, and one whose baseline document cannot be built. *)
Definition sampleHost : Host :=
  {| random16 := λ n, n;
     newBaselineFrame := Some (mkFrame (λ _, []));
     getElementMetadata := λ _ _, mkSourceMetadata "" "" "" "";
     resolveURL := Some;
     btoa := Some |}.

Definition framelessHost : Host :=
  {| random16 := λ n, n;
     newBaselineFrame := None;
     getElementMetadata := λ _ _, mkSourceMetadata "" "" "" "";
     resolveURL := Some;
     btoa := Some |}.

Definition initialState : ConvState := mkConvState 0 None ∅.

Definition mappingA : ComponentMapping :=
  {| nodeIds := [mkNodeIdEntry "1:2" None]; codeComponentName := Some "Hero";
     propMappings := None; figmaComponentKey := None |}.
Definition mappingB : ComponentMapping :=
  {| nodeIds := [mkNodeIdEntry "1:2" None]; codeComponentName := Some "Banner";
     propMappings := None; figmaComponentKey := None |}.

Definition lineBreak : DomNode := Element (plainElement "BR" [] [] []) [].

(** [<div><span>x</span> <p>Hello<br>World</p></div>]. *)
Definition sampleTree : DomNode :=
  Element (plainElement "DIV" [] [] [])
    [Element (plainElement "SPAN" [] [] []) [TextNode "x"];
     TextNode " ";
     Element (plainElement "P" [] [] [])
       [TextNode "Hello"; lineBreak; TextNode "World"]].

(** What a conversion emitted, if it returned a node. *)
Definition emitted (result : Outcome (option Node) * ConvState) : option Node :=
  match result.1 with
  | Ret (Some n) => Some n
  | _ => None
  end.

(** [<div data-figma-id="1:2"><span>x</span></div>]. *)
Definition mappedDivData : ElementData :=
  plainElement "DIV" [("data-figma-id", "1:2")] [] [].
Definition mappedDivChildNodes : list DomNode :=
  [Element (plainElement "SPAN" [] [] []) [TextNode "x"]].
Definition mappedDiv : DomNode := Element mappedDivData mappedDivChildNodes.

Definition mappingNameless : ComponentMapping :=
  {| nodeIds := [mkNodeIdEntry "1:2" None]; codeComponentName := Some "";
     propMappings := None; figmaComponentKey := None |}.

(** [<p><br></p>]. *)
Definition breakOnlyParagraph : DomNode :=
  Element (plainElement "P" [] [] []) [lineBreak].

(** The descriptor that [handleTextNode] stores for a text when no
    previous value is passed, if it stores one. *)
Definition textOf (textContent_ : string) : option PropValue :=
  if Js.truthy (Js.trim textContent_) then
    let cleanText := Js.stripTrailingDots (Js.trim textContent_) in
    if bool_decide (cleanText = "...") || bool_decide (cleanText = "")
    then None else Some (PString (Some cleanText))
  else None.

(** The [text] properties of the child nodes of a node, slot by slot. *)
Definition childTexts (n : Node) : list (option PropValue) :=
  (λ c, props c !! "text") <$> concat ((slots n).*2).

(** [<p class="line-clamp-2">Hello<br>World</p>],
    [<p class="line-clamp-2"> Hello </p>] and
    [<p class="line-clamp-2">.....</p>]. *)
Definition clampedTwoLines : DomNode :=
  Element (plainElement "P" [] ["line-clamp-2"] [])
    [TextNode "Hello"; lineBreak; TextNode "World"].
Definition clampedPadded : DomNode :=
  Element (plainElement "P" [] ["line-clamp-2"] []) [TextNode " Hello "].
Definition clampedDots : DomNode :=
  Element (plainElement "P" [] ["line-clamp-2"] []) [TextNode "....."].

(** A paragraph whose computed colour is red. *)
Definition redParagraph : ElementData :=
  plainElement "P" [] [] [("color", "red")].

(** The value that a computation returned, if it returned. *)
Definition returned {A} (result : Outcome A * ConvState) : option A :=
  match result.1 with
  | Ret a => Some a
  | Throw _ => None
  end.

(** ** Vocabulary of the statements *)

Fixpoint stringForall (P : ascii → Prop) (s : string) : Prop :=
  match s with
  | EmptyString => True
  | String c r => P c ∧ stringForall P r
  end.


(** The property [prop] gets past every [continue] of the collecting
    loop. *)
Definition kept (mode : string) (whitelist : list string)
    (cs ua : list (string * string)) (ps : option (list (string * string)))
    (prop : string) : bool :=
  let val := getPropertyValue prop cs in
  negb (negb (Js.truthy val) || bool_decide (val = "initial")
        || bool_decide (val = "unset"))
  && includeProperty mode prop val ua ps
  && negb (bool_decide (whitelist ≠ []) && negb (bool_decide (prop ∈ whitelist))).

(** [P] holds of a node and of every node below it. *)
Fixpoint nodeForall (P : Node → Prop) (n : Node) : Prop :=
  match n with
  | mkNode _ _ _ _ _ slots_ _ =>
      P n
      ∧ (fix slotsForall (sl : list (string * list Node)) : Prop :=
           match sl with
           | [] => True
           | (_, ch) :: rest =>
               (fix childrenForall (l : list Node) : Prop :=
                  match l with
                  | [] => True
                  | c :: l' => nodeForall P c ∧ childrenForall l'
                  end) ch
               ∧ slotsForall rest
           end) slots_
  end.

(** The node has child nodes: some slot holds a node. *)
Definition hasChildNodes (n : Node) : Prop :=
  ∃ k ch, (k, ch) ∈ slots n ∧ ch ≠ [].

(** The node has a non-empty slot that its [children] property, a slot
    descriptor, points to. *)
Definition hasReferencedSlot (n : Node) : Prop :=
  ∃ k ch, props n !! "children" = Some (PSlot k)
          ∧ objGet k (slots n) = Some ch ∧ ch ≠ [].

Definition slotInvariant (n : Node) : Prop :=
  hasChildNodes n ↔ hasReferencedSlot n.

(** Every node that [rec] returns for one of [nodes] satisfies [Q]. *)
Definition recYields
    (rec : option ElementData → list nat → DomNode → Conv (option Node))
    (Q : Node → Prop) (nodes : list DomNode) : Prop :=
  Forall (λ c, ∀ parent path s r s',
            rec parent path c s = (Ret (Some r), s') → Q r) nodes.

Definition refYields (Q : Node → Prop) (r : ChildRef) : Prop :=
  match r with OwnNode n => Q n | WrapperRef => True end.

Definition headFails (p : ascii → bool) (s : string) : Prop :=
  match s with
  | EmptyString => True
  | String c _ => p c = false
  end.

(** ** Vocabulary of the further properties *)

Definition isHexDigit (c : ascii) : bool :=
  let n := nat_of_ascii c in
  bool_decide (48 ≤ n ≤ 57 ∨ 97 ≤ n ≤ 102)%nat.

(** One of [8], [9], [a], [b]. *)
Definition isVariantDigit (c : ascii) : bool :=
  let n := nat_of_ascii c in
  bool_decide (n = 56 ∨ n = 57 ∨ n = 97 ∨ n = 98)%nat.

(** [u] follows the template: a hexadecimal digit for every [x], one of
    [8], [9], [a], [b] for every [y], the character of the template
    anywhere else, and nothing more. *)
Fixpoint matchesTemplate (template u : string) : bool :=
  match template, u with
  | EmptyString, EmptyString => true
  | String t template', String c u' =>
      (if decide (t = "x"%char) then isHexDigit c
       else if decide (t = "y"%char) then isVariantDigit c
       else bool_decide (c = t))
      && matchesTemplate template' u'
  | _, _ => false
  end.

(** The number of [x] and [y] of a template. *)
Fixpoint placeholders (template : string) : nat :=
  match template with
  | EmptyString => 0
  | String t template' =>
      if decide (t = "x"%char) then S (placeholders template')
      else if decide (t = "y"%char) then S (placeholders template')
      else placeholders template'
  end.

Definition UUID_TEMPLATE : string := "xxxxxxxx-xxxx-4xxx-yxxx-xxxxxxxxxxxx".

(** The component kinds that the classifier can answer. *)
Definition COMPONENT_KINDS : list string :=
  ["header"; "link-container"; "link"; "video"; "section"; "text"; "button";
   "image"; "vstack"; "hstack"; "box"].

Definition isDot (c : ascii) : bool := bool_decide (c = "."%char).

(** The length of the run of dots that ends a string. *)
Definition trailingDots (s : string) : nat :=
  String.length s - String.length (Js.dropEndWhile isDot s).

Definition flagIsTrue (f : JsFlag) : bool :=
  match f with FlagBool true => true | _ => false end.

(** How many of the four kinds a link was found to be of. *)
Definition linkKinds (l : LinkInfo) : nat :=
  (if flagIsTrue (li_isExternal l) then 1 else 0)
  + (if flagIsTrue (li_isInternal l) then 1 else 0)
  + (if flagIsTrue (li_isEmail l) then 1 else 0)
  + (if flagIsTrue (li_isPhone l) then 1 else 0).

Definition anchorData (attributes_ : list (string * string)) : ElementData :=
  plainElement "A" attributes_ [] [].

(** The value that the tag alone gives to a style property, whatever the
    computed style: [display] of paragraphs and headings, [maxWidth] of
    images, the background of buttons. *)
Definition tagDefault (htmlTag k : string) : option StyleValue :=
  if decide (htmlTag = "p") then
    if decide (k = "display") then Some (SString "inline-block") else None
  else if bool_decide (htmlTag ∈ ["h1"; "h2"; "h3"; "h4"; "h5"; "h6"]) then
    if decide (k = "display") then Some (SString "block") else None
  else if decide (htmlTag = "img") then
    if decide (k = "maxWidth") then Some (SString "100%") else None
  else if decide (htmlTag = "button") then
    if decide (k = "backgroundColor") then Some (SString "transparent")
    else if decide (k = "backgroundImage") then Some (SString "none")
    else None
  else None.

(** What every emitted node is shaped like: a uid that follows the UUID
    template, empty tablet and mobile style maps, and neither [class] nor
    [style] among its attributes. *)
Definition uidShaped (n : Node) : Prop :=
  matchesTemplate UUID_TEMPLATE (uid n) = true.
Definition defaultBreakpointOnly (n : Node) : Prop :=
  rs_tablet (styles n) = ∅ ∧ rs_mobile (styles n) = ∅.
Definition noClassNoStyle (n : Node) : Prop :=
  attrs n !! "class" = None ∧ attrs n !! "style" = None.
Definition nodeShape (n : Node) : Prop :=
  uidShaped n ∧ defaultBreakpointOnly n ∧ noClassNoStyle n.

(** [j'] has the uid and the styles of [j], and the same [class] and
    [style] attributes. *)
Definition sameFrame (j j' : Node) : Prop :=
  uid j' = uid j ∧ styles j' = styles j
  ∧ attrs j' !! "class" = attrs j !! "class"
  ∧ attrs j' !! "style" = attrs j !! "style".

(** The conversion of [element] throws, wherever and whenever it is
    called. *)
Definition alwaysThrows (host : Host) (ms : list ComponentMapping)
    (element : DomNode) : Prop :=
  ∀ parent path s,
    ∃ err s', convertHTMLToComposableJSON host ms parent path element s
              = (Throw err, s').

(** The converter, called on the element, converts its child elements:
    it is no line break, no mapping applies to it and, unless it has a
    line break among its child nodes, it is neither an svg nor a media
    element. *)
Definition recursesInto (ms : list ComponentMapping) (e : ElementData)
    (childNodes : list DomNode) : Prop :=
  Js.toLowerCase (tagName e) ≠ "br"
  ∧ mappedComponent (findComponent ms (getAttribute "data-figma-id" e)) = None
  ∧ (existsb isBrNode childNodes = true
     ∨ (Js.toLowerCase (tagName e) ≠ "svg" ∧ tagName e ∉ MEDIA_TAGS)).

(** [target] is found below (or is) [root] along elements that the
    converter recurses into. *)
Inductive reaches (ms : list ComponentMapping) : DomNode → DomNode → Prop :=
| reaches_here target : reaches ms target target
| reaches_below e childNodes child target :
    recursesInto ms e childNodes →
    child ∈ childNodes →
    isElementNode child = true →
    isBrNode child = false →
    reaches ms child target →
    reaches ms (Element e childNodes) target.

(** [<video controls></video>] and [<div><p>intro</p><video controls></video></div>]. *)
Definition sourcelessVideoData : ElementData :=
  plainElement "VIDEO" [("controls", "")] [] [].
Definition sourcelessVideo : DomNode := Element sourcelessVideoData [].
Definition pageWithSourcelessVideo : DomNode :=
  Element (plainElement "DIV" [] [] [])
    [Element (plainElement "P" [] [] []) [TextNode "intro"]; sourcelessVideo].

(** [<div class="hero" style="color: red" id="top"><span class="x"></span></div>]. *)
Definition classyTree : DomNode :=
  Element (plainElement "DIV" [("class", "hero"); ("style", "color: red");
                               ("id", "top")] ["hero"] [])
    [Element (plainElement "SPAN" [("class", "x")] ["x"] []) []].

(** ** Export and delivery *)

(** [timestamp.replace(/[:.]/g, '-')]. *)
Definition dashColonsAndDots (s : string) : string :=
  Js.mapChars (λ c, if bool_decide (c = ":"%char) || bool_decide (c = "."%char)
                    then "-"%char else c) s.

(** The file name that [convertAndDownload] builds from the route of the
    page and [new Date().toISOString()]. *)
Definition exportFilename (location : option URL) (isoNow : string) : string :=
  getPageRoute location +:+ "-" +:+ dashColonsAndDots isoNow +:+ ".json".

(** The file name of the copy that [convertAndSendToStudio] downloads. *)
Definition studioFilename (location : option URL) (isoNow : string) : string :=
  getPageRoute location +:+ "-" +:+ dashColonsAndDots isoNow +:+ "-studio.json".

(** What leaves the page: a file offered for download, or a message
    posted to the parent window for a target origin. *)
Inductive Outgoing :=
| Download (filename : string) (data : Node)
| PostResponse (data : Node) (targetOrigin : string)
| PostError (error : string) (targetOrigin : string).

(** The page as a conversion finds it: the host, the [html] and [body]
    elements, the location and the clock. *)
Record Page := mkPage {
  pg_host : Host;
  pg_html : option ElementData;
  pg_body : option DomNode;
  pg_location : option URL;
  pg_now : string;
}.

(** The state of the script: that of the converter and the global
    [lastConversionResult]. *)
Record ScriptState := mkScriptState {
  conv : ConvState;
  lastConversionResult : option Node;
}.

(** [convertAndDownload(options)]: the result ([None] for [undefined],
    when the conversion has thrown and the error has been logged) and the
    download. [downloadJSON] is taken to succeed: it builds a blob and
    clicks a link, and depends on nothing the converter computes. *)
Definition convertAndDownload (page : Page) (ms : list ComponentMapping)
    (st : ScriptState) : option Node * list Outgoing * ScriptState :=
  match convertPageToJSON (pg_host page) ms (pg_html page) (pg_body page)
          (conv st) with
  | (Ret result, conv') =>
      (Some result,
       [Download (exportFilename (pg_location page) (pg_now page)) result],
       mkScriptState conv' (lastConversionResult st))
  | (Throw _, conv') => (None, [], mkScriptState conv' (lastConversionResult st))
  end.

(** [targetOrigin || '*']. *)
Definition orStar (targetOrigin : string) : string :=
  if Js.truthy targetOrigin then targetOrigin else "*".

(** [convertAndSendToStudio(options, targetOrigin)]: the result is kept
    in [lastConversionResult], offered for download and posted; a failure
    is posted as an error. The awaits of a conversion are all on settled
    promises, so that it runs to its end before any other message is
    handled. *)
Definition convertAndSendToStudio (page : Page) (ms : list ComponentMapping)
    (targetOrigin : string) (st : ScriptState)
    : option Node * list Outgoing * ScriptState :=
  match convertPageToJSON (pg_host page) ms (pg_html page) (pg_body page)
          (conv st) with
  | (Ret result, conv') =>
      (Some result,
       [Download (studioFilename (pg_location page) (pg_now page)) result;
        PostResponse result (orStar targetOrigin)],
       mkScriptState conv' (Some result))
  | (Throw err, conv') =>
      (None, [PostError err (orStar targetOrigin)],
       mkScriptState conv' (lastConversionResult st))
  end.

(** A message event: its origin and, of its data, the type and the
    component mappings of the options ([[]] when there are none). Data
    without a [type] field are data of another type, here any string but
    the request's. *)
Record MessageEvent := mkMessageEvent {
  ev_origin : string;
  ev_type : string;
  ev_mappings : list ComponentMapping;
}.

Definition STUDIO_ORIGINS : list string :=
  ["http://localhost:5174"; "http://localhost:5173"].

(** The listener that the script adds for [message] events. *)
Definition onMessage (page : Page) (event : MessageEvent) (st : ScriptState)
    : list Outgoing * ScriptState :=
  if bool_decide (ev_origin event ≠ "http://localhost:5174")
     && bool_decide (ev_origin event ≠ "http://localhost:5173")
  then ([], st)
  else if decide (ev_type event = "request-html-to-json") then
    match lastConversionResult st with
    | Some cached => ([PostResponse cached (ev_origin event)], st)
    | None =>
        let '(_, out, st') :=
          convertAndSendToStudio page (ev_mappings event) (ev_origin event) st in
        (out, st')
    end
  else ([], st).

(** The listener over a run of events, each finding the page in a state
    of its own. *)
Fixpoint onMessages (events : list (Page * MessageEvent)) (st : ScriptState)
    : list Outgoing * ScriptState :=
  match events with
  | [] => ([], st)
  | (page, event) :: rest =>
      let '(out, st1) := onMessage page event st in
      let '(outs, st2) := onMessages rest st1 in
      ((out ++ outs)%list, st2)
  end.

(** The origin that a posted message is meant for; a download has none. *)
Definition postTarget (o : Outgoing) : option string :=
  match o with
  | Download _ _ => None
  | PostResponse _ t => Some t
  | PostError _ t => Some t
  end.

Definition isRequest (event : MessageEvent) : bool :=
  bool_decide (ev_origin event ∈ STUDIO_ORIGINS)
  && bool_decide (ev_type event = "request-html-to-json").

(** How often a character occurs in a string. *)
Fixpoint countChar (c : ascii) (s : string) : nat :=
  match s with
  | EmptyString => 0
  | String d r => (if decide (d = c) then 1 else 0) + countChar c r
  end.

Definition samplePage (body : DomNode) : Page :=
  {| pg_host := sampleHost; pg_html := None; pg_body := Some body;
     pg_location := Some url_blog_post; pg_now := "2025-01-02T03:04:05.678Z" |}.

(** ** Navigation tracking *)

(** The two fields of a [NavigationTracker]. *)
Record Tracker := mkTracker {
  currentUrl : string;
  currentPathname : string;
}.

(** [handleNavigation()] when the location is [(newUrl, newPathname)]:
    the call of [onNavigationChange], if any, and the tracker after. *)
Definition handleNavigation (newUrl newPathname : string) (t : Tracker)
    : option (string * string) * Tracker :=
  if bool_decide (newUrl ≠ currentUrl t)
     || bool_decide (newPathname ≠ currentPathname t)
  then (Some (newUrl, newPathname), mkTracker newUrl newPathname)
  else (None, t).

(** The tracker over a run of navigation events, each with the location
    found then: the notifications in order and the tracker at the end. *)
Fixpoint handleNavigations (locations : list (string * string)) (t : Tracker)
    : list (string * string) * Tracker :=
  match locations with
  | [] => ([], t)
  | (url, pathname) :: rest =>
      let '(note, t1) := handleNavigation url pathname t in
      let '(notes, t2) := handleNavigations rest t1 in
      ((match note with Some n => [n] | None => [] end ++ notes)%list, t2)
  end.

(** No two neighbours of the list are equal. *)
Fixpoint noRepeats (previous : string * string) (l : list (string * string)) : Prop :=
  match l with
  | [] => True
  | x :: rest => x ≠ previous ∧ noRepeats x rest
  end.

(** * Properties *)

(** ** Strings *)

Lemma stringForall_app P (a b : string) :
  stringForall P a → stringForall P b → stringForall P (a +:+ b).
Proof. induction a as [|c a IH]; simpl; [done | intros [? ?] ?; auto]. Qed.

Lemma filterChars_forall keep s :
  stringForall (λ c, keep c = true) (Js.filterChars keep s).
Proof.
  induction s as [|c s IH]; simpl; [done |].
  destruct (keep c) eqn:K; simpl; auto.
Qed.

(** ** Route derivation *)

Lemma getPageRoute_alphabet (u : URL) :
  stringForall (λ c, isRouteChar c = true) (getPageRoute (Some u)).
Proof.
  unfold getPageRoute.
  match goal with |- context [Js.filterChars ?k ?x] =>
    pose proof (filterChars_forall k x) as F end.
  destruct (startsWithDigit _); [| exact F].
  apply (stringForall_app _ "page_"); [| exact F].
  vm_compute. tauto.
Qed.

Lemma getPageRoute_no_leading_digit (u : URL) :
  startsWithDigit (getPageRoute (Some u)) = false.
Proof.
  unfold getPageRoute.
  destruct (startsWithDigit (Js.filterChars _ _)) eqn:D; [reflexivity | exact D].
Qed.

(** C5 (as the code has it): the route of
    [https://example.com:8080/blog/post-1/] is [examplecom_8080_blogpost-1]
    and that of [https://example.com/] is [examplecom_root]. The
    special-character stripping runs over the whole route, host included,
    so that for every location the route is made of letters, digits,
    underscores and hyphens only, and it never starts with a digit. *)
Theorem getPageRoute_examples :
  getPageRoute (Some url_blog_post) = "examplecom_8080_blogpost-1"
  ∧ getPageRoute (Some url_root) = "examplecom_root"
  ∧ (∀ u, stringForall (λ c, isRouteChar c = true) (getPageRoute (Some u)))
  ∧ (∀ u, startsWithDigit (getPageRoute (Some u)) = false).
Proof.
  split; [vm_compute; reflexivity |].
  split; [vm_compute; reflexivity |].
  split; [apply getPageRoute_alphabet | apply getPageRoute_no_leading_digit].
Qed.

(** C5 as stated fails: neither example route keeps the dot of the host,
    and the first loses the slash inside the path instead of turning it
    into an underscore. *)
Lemma getPageRoute_spec_examples_fail :
  getPageRoute (Some url_blog_post) ≠ "example.com_8080_blog_post-1"
  ∧ getPageRoute (Some url_root) ≠ "example.com_root".
Proof. split; vm_compute; discriminate. Qed.

(** ** Inline declarations *)













(** ** Style resolution *)

Lemma objSet_keys {A} (k : string) (v : A) (obj : list (string * A)) (x : string) :
  x ∈ (objSet k v obj).*1 ↔ x = k ∨ x ∈ obj.*1.
Proof.
  induction obj as [|[k' v'] obj IH]; simpl.
  - rewrite list_elem_of_singleton. set_solver.
  - destruct (decide (k' = k)) as [->|NE]; simpl.
    + set_solver.
    + rewrite !elem_of_cons, IH. tauto.
Qed.

Lemma collectStep_keys mode whitelist cs ua ps out prop x :
  x ∈ (collectStep mode whitelist cs ua ps out prop).*1
  ↔ x ∈ out.*1 ∨ (x = prop ∧ kept mode whitelist cs ua ps prop = true).
Proof.
  unfold collectStep, kept.
  destruct (negb (Js.truthy _) || _ || _); simpl; [naive_solver |].
  destruct (includeProperty _ _ _ _ _); simpl; [| naive_solver].
  destruct (bool_decide (whitelist ≠ []) && _); simpl; [naive_solver |].
  rewrite objSet_keys. naive_solver.
Qed.

Lemma foldl_collectStep_keys mode whitelist cs ua ps props_ out x :
  x ∈ (foldl (collectStep mode whitelist cs ua ps) out props_).*1
  ↔ x ∈ out.*1 ∨ (x ∈ props_ ∧ kept mode whitelist cs ua ps x = true).
Proof.
  revert out. induction props_ as [|p props_ IH]; intros out; simpl.
  - set_solver.
  - rewrite IH, collectStep_keys, elem_of_cons. naive_solver.
Qed.

Lemma collectStyles_keys mode whitelist cs ua ps x :
  x ∈ (collectStyles mode whitelist cs ua ps).*1
  ↔ x ∈ cs.*1 ∧ kept mode whitelist cs ua ps x = true.
Proof.
  unfold collectStyles. rewrite foldl_collectStep_keys. set_solver.
Qed.

Lemma includeProperty_combined prop val ua ps :
  includeProperty "uaDiffPlusInherited" prop val ua ps
  = includeProperty "uaDiff" prop val ua ps
    || includeProperty "inheritedOnly" prop val ua ps.
Proof. reflexivity. Qed.

Lemma collectStyles_combined whitelist cs ua ps prop :
  prop ∈ (collectStyles "uaDiffPlusInherited" whitelist cs ua ps).*1
  ↔ prop ∈ (collectStyles "uaDiff" whitelist cs ua ps).*1
    ∨ prop ∈ (collectStyles "inheritedOnly" whitelist cs ua ps).*1.
Proof.
  rewrite !collectStyles_keys.
  unfold kept. rewrite includeProperty_combined.
  destruct (includeProperty "uaDiff" _ _ _ _),
    (includeProperty "inheritedOnly" _ _ _ _),
    (negb (negb _ || _ || _)), (negb (bool_decide (whitelist ≠ []) && _));
    simpl; naive_solver.
Qed.

Lemma foldl_camel_keys (l : list (string * string)) (m : gmap string string) k :
  is_Some (foldl (λ out kv, <[Js.camel kv.1 := kv.2]> out) m l !! k)
  ↔ is_Some (m !! k) ∨ ∃ p, p ∈ l.*1 ∧ Js.camel p = k.
Proof.
  revert m. induction l as [|[p v] l IH]; intros m; simpl.
  - split; [auto | intros [H | (p & Hp & _)]; [done | by apply elem_of_nil in Hp]].
  - rewrite IH, lookup_insert_is_Some. split.
    + intros [[<- | [_ H]] | (p' & Hp' & <-)].
      * right. exists p. split; [left | done].
      * by left.
      * right. exists p'. split; [by right | done].
    + intros [H | (p' & Hp' & <-)].
      * destruct (decide (Js.camel p = k)); [left; by left | left; right; done].
      * apply elem_of_cons in Hp' as [-> | Hp'].
        -- left. by left.
        -- right. by exists p'.
Qed.

Lemma stylesAgainst_keys e parent mode whitelist ua k :
  is_Some (stylesAgainst e parent mode whitelist ua !! k)
  ↔ (∃ p, p ∈ (collectStyles mode whitelist (computedStyle e) ua
                  (computedStyle <$> parent)).*1
          ∧ Js.camel p = k)
    ∨ (tagName e = "A" ∧ looksLikeButton (default "" (className e)) = true
       ∧ k = "display").
Proof.
  unfold stylesAgainst.
  set (out := foldl _ ∅ _).
  assert (Hout : ∀ k', is_Some (out !! k')
                       ↔ ∃ p, p ∈ (collectStyles mode whitelist (computedStyle e)
                                     ua (computedStyle <$> parent)).*1
                              ∧ Js.camel p = k').
  { intros k'. unfold out. rewrite foldl_camel_keys, lookup_empty.
    split; [intros [[? [=]] | H]; done | auto]. }
  destruct (decide (tagName e = "A")) as [Ha|Ha]; [| rewrite Hout; naive_solver].
  destruct (looksLikeButton _) eqn:Hb; simpl; [| rewrite Hout; naive_solver].
  destruct (Js.truthyOpt (out !! "display")) eqn:Hd; simpl.
  - rewrite <- Hout. split; [auto |]. intros [H | (_ & _ & ->)]; [done |].
    destruct (out !! "display"); [eauto | discriminate].
  - rewrite lookup_insert_is_Some, <- Hout. split.
    + intros [<- | [_ H]]; auto.
    + intros [H | (_ & _ & ->)]; [| by left].
      destruct (decide ("display" = k)); [by left | by right].
Qed.

(** C2: for every property, computed value, baseline and parent style,
    inclusion under [uaDiffPlusInherited] is the disjunction of inclusion
    under [uaDiff] and inclusion under [inheritedOnly]; hence, whatever
    the whitelist, a property is collected for an element under the
    combined mode exactly when it is collected under one of the two
    single modes, and the style map resolved against a baseline has a
    key under the combined mode exactly when it has that key under one
    of the two single modes. *)
Theorem uaDiffPlusInherited_is_or :
  (∀ prop val ua ps,
     includeProperty "uaDiffPlusInherited" prop val ua ps
     = includeProperty "uaDiff" prop val ua ps
       || includeProperty "inheritedOnly" prop val ua ps)
  ∧ (∀ whitelist cs ua ps prop,
       prop ∈ (collectStyles "uaDiffPlusInherited" whitelist cs ua ps).*1
       ↔ prop ∈ (collectStyles "uaDiff" whitelist cs ua ps).*1
         ∨ prop ∈ (collectStyles "inheritedOnly" whitelist cs ua ps).*1)
  ∧ (∀ e parent whitelist ua k,
       is_Some (stylesAgainst e parent "uaDiffPlusInherited" whitelist ua !! k)
       ↔ is_Some (stylesAgainst e parent "uaDiff" whitelist ua !! k)
         ∨ is_Some (stylesAgainst e parent "inheritedOnly" whitelist ua !! k)).
Proof.
  split; [apply includeProperty_combined |].
  split; [apply collectStyles_combined |].
  intros e parent whitelist ua k. rewrite !stylesAgainst_keys.
  split.
  - intros [(p & Hp & <-) | H]; [| by left; right].
    apply collectStyles_combined in Hp as [Hp | Hp];
      [left | right]; left; by exists p.
  - intros [[(p & Hp & <-) | H] | [(p & Hp & <-) | H]]; try (by right);
      left; exists p; (split; [| done]); apply collectStyles_combined; auto.
Qed.

(** ** Baseline failure *)

Lemma getElementResponsiveStyles_returns host e parent s :
  ∃ r s', getElementResponsiveStyles host e parent s = (Ret r, s').
Proof.
  unfold getElementResponsiveStyles, tryCatch, bind, ret.
  destruct (getAppliedStyles host e parent STYLE_MODE SUPPORTED_PROPS s)
    as [[a|err] s1]; eauto.
Qed.

Lemma getAppliedStyles_frameless host e parent mode whitelist s :
  newBaselineFrame host = None →
  baselineFrame s = None →
  ∃ err, getAppliedStyles host e parent mode whitelist s = (Throw err, s).
Proof.
  intros Hnew Hframe. unfold getAppliedStyles, bind, ensureBaselineFrame.
  rewrite Hframe, Hnew. eauto.
Qed.

(** C4 (as the code has it): when the offscreen baseline document cannot
    be built, [getAppliedStyles] throws and leaves the state as it was;
    [getElementResponsiveStyles] catches that and answers with empty
    default, tablet and mobile maps, so the element gets no style at all
    and the conversion goes on ([getElementResponsiveStyles] returns for
    every input). *)
Theorem baseline_failure_yields_empty_styles
    (host : Host) (e : ElementData) (parent : option ElementData)
    (s : ConvState) :
  newBaselineFrame host = None →
  baselineFrame s = None →
  (∀ mode whitelist,
     ∃ err, getAppliedStyles host e parent mode whitelist s = (Throw err, s))
  ∧ getElementResponsiveStyles host e parent s
    = (Ret (mkResponsiveStyles ∅ ∅ ∅), s)
  ∧ (∀ host' e' parent' s0,
       ∃ r s', getElementResponsiveStyles host' e' parent' s0 = (Ret r, s')).
Proof.
  intros Hnew Hframe. split; [| split].
  - intros mode whitelist. by apply getAppliedStyles_frameless.
  - unfold getElementResponsiveStyles, tryCatch, bind.
    destruct (getAppliedStyles_frameless host e parent STYLE_MODE
                SUPPORTED_PROPS s Hnew Hframe) as [err ->].
    reflexivity.
  - apply getElementResponsiveStyles_returns.
Qed.

(** ** The converter monad *)

Lemma bind_Ret_inv {A B} (m : Conv A) (k : A → Conv B) s b s' :
  bind m k s = (Ret b, s') →
  ∃ a s1, m s = (Ret a, s1) ∧ k a s1 = (Ret b, s').
Proof.
  unfold bind. destruct (m s) as [[a|err] s1]; [eauto | discriminate].
Qed.

Lemma generateUUID_returns host s :
  ∃ u s', generateUUID host s = (Ret u, s').
Proof.
  unfold generateUUID. destruct (fillTemplate _ _ _) as [u k]. eauto.
Qed.

(** Peels one layer off a hypothesis that says a computation of the
    converter has returned. *)
Ltac conv_step H :=
  lazymatch type of H with
  | bind _ _ _ = (Ret _, _) =>
      let a := fresh "a" in
      let s1 := fresh "s" in
      let E := fresh "E" in
      apply bind_Ret_inv in H as (a & s1 & E & H); cbv beta zeta in H
  | ret _ _ = _ => unfold ret in H; injection H as <- <-
  | throw _ _ = (Ret _, _) => discriminate H
  | (if ?c then _ else _) _ = _ => destruct c eqn:?
  | (let '(_, _) := ?r in _) _ = _ => destruct r
  | (match ?x with _ => _ end) _ = _ => destruct x eqn:?
  end.

(** ** Null results *)

Lemma convertUnmapped_some host rec path e childNodes cn m st ej s r s' :
  convertUnmapped host rec path e childNodes cn m st ej s = (Ret r, s') →
  is_Some r.
Proof.
  intros H. unfold convertUnmapped in H.
  repeat conv_step H; eauto.
Qed.

Lemma convertElement_some host ms rec parent path e childNodes s r s' :
  Js.toLowerCase (tagName e) ≠ "br" →
  convertElement host ms rec parent path e childNodes s = (Ret r, s') →
  is_Some r.
Proof.
  intros Hbr H. unfold convertElement in H.
  destruct (decide _); [done |].
  repeat conv_step H; eauto using convertUnmapped_some.
Qed.

Lemma lowerChar_b c : Js.lowerChar c = "b"%char ↔ c = "b"%char ∨ c = "B"%char.
Proof.
  destruct c as [[] [] [] [] [] [] [] []]; vm_compute;
    (split; [intros [=] | intros [[=] | [=]]]); auto.
Qed.

Lemma lowerChar_r c : Js.lowerChar c = "r"%char ↔ c = "r"%char ∨ c = "R"%char.
Proof.
  destruct c as [[] [] [] [] [] [] [] []]; vm_compute;
    (split; [intros [=] | intros [[=] | [=]]]); auto.
Qed.

(** The test on the tag name is blind to the case of the letters. *)
Lemma toLowerCase_br t :
  Js.toLowerCase t = "br" ↔ t ∈ ["br"; "Br"; "bR"; "BR"].
Proof.
  split.
  - destruct t as [|c1 [|c2 [|c3 t]]]; try discriminate.
    intros [= H1 H2]. apply lowerChar_b in H1. apply lowerChar_r in H2.
    destruct H1 as [-> | ->], H2 as [-> | ->]; set_solver.
  - intros H. repeat (apply elem_of_cons in H as [-> | H]; [reflexivity |]).
    by apply elem_of_nil in H.
Qed.

(** C9: [convertHTMLToComposableJSON] returns [null], without touching
    the state, for an element whose lower-cased tag name is [br]; and
    whenever it returns at all (no exception escapes), the result is
    [null] exactly when the lower-cased tag name is [br], that is when
    the tag name is [br] in some mix of upper and lower case. *)
Theorem convert_null_iff_br
    (host : Host) (ms : list ComponentMapping) (parent : option ElementData)
    (path : list nat) (e : ElementData) (childNodes : list DomNode)
    (s : ConvState) :
  (Js.toLowerCase (tagName e) = "br" →
   convertHTMLToComposableJSON host ms parent path (Element e childNodes) s
   = (Ret None, s))
  ∧ (∀ r s',
       convertHTMLToComposableJSON host ms parent path (Element e childNodes) s
       = (Ret r, s') →
       (r = None ↔ Js.toLowerCase (tagName e) = "br")
       ∧ (r = None ↔ tagName e ∈ ["br"; "Br"; "bR"; "BR"])).
Proof.
  split.
  - intros Hbr. cbn [convertHTMLToComposableJSON]. unfold convertElement.
    by destruct (decide _).
  - intros r s' H. rewrite <- toLowerCase_br.
    cut (r = None ↔ Js.toLowerCase (tagName e) = "br"); [tauto |].
    cbn [convertHTMLToComposableJSON] in H.
    destruct (decide (Js.toLowerCase (tagName e) = "br")) as [Hbr|Hbr].
    + unfold convertElement in H. destruct (decide _); [| done].
      unfold ret in H. by injection H as <- <-.
    + apply convertElement_some in H as [n ->]; [| done]. by split.
Qed.

Lemma convert_null_iff_br_witness :
  convertHTMLToComposableJSON sampleHost [] None []
    (Element (plainElement "Br" [] [] []) []) initialState
  = (Ret None, initialState).
Proof.
  apply (proj1 (convert_null_iff_br sampleHost [] None []
                  (plainElement "Br" [] [] []) [] initialState)).
  vm_compute. reflexivity.
Defined.

(** ** Slots and children *)

Lemma nodeForall_unfold P n :
  nodeForall P n
  ↔ P n ∧ Forall (λ kc, Forall (nodeForall P) kc.2) (slots n).
Proof.
  destruct n as [t u m a p sl st]. simpl. apply and_iff_compat_l.
  induction sl as [|[k ch] sl IH]; simpl.
  - split; [constructor | done].
  - rewrite Forall_cons, <- IH. apply and_iff_compat_r. simpl.
    induction ch as [|c ch IHc]; simpl.
    + split; [constructor | done].
    + by rewrite Forall_cons, <- IHc.
Qed.

Lemma slotInvariant_no_slots n : slots n = [] → slotInvariant n.
Proof.
  intros E. unfold slotInvariant, hasChildNodes, hasReferencedSlot.
  rewrite E. split.
  - intros (k & ch & Hin & _). by apply elem_of_nil in Hin.
  - intros (k & ch & _ & H & _). discriminate.
Qed.

Lemma nodeForall_no_slots n : slots n = [] → nodeForall slotInvariant n.
Proof.
  intros E. apply nodeForall_unfold. split; [by apply slotInvariant_no_slots |].
  rewrite E. constructor.
Qed.

Lemma attachChildren_slots uid_ ch ej :
  slots ej = [] →
  slots (attachChildren uid_ ch ej)
  = match ch with [] => [] | _ => [(uid_, ch)] end.
Proof. intros E. destruct ch; simpl; [done | by rewrite E]. Qed.

Lemma attachChildren_type uid_ ch ej :
  type (attachChildren uid_ ch ej) = type ej.
Proof. by destruct ch. Qed.

Lemma attachChildren_props_ne uid_ ch ej k :
  k ≠ "children" →
  props (attachChildren uid_ ch ej) !! k = props ej !! k.
Proof. intros NE. destruct ch; simpl; [done | by rewrite lookup_insert_ne]. Qed.

Lemma nodeForall_attachChildren uid_ ch ej :
  slots ej = [] →
  Forall (nodeForall slotInvariant) ch →
  nodeForall slotInvariant (attachChildren uid_ ch ej).
Proof.
  intros E Hch. destruct ch as [|c ch]; [by apply nodeForall_no_slots |].
  destruct ej as [t u m a p sl st]. simpl in E. subst sl.
  apply nodeForall_unfold. split.
  - unfold slotInvariant, hasChildNodes, hasReferencedSlot. simpl.
    split; intros _; exists uid_, (c :: ch).
    + rewrite lookup_insert_eq. destruct (decide (uid_ = uid_)); done.
    + split; [apply list_elem_of_singleton; done | done].
  - simpl. constructor; [exact Hch | constructor].
Qed.

(** *** What the handlers leave alone *)

Lemma handleTextNode_slots t j p : slots (handleTextNode t j p) = slots j.
Proof. unfold handleTextNode. by repeat case_match. Qed.

Lemma handleTextNode_type t j p : type (handleTextNode t j p) = type j.
Proof. unfold handleTextNode. by repeat case_match. Qed.

Lemma handleTextNode_props_ne t j p k :
  k ≠ "text" → props (handleTextNode t j p) !! k = props j !! k.
Proof.
  intros NE. unfold handleTextNode.
  repeat case_match; simpl; try done; by rewrite lookup_insert_ne.
Qed.

Lemma handleButtonElement_slots t j : slots (handleButtonElement t j) = slots j.
Proof. done. Qed.

Lemma handleButtonElement_props_ne t j k :
  k ≠ "label" → props (handleButtonElement t j) !! k = props j !! k.
Proof. intros NE. simpl. by rewrite lookup_insert_ne. Qed.

Lemma handleLinkElement_slots e cs j : slots (handleLinkElement e cs j) = slots j.
Proof. unfold handleLinkElement. by repeat case_match. Qed.

Lemma handleLinkElement_props_ne e cs j k :
  k ∉ ["href"; "label"; "target"; "rel"] →
  props (handleLinkElement e cs j) !! k = props j !! k.
Proof.
  intros NE. unfold handleLinkElement.
  repeat case_match; simpl; try done;
    rewrite ?lookup_insert_ne; try done; intros <-; set_solver.
Qed.

Lemma handleFormElement_other e j s :
  bool_decide (Js.toLowerCase (tagName e)
               ∈ ["input"; "textarea"; "select"; "form"]) = false →
  handleFormElement e j s = (Ret j, s).
Proof. intros Hno. unfold handleFormElement. by rewrite Hno. Qed.

Lemma handleFormElement_slots e j s j' s' :
  handleFormElement e j s = (Ret j', s') → slots j' = slots j.
Proof.
  unfold handleFormElement, bind. intros H.
  repeat case_match; unfold ret, throw in *; by simplify_eq.
Qed.

Lemma handleFormElement_props e j s j' s' :
  handleFormElement e j s = (Ret j', s') → props j' = props j.
Proof.
  unfold handleFormElement, bind. intros H.
  repeat case_match; unfold ret, throw in *; by simplify_eq.
Qed.

Lemma handleImageElement_slots host e j s j' s' :
  handleImageElement host e j s = (Ret j', s') → slots j' = slots j.
Proof.
  unfold handleImageElement. intros H.
  repeat case_match; unfold ret, throw in H; by simplify_eq.
Qed.

Lemma handleImageElement_props_ne host e j s j' s' k :
  k ∉ ["src"; "alt"] →
  handleImageElement host e j s = (Ret j', s') →
  props j' !! k = props j !! k.
Proof.
  unfold handleImageElement. intros NE H.
  repeat case_match; unfold ret, throw in H; simplify_eq; simpl; try done;
    rewrite !lookup_insert_ne; try done; intros <-; set_solver.
Qed.

Lemma handleVideoElement_slots e cs j s j' s' :
  handleVideoElement e cs j s = (Ret j', s') → slots j' = slots j.
Proof.
  unfold handleVideoElement. intros H.
  repeat case_match; unfold ret, throw in H; by simplify_eq.
Qed.

Lemma handleVideoElement_props e cs j s j' s' :
  handleVideoElement e cs j s = (Ret j', s') → props j' = props j.
Proof.
  unfold handleVideoElement. intros H.
  repeat case_match; unfold ret, throw in H; by simplify_eq.
Qed.

Lemma handleCustomComponents_slots j c :
  slots (handleCustomComponents j c) = slots j.
Proof. unfold handleCustomComponents. by repeat case_match. Qed.

Lemma handleCustomComponents_type j c :
  type (handleCustomComponents j c)
  = match c_codeComponentName c with
    | Some name => if Js.truthy name then name else type j
    | None => type j
    end.
Proof. unfold handleCustomComponents. by repeat case_match. Qed.

(** *** The two child loops *)

Lemma DomNode_nested_ind (P : DomNode → Prop) :
  (∀ data, P (TextNode data)) →
  (∀ name, P (OtherNode name)) →
  (∀ e childNodes, Forall P childNodes → P (Element e childNodes)) →
  ∀ n, P n.
Proof.
  intros HT HO HE. fix IH 1. intros [data|name|e childNodes].
  - apply HT.
  - apply HO.
  - apply HE. induction childNodes as [|c cs IHcs]; constructor.
    + apply IH.
    + exact IHcs.
Qed.

Lemma childLoop_inv rec e childNodes path Q nodes :
  recYields rec Q nodes →
  ∀ i ej ch s ej' ch' s',
    childLoop rec e childNodes path i nodes ej ch s = (Ret (ej', ch'), s') →
    Forall Q ch →
    Forall Q ch' ∧ slots ej' = slots ej ∧ type ej' = type ej
    ∧ (∀ k, k ≠ "text" → props ej' !! k = props ej !! k).
Proof.
  induction 1 as [|c nodes Hc Hnodes IH]; intros i ej ch s ej' ch' s' H Hch.
  - simpl in H. unfold ret in H. by simplify_eq.
  - simpl in H. destruct c as [data|name|e' cs'].
    + apply IH in H as (? & -> & -> & Hp); [| done].
      repeat split; [done | | |].
      * case_match; [apply handleTextNode_slots | done].
      * case_match; [apply handleTextNode_type | done].
      * intros k NE. rewrite Hp by done.
        case_match; [by apply handleTextNode_props_ne | done].
    + by apply IH in H.
    + apply bind_Ret_inv in H as (r & s1 & Hr & H). cbv beta in H.
      apply IH in H; [done |]. apply Forall_app. split; [done |].
      destruct r as [r|]; simpl; [| constructor].
      repeat constructor. by eapply Hc.
Qed.

Lemma childLoop_no_elements rec e childNodes path nodes :
  children nodes = [] →
  ∀ i ej ch s ej' ch' s',
    childLoop rec e childNodes path i nodes ej ch s = (Ret (ej', ch'), s') →
    ch' = ch.
Proof.
  induction nodes as [|c nodes IH]; intros Hno i ej ch s ej' ch' s' H.
  - simpl in H. unfold ret in H. by simplify_eq.
  - simpl in H. destruct c as [data|name|e' cs'].
    + by eapply IH.
    + by eapply IH.
    + unfold children in Hno. rewrite filter_cons_True in Hno by done.
      discriminate.
Qed.

Lemma brLoop_inv rec e childNodes path Q nodes :
  recYields rec Q nodes →
  ∀ i cj t refs s cj' t' refs' s',
    brLoop rec e childNodes path i nodes cj t refs s
    = (Ret (cj', t', refs'), s') →
    Forall (refYields Q) refs →
    Forall (refYields Q) refs' ∧ slots cj' = slots cj.
Proof.
  induction 1 as [|c nodes Hc Hnodes IH];
    intros i cj t refs s cj' t' refs' s' H Hrefs.
  - simpl in H. unfold ret in H. by simplify_eq.
  - simpl in H. destruct (isBrNode c); [by apply IH in H |].
    destruct c as [data|name|e' cs'].
    + apply IH in H as (? & ->).
      * split; [done | apply handleTextNode_slots].
      * case_match; [| done]. apply Forall_app. by repeat constructor.
    + by apply IH in H.
    + apply bind_Ret_inv in H as (r & s1 & Hr & H). cbv beta in H.
      apply IH in H; [done |]. apply Forall_app. split; [done |].
      destruct r as [r|]; simpl; [| constructor].
      repeat constructor. by eapply Hc.
Qed.

Lemma Forall_resolveRef Q cj refs :
  Q cj → Forall (refYields Q) refs → Forall Q (resolveRef cj <$> refs).
Proof.
  intros Hcj H. induction H as [|[n|] refs Hr _ IH]; simpl; constructor; done.
Qed.

Lemma convertUnmapped_invariant host rec path e childNodes cn m st ej s r s' :
  recYields rec (nodeForall slotInvariant) childNodes →
  slots ej = [] →
  convertUnmapped host rec path e childNodes cn m st ej s = (Ret (Some r), s') →
  nodeForall slotInvariant r.
Proof.
  intros Hrec Hej H. unfold convertUnmapped in H.
  conv_step H. conv_step H; [| conv_step H; [| conv_step H; [| conv_step H]]].
  - (* a div without child nodes *)
    repeat conv_step H; apply nodeForall_attachChildren; try done.
    case_match; repeat constructor. apply nodeForall_no_slots.
    by rewrite handleTextNode_slots.
  - (* the line-break branch *)
    conv_step H. conv_step H. destruct a1 as [[cj' t'] refs'].
    conv_step H.
    eapply brLoop_inv in E1 as [Hrefs Hcj]; [| done | constructor].
    apply nodeForall_attachChildren; [done |].
    apply Forall_resolveRef; [| done]. by apply nodeForall_no_slots.
  - (* a rich-text container *)
    conv_step H. by apply nodeForall_no_slots.
  - (* svg *)
    conv_step H. by apply nodeForall_no_slots.
  - apply bind_Ret_inv in H as (j3 & s3 & Hform & H). cbv beta zeta in H.
    apply handleFormElement_slots in Hform as Hs3.
    conv_step H.
    + (* media *)
      repeat conv_step H. apply nodeForall_no_slots.
      erewrite handleVideoElement_slots by done.
      erewrite handleImageElement_slots by done.
      rewrite Hs3.
      repeat case_match;
        rewrite ?handleLinkElement_slots, ?handleButtonElement_slots; done.
    + (* the default loop *)
      conv_step H. destruct a0 as [j6 ch]. conv_step H.
      eapply childLoop_inv in E0 as (Hch & Hs & _); [| done | constructor].
      apply nodeForall_attachChildren; [| done].
      rewrite Hs, Hs3.
      repeat case_match;
        rewrite ?handleLinkElement_slots, ?handleButtonElement_slots; done.
Qed.

Lemma convert_invariant host ms element :
  ∀ parent path s r s',
    convertHTMLToComposableJSON host ms parent path element s
    = (Ret (Some r), s') →
    nodeForall slotInvariant r.
Proof.
  induction element as [data|name|e childNodes IH] using DomNode_nested_ind;
    intros parent path s r s' H; [discriminate | discriminate |].
  cbn [convertHTMLToComposableJSON] in H. unfold convertElement in H.
  conv_step H; [discriminate |].
  conv_step H. conv_step H. conv_step H.
  - conv_step H. apply nodeForall_no_slots.
    by rewrite handleCustomComponents_slots.
  - by eapply convertUnmapped_invariant in H.
Qed.

Lemma convertUnmapped_leaf host rec path e childNodes cn m st ej s r s' :
  children childNodes = [] →
  existsb isBrNode childNodes = false →
  slots ej = [] →
  props ej !! "children" = None →
  convertUnmapped host rec path e childNodes cn m st ej s = (Ret (Some r), s') →
  slots r = [] ∧ props r !! "children" = None.
Proof.
  intros Hno Hbr Hej Hprop H. unfold convertUnmapped in H. rewrite Hbr in H.
  conv_step H. conv_step H; [| conv_step H; [| conv_step H; [| conv_step H]]].
  - exfalso. apply andb_prop in Heqb as [Hd Ht]. apply andb_prop in Hd as [_ Hd].
    apply bool_decide_eq_true in Hd. subst childNodes. discriminate.
  - discriminate.
  - conv_step H. simpl. by rewrite lookup_insert_ne.
  - conv_step H. simpl. by rewrite lookup_insert_ne.
  - apply bind_Ret_inv in H as (j3 & s3 & Hform & H). cbv beta zeta in H.
    assert (Hj3 : slots j3 = [] ∧ props j3 !! "children" = None).
    { rewrite (handleFormElement_slots _ _ _ _ _ Hform),
        (handleFormElement_props _ _ _ _ _ Hform).
      clear H Hform.
      repeat case_match;
        rewrite ?handleLinkElement_slots, ?handleButtonElement_slots,
          ?handleLinkElement_props_ne, ?handleButtonElement_props_ne;
        try done; set_solver. }
    destruct Hj3 as [Hs3 Hp3].
    conv_step H.
    + repeat conv_step H.
      erewrite handleVideoElement_slots, handleVideoElement_props by done.
      erewrite handleImageElement_slots, handleImageElement_props_ne;
        [done | set_solver | done | done].
    + conv_step H. destruct a0 as [j6 ch]. conv_step H.
      pose proof E0 as E1.
      eapply childLoop_no_elements in E1; [| done]. subst ch. simpl.
      eapply (childLoop_inv _ _ _ _ (λ _, True)) in E0
        as (_ & -> & _ & Hp); [| | constructor].
      * by rewrite Hp.
      * apply Forall_forall. done.
Qed.

(** C7: every node of an emitted tree has child nodes (a slot that holds
    a node) if and only if it has a non-empty slot that its [children]
    property, a slot descriptor, points to. In particular the conversion
    of an element without child elements that no mapping applies to and
    that has no line break among its child nodes yields a node with no
    slot and no [children] property. *)
Theorem emitted_nodes_children_iff_slot
    (host : Host) (ms : list ComponentMapping) (parent : option ElementData)
    (path : list nat) (element : DomNode) (s : ConvState)
    (r : Node) (s' : ConvState) :
  convertHTMLToComposableJSON host ms parent path element s
  = (Ret (Some r), s') →
  nodeForall slotInvariant r
  ∧ (∀ e childNodes,
       element = Element e childNodes →
       children childNodes = [] →
       existsb isBrNode childNodes = false →
       mappedComponent (findComponent ms (getAttribute "data-figma-id" e)) = None →
       slots r = [] ∧ props r !! "children" = None).
Proof.
  intros H. split; [by eapply convert_invariant |].
  intros e childNodes -> Hno Hbr Hmap.
  cbn [convertHTMLToComposableJSON] in H. unfold convertElement in H.
  conv_step H; [discriminate |].
  conv_step H. conv_step H. rewrite Hmap in H.
  by eapply convertUnmapped_leaf in H.
Qed.

Lemma emitted_nodes_children_iff_slot_witness :
  ∃ r s',
    convertHTMLToComposableJSON sampleHost [] None [] sampleTree initialState
    = (Ret (Some r), s')
    ∧ nodeForall slotInvariant r.
Proof.
  eexists _, _. split; [vm_compute; reflexivity |].
  refine (proj1 (emitted_nodes_children_iff_slot sampleHost [] None []
                   sampleTree initialState _ _ _)).
  vm_compute. reflexivity.
Defined.

(** ** Component mappings *)

Lemma visitMapping_no_match id component m :
  Forall (λ n, nodeId n ≠ id) (nodeIds m) →
  visitMapping (Some id) component m = component.
Proof.
  intros H. unfold visitMapping.
  destruct (List.find _ _) as [node|] eqn:E; [| done].
  apply find_some in E as [Hin Hm]. exfalso.
  apply list_elem_of_In in Hin. rewrite Forall_forall in H.
  apply (H _ Hin). unfold matchesFigmaId in Hm.
  apply bool_decide_eq_true in Hm. by injection Hm.
Qed.

Lemma find_first_match id before node after :
  nodeId node = id →
  Forall (λ n, nodeId n ≠ id) before →
  List.find (matchesFigmaId (Some id)) (before ++ node :: after) = Some node.
Proof.
  intros Hn. induction 1 as [|n before Hne _ IH]; simpl.
  - unfold matchesFigmaId. rewrite bool_decide_eq_true_2; [done | by rewrite Hn].
  - unfold matchesFigmaId at 1.
    rewrite bool_decide_eq_false_2 by (intros [=]; done). exact IH.
Qed.

(** The entry that wins is the last one of the list that matches, with
    the first matching id inside it. *)
Lemma findComponent_last_match id pre m post before node after :
  nodeIds m = (before ++ node :: after)%list →
  nodeId node = id →
  Forall (λ n, nodeId n ≠ id) before →
  Forall (λ m', Forall (λ n, nodeId n ≠ id) (nodeIds m')) post →
  findComponent (pre ++ m :: post) (Some id) = Some (componentOf m node).
Proof.
  intros Hm Hn Hbefore Hpost. unfold findComponent.
  rewrite foldl_app. simpl.
  unfold visitMapping at 2. rewrite Hm, find_first_match by done.
  clear Hm. induction Hpost as [|m' post Hm' _ IH]; simpl; [done |].
  by rewrite visitMapping_no_match.
Qed.

(** The conversion of an element that a mapping applies to: the result
    is [elementJSON] as first built, handed to [handleCustomComponents];
    the recursive call takes no part in it. *)
Lemma convertElement_mapped host ms parent path e childNodes c s :
  Js.toLowerCase (tagName e) ≠ "br" →
  mappedComponent (findComponent ms (getAttribute "data-figma-id" e)) = Some c →
  ∃ uid0 style_ s',
    ∀ rec,
      convertElement host ms rec parent path e childNodes s
      = (Ret (Some (handleCustomComponents
                      (initialElementJSON host path e childNodes uid0 style_) c)),
         s').
Proof.
  intros Hbr Hc.
  destruct (getElementResponsiveStyles_returns host e parent s) as (st & s1 & E1).
  destruct (generateUUID_returns host s1) as (u & s2 & E2).
  exists u, st, s2. intros rec. unfold convertElement.
  destruct (decide _); [done |].
  unfold bind. rewrite E1, E2, Hc. reflexivity.
Qed.

(** C1 (as the code has it): when several entries of the mapping list
    hold the correlation id of an element (a non-empty [data-figma-id]),
    the entry applied to the element is the last one in list order whose
    [nodeIds] holds the id, with the first matching id inside that entry:
    [handleCustomComponents] runs on the component made from them. *)
Theorem last_matching_mapping_applies
    (host : Host) (ms : list ComponentMapping) (parent : option ElementData)
    (path : list nat) (e : ElementData) (childNodes : list DomNode)
    (s : ConvState) (id : string)
    (pre : list ComponentMapping) (m : ComponentMapping)
    (post : list ComponentMapping)
    (before : list NodeIdEntry) (node : NodeIdEntry) (after : list NodeIdEntry) :
  Js.toLowerCase (tagName e) ≠ "br" →
  getAttribute "data-figma-id" e = Some id →
  Js.truthy id = true →
  ms = (pre ++ m :: post)%list →
  nodeIds m = (before ++ node :: after)%list →
  nodeId node = id →
  Forall (λ n, nodeId n ≠ id) before →
  Forall (λ m', Forall (λ n, nodeId n ≠ id) (nodeIds m')) post →
  findComponent ms (Some id) = Some (componentOf m node)
  ∧ ∃ uid0 style_ s',
      convertHTMLToComposableJSON host ms parent path (Element e childNodes) s
      = (Ret (Some (handleCustomComponents
                      (initialElementJSON host path e childNodes uid0 style_)
                      (componentOf m node))),
         s').
Proof.
  intros Hbr Hid Htruthy -> Hm Hn Hbefore Hpost.
  pose proof (findComponent_last_match id pre m post before node after
                Hm Hn Hbefore Hpost) as Hfind.
  split; [done |].
  destruct (convertElement_mapped host (pre ++ m :: post) parent path e
              childNodes (componentOf m node) s Hbr)
    as (uid0 & style_ & s' & H).
  - rewrite Hid, Hfind. simpl. by rewrite Hn, Htruthy.
  - exists uid0, style_, s'. apply H.
Qed.

Lemma last_matching_mapping_applies_witness :
  findComponent [mappingA; mappingB] (Some "1:2")
  = Some (componentOf mappingB (mkNodeIdEntry "1:2" None)).
Proof.
  refine (proj1 (last_matching_mapping_applies sampleHost [mappingA; mappingB]
                   None [] mappedDivData mappedDivChildNodes initialState "1:2"
                   [mappingA] mappingB [] [] (mkNodeIdEntry "1:2" None) []
                   _ _ _ _ _ _ _ _));
    try reflexivity; try constructor.
  vm_compute. discriminate.
Defined.

(** C1 as stated fails: with two entries that both hold the id, the first
    of them in list order does hold it, yet the component applied is made
    from the second, and the emitted node carries the second name. *)
Lemma first_matching_mapping_not_applied :
  List.find (matchesFigmaId (Some "1:2")) (nodeIds mappingA)
  = Some (mkNodeIdEntry "1:2" None)
  ∧ findComponent [mappingA; mappingB] (Some "1:2")
    ≠ Some (componentOf mappingA (mkNodeIdEntry "1:2" None))
  ∧ type <$> emitted (convertHTMLToComposableJSON sampleHost
                        [mappingA; mappingB] None [] mappedDiv initialState)
    = Some "Banner"
  ∧ (cm_codeComponentName <$>
       (emitted (convertHTMLToComposableJSON sampleHost
                   [mappingA; mappingB] None [] mappedDiv initialState)
        ≫= λ n, componentMapping (metadata n)))
    = Some (Some "Banner").
Proof.
  split; [reflexivity |]. split; [vm_compute; discriminate |].
  split; vm_compute; reflexivity.
Qed.

(** C3 (as the code has it): for an element with a non-empty correlation
    id that some mapping entry holds, the conversion returns a node whose
    type is the component name of the last matching entry when that name
    is not empty, and the classifier's type otherwise; the node has no
    slot, and the result is the same whatever the recursive call would
    do, that is the children are not converted. *)
Theorem mapped_element_is_terminal
    (host : Host) (ms : list ComponentMapping) (parent : option ElementData)
    (path : list nat) (e : ElementData) (childNodes : list DomNode)
    (s : ConvState) (id : string)
    (pre : list ComponentMapping) (m : ComponentMapping)
    (post : list ComponentMapping) (node : NodeIdEntry) :
  Js.toLowerCase (tagName e) ≠ "br" →
  getAttribute "data-figma-id" e = Some id →
  Js.truthy id = true →
  ms = (pre ++ m :: post)%list →
  List.find (matchesFigmaId (Some id)) (nodeIds m) = Some node →
  Forall (λ m', Forall (λ n, nodeId n ≠ id) (nodeIds m')) post →
  ∃ r s',
    convertHTMLToComposableJSON host ms parent path (Element e childNodes) s
    = (Ret (Some r), s')
    ∧ type r = match codeComponentName m with
               | Some name => if Js.truthy name then name
                              else getComponentName e childNodes
               | None => getComponentName e childNodes
               end
    ∧ slots r = []
    ∧ ∀ rec, convertElement host ms rec parent path e childNodes s
             = (Ret (Some r), s').
Proof.
  intros Hbr Hid Htruthy -> Hfind Hpost.
  assert (Hn : nodeId node = id).
  { apply find_some in Hfind as [_ Hm]. unfold matchesFigmaId in Hm.
    apply bool_decide_eq_true in Hm. by injection Hm. }
  assert (Hc : findComponent (pre ++ m :: post) (Some id)
               = Some (componentOf m node)).
  { unfold findComponent. rewrite foldl_app. simpl.
    unfold visitMapping at 2. rewrite Hfind.
    clear Hfind. induction Hpost as [|m' post Hm' _ IH]; simpl; [done |].
    by rewrite visitMapping_no_match. }
  destruct (convertElement_mapped host (pre ++ m :: post) parent path e
              childNodes (componentOf m node) s Hbr)
    as (uid0 & style_ & s' & H).
  - rewrite Hid, Hc. simpl. by rewrite Hn, Htruthy.
  - eexists _, s'. split; [apply H |].
    split; [by rewrite handleCustomComponents_type |].
    split; [by rewrite handleCustomComponents_slots | apply H].
Qed.

Lemma mapped_element_is_terminal_witness :
  ∃ r s',
    convertHTMLToComposableJSON sampleHost [mappingA; mappingB] None []
      (Element mappedDivData mappedDivChildNodes) initialState
    = (Ret (Some r), s')
    ∧ type r = "Banner"
    ∧ slots r = []
    ∧ ∀ rec, convertElement sampleHost [mappingA; mappingB] rec None []
               mappedDivData mappedDivChildNodes initialState
             = (Ret (Some r), s').
Proof.
  refine (mapped_element_is_terminal sampleHost [mappingA; mappingB]
            None [] mappedDivData mappedDivChildNodes initialState "1:2"
            [mappingA] mappingB [] (mkNodeIdEntry "1:2" None)
            _ _ _ _ _ _);
    try reflexivity; try constructor.
  vm_compute. discriminate.
Defined.

(** C3 as stated fails: the element's id is held by an entry named
    [Hero], yet the emitted type is [Banner], the name of a later entry
    that holds the id too; and an entry whose component name is empty
    leaves the classifier's type [box] in place. *)
Lemma mapped_type_not_that_of_every_matching_entry :
  List.find (matchesFigmaId (Some "1:2")) (nodeIds mappingA)
  = Some (mkNodeIdEntry "1:2" None)
  ∧ codeComponentName mappingA = Some "Hero"
  ∧ type <$> emitted (convertHTMLToComposableJSON sampleHost
                        [mappingA; mappingB] None [] mappedDiv initialState)
    ≠ Some "Hero"
  ∧ type <$> emitted (convertHTMLToComposableJSON sampleHost
                        [mappingNameless] None [] mappedDiv initialState)
    = Some "box".
Proof.
  split; [reflexivity |]. split; [reflexivity |].
  split; [vm_compute; discriminate | vm_compute; reflexivity].
Qed.

(** ** The line-break branch *)

Lemma getComponentName_not_rte e childNodes :
  getComponentName e childNodes ∉ HTML_RTE_COMPONENTS.
Proof.
  unfold getComponentName, HTML_RTE_COMPONENTS.
  repeat case_match; intros Hin;
    repeat (apply elem_of_cons in Hin as [Hin|Hin]; [discriminate |]);
    by apply elem_of_nil in Hin.
Qed.

Lemma brLoop_type rec e childNodes path nodes :
  ∀ i cj t refs s cj' t' refs' s',
    brLoop rec e childNodes path i nodes cj t refs s
    = (Ret (cj', t', refs'), s') →
    t' = if existsb isTextNode nodes then "box" else t.
Proof.
  induction nodes as [|c nodes IH]; intros i cj t refs s cj' t' refs' s' H.
  - simpl in H. unfold ret in H. by simplify_eq.
  - simpl in H. destruct c as [data|name|e' cs'].
    + change (isBrNode (TextNode data)) with false in H. cbv iota in H.
      apply IH in H. simpl. by destruct (existsb isTextNode nodes).
    + simpl. destruct (isBrNode (OtherNode name)); by apply IH in H.
    + simpl. destruct (isBrNode (Element e' cs')); [by apply IH in H |].
      apply bind_Ret_inv in H as (r & s1 & _ & H). by apply IH in H.
Qed.

(** C8 (as the code has it): for an element that is no line break, that
    no mapping applies to and that has a line break among its child
    nodes, the line-break branch runs (no classifier verdict is a
    rich-text kind), and when the conversion returns, the emitted type is
    [box] if the element has a text node among its child nodes and the
    classifier's verdict otherwise. *)
Theorem line_break_branch_type
    (host : Host) (ms : list ComponentMapping) (parent : option ElementData)
    (path : list nat) (e : ElementData) (childNodes : list DomNode)
    (s : ConvState) (r : Node) (s' : ConvState) :
  Js.toLowerCase (tagName e) ≠ "br" →
  mappedComponent (findComponent ms (getAttribute "data-figma-id" e)) = None →
  existsb isBrNode childNodes = true →
  convertHTMLToComposableJSON host ms parent path (Element e childNodes) s
  = (Ret (Some r), s') →
  type r = if existsb isTextNode childNodes then "box"
           else getComponentName e childNodes.
Proof.
  intros Hbr Hmap Hhas H.
  cbn [convertHTMLToComposableJSON] in H. unfold convertElement in H.
  conv_step H; [done |].
  conv_step H. conv_step H. rewrite Hmap in H.
  unfold convertUnmapped in H. rewrite Hhas in H.
  rewrite (bool_decide_eq_false_2 _ (getComponentName_not_rte e childNodes)) in H.
  conv_step H. conv_step H.
  - exfalso. apply andb_prop in Heqb as [Hd _]. apply andb_prop in Hd as [_ Hd].
    apply bool_decide_eq_true in Hd. subst childNodes. discriminate.
  - simpl in H. conv_step H. conv_step H. destruct a3 as [[cj' t'] refs'].
    conv_step H. rewrite attachChildren_type. simpl.
    match goal with
    | L : brLoop _ _ _ _ _ _ _ _ _ _ = _ |- _ => by apply brLoop_type in L
    end.
Qed.

Lemma line_break_branch_type_witness :
  ∃ r s',
    convertHTMLToComposableJSON sampleHost [] None []
      (Element (plainElement "P" [] [] [])
         [TextNode "Hello"; lineBreak; TextNode "World"]) initialState
    = (Ret (Some r), s')
    ∧ type r = "box".
Proof.
  eexists _, _. split; [vm_compute; reflexivity |].
  refine (line_break_branch_type sampleHost [] None []
            (plainElement "P" [] [] [])
            [TextNode "Hello"; lineBreak; TextNode "World"]
            initialState _ _ _ _ _ _).
  - vm_compute. discriminate.
  - reflexivity.
  - reflexivity.
  - vm_compute. reflexivity.
Defined.

(** C8 as stated fails: a paragraph whose only child node is a line break
    is no rich-text container and has a line break among its child nodes,
    and its emitted type is the classifier's [text], not [box]. *)
Lemma line_break_without_text_keeps_type :
  existsb isBrNode [lineBreak] = true
  ∧ (getComponentName (plainElement "P" [] [] []) [lineBreak]
     ∉ HTML_RTE_COMPONENTS)
  ∧ type <$> emitted (convertHTMLToComposableJSON sampleHost [] None []
                        breakOnlyParagraph initialState)
    = Some "text".
Proof.
  split; [reflexivity |]. split; [apply getComponentName_not_rte |].
  vm_compute. reflexivity.
Qed.

(** ** Text recovery *)

Lemma dropWhile_headFails p s : headFails p (Js.dropWhile p s).
Proof.
  induction s as [|c s IH]; simpl; [done |].
  destruct (p c) eqn:E; [done | exact E].
Qed.

Lemma dropWhile_id p s : headFails p s → Js.dropWhile p s = s.
Proof. destruct s as [|c s]; simpl; [done | by intros ->]. Qed.

Lemma dropEndWhile_headFails p s :
  headFails p s → headFails p (Js.dropEndWhile p s).
Proof.
  destruct s as [|c s]; simpl; [done |]. intros E.
  destruct (Js.dropEndWhile p s); [by rewrite E | done].
Qed.

Lemma dropEndWhile_idem p s :
  Js.dropEndWhile p (Js.dropEndWhile p s) = Js.dropEndWhile p s.
Proof.
  induction s as [|c s IH]; simpl; [done |].
  destruct (Js.dropEndWhile p s) as [|d r] eqn:E.
  - destruct (p c) eqn:Ec; simpl; [done | by rewrite Ec].
  - change (Js.dropEndWhile p (String c (String d r)))
      with (match Js.dropEndWhile p (String d r) with
            | EmptyString => if p c then EmptyString else String c EmptyString
            | r' => String c r'
            end).
    by rewrite IH.
Qed.

Lemma trim_idem s : Js.trim (Js.trim s) = Js.trim s.
Proof.
  unfold Js.trim. rewrite (dropWhile_id _ (Js.dropEndWhile _ _)).
  - apply dropEndWhile_idem.
  - apply dropEndWhile_headFails, dropWhile_headFails.
Qed.

Lemma stripTrailingDots_not_dots s : Js.stripTrailingDots s ≠ "...".
Proof.
  unfold Js.stripTrailingDots.
  set (isDot := λ c : ascii, bool_decide (c = "."%char)).
  destruct (decide _) as [Hlen|Hlen]; intros E.
  - pose proof (dropEndWhile_idem isDot s) as Hidem.
    rewrite E in Hidem. discriminate.
  - subst s. apply Hlen. vm_compute. lia.
Qed.

Lemma getFullTextContent_text e childNodes :
  Js.truthy (textContent (Element e childNodes)) = true →
  (getFullTextContent e childNodes).1
  = Js.trim (textContent (Element e childNodes)).
Proof.
  intros Ht. unfold getFullTextContent, orElse. rewrite Ht.
  by destruct (_ || _).
Qed.

(** The inline style is the same after [getFullTextContent] as before. *)
Lemma getFullTextContent_restores e childNodes :
  (getFullTextContent e childNodes).2 = style e.
Proof.
  unfold getFullTextContent. destruct (_ || _); simpl; [| done].
  by destruct (style e).
Qed.

Lemma handleTextNode_text t j :
  props (handleTextNode t j None) !! "text"
  = match textOf t with Some v => Some v | None => props j !! "text" end.
Proof.
  unfold handleTextNode, textOf.
  destruct (Js.truthy (Js.trim t)); [| done].
  destruct (_ || _); [done |]. simpl. apply lookup_insert_eq.
Qed.

Lemma textOf_trim t :
  textOf (Js.trim t)
  = if Js.truthy (Js.stripTrailingDots (Js.trim t))
    then Some (PString (Some (Js.stripTrailingDots (Js.trim t)))) else None.
Proof.
  unfold textOf. rewrite trim_idem.
  destruct (Js.truthy (Js.trim t)) eqn:Et.
  - rewrite (bool_decide_eq_false_2 _ (stripTrailingDots_not_dots _)). simpl.
    destruct (Js.stripTrailingDots (Js.trim t)); done.
  - destruct (Js.trim t); [done | discriminate].
Qed.

Lemma childLoop_text rec e childNodes path nodes :
  Js.toLowerCase (tagName e) ≠ "a" →
  ∀ i ej ch s ej' ch' s',
    childLoop rec e childNodes path i nodes ej ch s = (Ret (ej', ch'), s') →
    props ej' !! "text"
    = if existsb isTextNode nodes then
        match textOf (getFullTextContent e childNodes).1 with
        | Some v => Some v
        | None => props ej !! "text"
        end
      else props ej !! "text".
Proof.
  intros Ha. induction nodes as [|c nodes IH]; intros i ej ch s ej' ch' s' H.
  - simpl in H. unfold ret in H. by simplify_eq.
  - simpl in H. destruct c as [data|name|e' cs'].
    + apply IH in H. rewrite H. simpl.
      destruct (decide _); [| done]. rewrite handleTextNode_text.
      destruct (existsb isTextNode nodes), (textOf _); done.
    + by apply IH in H.
    + apply bind_Ret_inv in H as (r & s1 & _ & H). by apply IH in H.
Qed.

(** C6 (as the code has it): for an element (clamped or not) that is
    neither a line break, an anchor, an svg nor a media element, that no
    mapping applies to, that has a text node but no line break among its
    child nodes and whose text content is not empty, the emitted [text]
    property is the complete text content of the element, trimmed of the
    white space around it and then stripped of a trailing run of three or
    more dots, when that is not empty; when it is empty, no [text]
    property is emitted. *)
Theorem text_property_is_full_text
    (host : Host) (ms : list ComponentMapping) (parent : option ElementData)
    (path : list nat) (e : ElementData) (childNodes : list DomNode)
    (s : ConvState) (r : Node) (s' : ConvState) :
  Js.toLowerCase (tagName e) ∉ ["br"; "a"; "svg"] →
  tagName e ∉ MEDIA_TAGS →
  mappedComponent (findComponent ms (getAttribute "data-figma-id" e)) = None →
  existsb isBrNode childNodes = false →
  existsb isTextNode childNodes = true →
  Js.truthy (textContent (Element e childNodes)) = true →
  convertHTMLToComposableJSON host ms parent path (Element e childNodes) s
  = (Ret (Some r), s') →
  props r !! "text"
  = if Js.truthy (Js.stripTrailingDots
                    (Js.trim (textContent (Element e childNodes))))
    then Some (PString (Some (Js.stripTrailingDots
                                (Js.trim (textContent (Element e childNodes))))))
    else None.
Proof.
  intros Htag Hmedia Hmap Hbr Htext Htruthy H.
  assert (Hnbr : Js.toLowerCase (tagName e) ≠ "br") by set_solver.
  assert (Hna : Js.toLowerCase (tagName e) ≠ "a") by set_solver.
  assert (Hnsvg : Js.toLowerCase (tagName e) ≠ "svg") by set_solver.
  cbn [convertHTMLToComposableJSON] in H. unfold convertElement in H.
  conv_step H; [done |].
  conv_step H. conv_step H. rewrite Hmap in H.
  unfold convertUnmapped in H. rewrite Hbr in H.
  rewrite (bool_decide_eq_false_2 _ (getComponentName_not_rte e childNodes)) in H.
  rewrite (bool_decide_eq_false_2 _ Hmedia) in H.
  conv_step H. conv_step H.
  { exfalso. apply andb_prop in Heqb as [Hd _]. apply andb_prop in Hd as [_ Hd].
    apply bool_decide_eq_true in Hd. subst childNodes. discriminate. }
  simpl in H. destruct (decide (Js.toLowerCase (tagName e) = "svg")); [done |].
  destruct (decide (Js.toLowerCase (tagName e) = "a")); [done |].
  apply bind_Ret_inv in H as (j3 & s3 & Hform & H). cbv beta zeta in H.
  conv_step H. destruct a2 as [j6 ch]. conv_step H.
  rewrite attachChildren_props_ne by done.
  match goal with
  | L : childLoop _ _ _ _ _ _ _ _ _ = _ |- _ =>
      apply childLoop_text in L; [| done]; rewrite L
  end.
  rewrite Htext, getFullTextContent_text, textOf_trim by done.
  destruct (Js.truthy (Js.stripTrailingDots _)); [done |].
  rewrite (handleFormElement_props _ _ _ _ _ Hform).
  destruct (decide (Js.toLowerCase (tagName e) = "button"));
    [by rewrite handleButtonElement_props_ne | done].
Qed.

Lemma text_property_is_full_text_witness :
  ∃ r s',
    convertHTMLToComposableJSON sampleHost [] None []
      (Element (plainElement "P" [] ["line-clamp-3"] [("color", "red")])
         [TextNode "Lorem ipsum dolor sit amet consectetur..."]) initialState
    = (Ret (Some r), s')
    ∧ props r !! "text"
      = Some (PString (Some "Lorem ipsum dolor sit amet consectetur")).
Proof.
  eexists _, _. split; [vm_compute; reflexivity |].
  refine (text_property_is_full_text sampleHost [] None []
            (plainElement "P" [] ["line-clamp-3"] [("color", "red")])
            [TextNode "Lorem ipsum dolor sit amet consectetur..."]
            initialState _ _ _ _ _ _ _ _ _).
  - vm_compute. set_solver.
  - vm_compute. set_solver.
  - reflexivity.
  - reflexivity.
  - reflexivity.
  - reflexivity.
  - vm_compute. reflexivity.
Defined.

(** C6 as stated fails on three clamped paragraphs. With a line break
    inside, the paragraph gets no [text] and its one child node carries
    the whole text twice; with white space around the text, the property
    is the trimmed text, not the complete one; with dots only, there is
    no [text] property where the claim has the empty string. *)
Lemma clamped_text_not_always_full_text :
  (props <$> emitted (convertHTMLToComposableJSON sampleHost [] None []
                        clampedTwoLines initialState)) ≫= (.!! "text")
  = None
  ∧ childTexts <$> emitted (convertHTMLToComposableJSON sampleHost [] None []
                              clampedTwoLines initialState)
    = Some [Some (PString (Some "HelloWorld HelloWorld"))]
  ∧ Js.stripTrailingDots (textContent clampedTwoLines) = "HelloWorld"
  ∧ (props <$> emitted (convertHTMLToComposableJSON sampleHost [] None []
                          clampedPadded initialState)) ≫= (.!! "text")
    = Some (PString (Some "Hello"))
  ∧ Js.stripTrailingDots (textContent clampedPadded) = " Hello "
  ∧ (props <$> emitted (convertHTMLToComposableJSON sampleHost [] None []
                          clampedDots initialState)) ≫= (.!! "text")
    = None
  ∧ Js.stripTrailingDots (textContent clampedDots) = "".
Proof. repeat split; vm_compute; reflexivity. Qed.

Lemma baseline_failure_yields_empty_styles_witness :
  getElementResponsiveStyles framelessHost redParagraph None initialState
  = (Ret (mkResponsiveStyles ∅ ∅ ∅), initialState).
Proof.
  refine (proj1 (proj2 (baseline_failure_yields_empty_styles framelessHost
                          redParagraph None initialState _ _)));
    reflexivity.
Defined.

(** C4 as stated fails: on a page whose baseline document cannot be
    built, the style resolution of a red paragraph throws instead of
    going on with an empty snapshot, and the style map that the element
    ends up with has no colour, whereas resolving against an empty
    snapshot (every property non-default) keeps the colour. *)
Lemma baseline_failure_throws :
  returned (getAppliedStyles framelessHost redParagraph None STYLE_MODE
              SUPPORTED_PROPS initialState) = None
  ∧ (rs_default <$> returned (getElementResponsiveStyles framelessHost
                                redParagraph None initialState))
      ≫= (.!! "color")
    = None
  ∧ probe <$> newBaselineFrame sampleHost = Some (λ _, [])
  ∧ (rs_default <$> returned (getElementResponsiveStyles sampleHost
                                redParagraph None initialState))
      ≫= (.!! "color")
    = Some (SString "red").
Proof. repeat split; vm_compute; reflexivity. Qed.

(** * Further properties *)

(** ** UUIDs *)

Lemma hexDigit_code v :
  (v < 16)%nat →
  nat_of_ascii (hexDigit v) = if decide (v < 10)%nat then (48 + v)%nat else (87 + v)%nat.
Proof.
  intros Hv. unfold hexDigit.
  destruct (decide (v < 10)%nat); apply nat_ascii_embedding; lia.
Qed.

Lemma hexDigit_hex v : (v < 16)%nat → isHexDigit (hexDigit v) = true.
Proof.
  intros Hv. unfold isHexDigit. rewrite hexDigit_code by done.
  apply bool_decide_eq_true. destruct (decide _); lia.
Qed.

Lemma hexDigit_variant r : isVariantDigit (hexDigit (r mod 4 + 8)) = true.
Proof.
  pose proof (Nat.mod_upper_bound r 4 ltac:(lia)) as Hr.
  unfold isVariantDigit. rewrite hexDigit_code by lia.
  apply bool_decide_eq_true. destruct (decide _); lia.
Qed.

Lemma fillTemplate_shape rnd template k :
  matchesTemplate template (fillTemplate rnd k template).1 = true
  ∧ (fillTemplate rnd k template).2 = (k + placeholders template)%nat
  ∧ String.length (fillTemplate rnd k template).1 = String.length template.
Proof.
  revert k. induction template as [|t template IH]; intros k.
  - cbn. split; [done | split; [lia | done]].
  - cbn [fillTemplate placeholders].
    destruct (decide (t = "x"%char)) as [Hx|Hx];
      [| destruct (decide (t = "y"%char)) as [Hy|Hy]].
    + destruct (IH (S k)) as (Hm & Hk & Hl).
      destruct (fillTemplate rnd (S k) template) as [u k'] eqn:E.
      cbn [fst snd matchesTemplate String.length] in *.
      rewrite (decide_True _ _ Hx), Hm, hexDigit_hex
        by (apply Nat.mod_upper_bound; lia).
      split; [done | split; [lia | by rewrite Hl]].
    + destruct (IH (S k)) as (Hm & Hk & Hl).
      destruct (fillTemplate rnd (S k) template) as [u k'] eqn:E.
      cbn [fst snd matchesTemplate String.length] in *.
      rewrite (decide_False _ _ Hx), (decide_True _ _ Hy), Hm, hexDigit_variant.
      split; [done | split; [lia | by rewrite Hl]].
    + destruct (IH k) as (Hm & Hk & Hl).
      destruct (fillTemplate rnd k template) as [u k'] eqn:E.
      cbn [fst snd matchesTemplate String.length] in *.
      rewrite (decide_False _ _ Hx), (decide_False _ _ Hy), Hm,
        bool_decide_eq_true_2 by done.
      split; [done | split; [lia | by rewrite Hl]].
Qed.

(** X1: whatever the random source answers, [generateUUID] returns a
    string of 36 characters that follows the version-4 template (hyphens
    at their places, [4] as version, one of [8 9 a b] as variant, lower
    case hexadecimal digits elsewhere); it draws 31 random numbers and
    leaves the baseline frame and cache alone. *)
Theorem generateUUID_shape (host : Host) (s : ConvState) :
  ∃ u,
    generateUUID host s
    = (Ret u, mkConvState (draws s + 31) (baselineFrame s) (baselineCache s))
    ∧ matchesTemplate UUID_TEMPLATE u = true
    ∧ String.length u = 36%nat.
Proof.
  unfold generateUUID.
  destruct (fillTemplate_shape (random16 host) UUID_TEMPLATE (draws s))
    as (Hm & Hk & Hl).
  change "xxxxxxxx-xxxx-4xxx-yxxx-xxxxxxxxxxxx" with UUID_TEMPLATE.
  destruct (fillTemplate (random16 host) (draws s) UUID_TEMPLATE) as [u k].
  cbn [fst snd] in *. exists u. subst k. done.
Qed.

(** ** The classifier *)

(** X2: the classifier answers one of the eleven kinds [header],
    [link-container], [link], [video], [section], [text], [button],
    [image], [vstack], [hstack] and [box], never a rich-text kind, and
    each of the eleven is the answer for some element; the computed
    style of the element has a say for [div] only: two elements of the
    same tag other than [div] over the same child nodes get the same
    kind. *)
Theorem getComponentName_vocabulary (e : ElementData) (childNodes : list DomNode) :
  getComponentName e childNodes ∈ COMPONENT_KINDS
  ∧ (∀ e', tagName e' = tagName e →
           Js.toLowerCase (tagName e) ≠ "div" →
           getComponentName e' childNodes = getComponentName e childNodes)
  ∧ (∀ kind, kind ∈ COMPONENT_KINDS →
             ∃ e0 childNodes0, getComponentName e0 childNodes0 = kind)
  ∧ (getComponentName e childNodes ∉ HTML_RTE_COMPONENTS).
Proof.
  split; [| split; [| split]].
  - unfold getComponentName, COMPONENT_KINDS.
    repeat case_match; set_solver.
  - intros e' Htag Hdiv. unfold getComponentName. rewrite Htag.
    change (textContent (Element e' childNodes))
      with (textContent (Element e childNodes)).
    repeat (destruct (bool_decide _ ) || destruct (decide _)); try done.
  - intros kind Hkind. unfold COMPONENT_KINDS in Hkind.
    repeat (apply elem_of_cons in Hkind as [-> | Hkind]);
      [ exists (plainElement "H1" [] [] []), []
      | exists (plainElement "A" [] [] []),
               [Element (plainElement "SPAN" [] [] []) []]
      | exists (plainElement "A" [] [] []), []
      | exists (plainElement "VIDEO" [] [] []), []
      | exists (plainElement "SECTION" [] [] []), []
      | exists (plainElement "P" [] [] []), []
      | exists (plainElement "BUTTON" [] [] []), []
      | exists (plainElement "IMG" [] [] []), []
      | exists (plainElement "DIV" [] []
                  [("display", "flex"); ("flex-direction", "column")]), []
      | exists (plainElement "DIV" [] [] [("display", "flex")]), []
      | exists (plainElement "DIV" [] [] []), []
      | by apply elem_of_nil in Hkind ];
      vm_compute; reflexivity.
  - apply getComponentName_not_rte.
Qed.

Lemma getComponentName_vocabulary_witness :
  getComponentName (plainElement "P" [] [] [("display", "flex")]) []
  = getComponentName (plainElement "P" [] [] []) [].
Proof.
  apply (proj1 (proj2 (getComponentName_vocabulary (plainElement "P" [] [] []) []))).
  - reflexivity.
  - vm_compute. discriminate.
Defined.

(** ** Stored text *)

Lemma dropEndWhile_length p s :
  (String.length (Js.dropEndWhile p s) ≤ String.length s)%nat.
Proof.
  induction s as [|c s IH]; simpl; [lia |].
  destruct (Js.dropEndWhile p s); [destruct (p c) |]; simpl in *; lia.
Qed.

Lemma stripTrailingDots_fixed s :
  Js.stripTrailingDots s = s ↔ (trailingDots s < 3)%nat.
Proof.
  unfold Js.stripTrailingDots, trailingDots. fold isDot.
  pose proof (dropEndWhile_length isDot s) as Hlen.
  destruct (decide _) as [H|H]; split; try lia; try done.
  intros E. rewrite E in H. lia.
Qed.

Lemma stripTrailingDots_idem s :
  Js.stripTrailingDots (Js.stripTrailingDots s) = Js.stripTrailingDots s.
Proof.
  destruct (decide (trailingDots s < 3)%nat) as [H|H].
  - apply stripTrailingDots_fixed in H. by rewrite !H.
  - assert (E : Js.stripTrailingDots s = Js.dropEndWhile isDot s).
    { unfold Js.stripTrailingDots. fold isDot. unfold trailingDots in H.
      destruct (decide _); [done | lia]. }
    rewrite E. apply stripTrailingDots_fixed. unfold trailingDots.
    rewrite dropEndWhile_idem. lia.
Qed.

Lemma dropEndWhile_cons_keep p c s :
  p c = false → Js.dropEndWhile p (String c s) = String c (Js.dropEndWhile p s).
Proof. intros Hc. simpl. destruct (Js.dropEndWhile p s); by rewrite ?Hc. Qed.

Lemma dropEndWhile_app_keep p a c s :
  p c = false →
  Js.dropEndWhile p (a +:+ String c s) = a +:+ Js.dropEndWhile p (String c s).
Proof.
  intros Hc. induction a as [|d a IH]; [done |].
  change (String d a +:+ String c s) with (String d (a +:+ String c s)).
  change (Js.dropEndWhile p (String d (a +:+ String c s)))
    with (match Js.dropEndWhile p (a +:+ String c s) with
          | EmptyString => if p d then EmptyString else String d EmptyString
          | r' => String d r'
          end).
  rewrite IH, dropEndWhile_cons_keep by done.
  by destruct a.
Qed.

Lemma string_app_length (a b : string) :
  String.length (a +:+ b) = (String.length a + String.length b)%nat.
Proof. induction a as [|c a IH]; simpl; [done | by rewrite IH]. Qed.

Lemma trailingDots_after_space prev clean :
  trailingDots (prev +:+ " " +:+ clean) = trailingDots clean.
Proof.
  unfold trailingDots.
  change (" " +:+ clean) with (String " " clean).
  rewrite dropEndWhile_app_keep, dropEndWhile_cons_keep by done.
  rewrite !string_app_length. simpl. lia.
Qed.

(** X3: [handleTextNode] either hands the node back untouched or sets
    its [text] to a string that is not empty and does not end in three
    or more dots (stripping again changes nothing); a truthy previous
    value is kept in front, one space apart, and no other property is
    written. *)
Theorem handleTextNode_stored
    (textContent_ : string) (elementJSON : Node) (previousValue : option string) :
  handleTextNode textContent_ elementJSON previousValue = elementJSON
  ∨ ∃ stored,
      props (handleTextNode textContent_ elementJSON previousValue) !! "text"
      = Some (PString (Some stored))
      ∧ stored ≠ ""
      ∧ Js.stripTrailingDots stored = stored
      ∧ stored = (if Js.truthyOpt previousValue
                  then default "" previousValue +:+ " " +:+
                       Js.stripTrailingDots (Js.trim textContent_)
                  else Js.stripTrailingDots (Js.trim textContent_))
      ∧ ∀ k, k ≠ "text" →
             props (handleTextNode textContent_ elementJSON previousValue) !! k
             = props elementJSON !! k.
Proof.
  unfold handleTextNode.
  destruct (Js.truthy (Js.trim textContent_)); [| by left].
  set (clean := Js.stripTrailingDots (Js.trim textContent_)).
  destruct (bool_decide (clean = "...") || bool_decide (clean = "")) eqn:Hguard;
    [by left |].
  apply orb_false_elim in Hguard as [_ Hne].
  apply bool_decide_eq_false in Hne.
  assert (Hclean : Js.stripTrailingDots clean = clean)
    by apply stripTrailingDots_idem.
  right. eexists. split; [apply lookup_insert_eq |].
  destruct previousValue as [prev|]; simpl;
    [destruct (Js.truthy prev) eqn:Hprev |].
  - repeat split.
    + by destruct prev.
    + apply stripTrailingDots_fixed. rewrite trailingDots_after_space.
      by apply stripTrailingDots_fixed.
    + intros k NE. by rewrite lookup_insert_ne.
  - repeat split; [done | done |]. intros k NE. by rewrite lookup_insert_ne.
  - repeat split; [done | done |]. intros k NE. by rewrite lookup_insert_ne.
Qed.

Lemma handleTextNode_stored_witness :
  props (handleTextNode "World..."
           (mkNode "text" "" (mkMetadata (mkSourceMetadata "" "" "" "")
                                None None None None) ∅
              {["text" := PString (Some "Hello"); "label" := PRaw "1"]} []
              (mkResponsiveStyles ∅ ∅ ∅))
           (Some "Hello")) !! "label"
  = Some (PRaw "1").
Proof.
  destruct (handleTextNode_stored "World..."
              (mkNode "text" "" (mkMetadata (mkSourceMetadata "" "" "" "")
                                   None None None None) ∅
                 {["text" := PString (Some "Hello"); "label" := PRaw "1"]} []
                 (mkResponsiveStyles ∅ ∅ ∅))
              (Some "Hello")) as [E | (stored & _ & _ & _ & _ & H)].
  - vm_compute in E. discriminate E.
  - rewrite H; [vm_compute; reflexivity | discriminate].
Defined.

(** ** Attributes *)

Lemma foldl_attributes_lookup (l : list (string * string))
    (m : gmap string (option string)) k :
  foldl (λ attrs_ attr,
           if bool_decide (attr.1 ≠ "class") && bool_decide (attr.1 ≠ "style")
           then <[attr.1 := Some attr.2]> attrs_ else attrs_) m l !! k
  = if bool_decide (k ≠ "class") && bool_decide (k ≠ "style") then
      match objGet k (reverse l) with
      | Some v => Some (Some v)
      | None => m !! k
      end
    else m !! k.
Proof.
  revert m. induction l as [|[a v] l IH]; intros m; simpl.
  - by destruct (_ && _).
  - rewrite IH, reverse_cons.
    assert (Hget : ∀ (l' : list (string * string)),
              objGet k (l' ++ [(a, v)])
              = match objGet k l' with
                | Some x => Some x
                | None => if decide (a = k) then Some v else None
                end).
    { induction l' as [|[a' v'] l' IHl]; simpl; [done |].
      by destruct (decide (a' = k)). }
    rewrite Hget.
    destruct (bool_decide (k ≠ "class") && bool_decide (k ≠ "style")) eqn:Hk.
    + destruct (objGet k (reverse l)); [done |].
      destruct (decide (a = k)) as [->|NE].
      * rewrite Hk. apply lookup_insert_eq.
      * destruct (bool_decide (a ≠ "class") && bool_decide (a ≠ "style"));
          [by rewrite lookup_insert_ne | done].
    + destruct (bool_decide (a ≠ "class") && bool_decide (a ≠ "style")) eqn:Ha;
        [| done].
      rewrite lookup_insert_ne; [done |]. intros ->. congruence.
Qed.



(** ** Links *)

Lemma startsWith_head a p c h :
  Js.startsWith (String a p) (String c h) = true → c = a.
Proof.
  unfold Js.startsWith. simpl. by destruct (ascii_dec a c).
Qed.

Lemma hrefFlag_true href test :
  flagIsTrue (hrefFlag href test) = true →
  ∃ c h, href = Some (String c h) ∧ test (String c h) = true.
Proof.
  destruct href as [[|c h]|]; simpl; try discriminate.
  destruct (test (String c h)) eqn:E; [eauto | discriminate].
Qed.

(** X5: on an element whose tag name is not [A], [handleLinkElement]
    does nothing. On an anchor it sets [href] to the attribute as it is
    ([null] when missing) and [label] to the trimmed text content, and
    the link information tells at most one of external, internal, email
    and phone; with no [href] the four flags are [null]. *)
Theorem handleLinkElement_kinds
    (e : ElementData) (childNodes : list DomNode) (elementJSON : Node) :
  (tagName e ≠ "A" → handleLinkElement e childNodes elementJSON = elementJSON)
  ∧ (tagName e = "A" →
     ∃ info,
       linkInfo (metadata (handleLinkElement e childNodes elementJSON)) = Some info
       ∧ (linkKinds info ≤ 1)%nat
       ∧ (getAttribute "href" e = None →
          li_isExternal info = FlagNull ∧ li_isInternal info = FlagNull
          ∧ li_isEmail info = FlagNull ∧ li_isPhone info = FlagNull)
       ∧ props (handleLinkElement e childNodes elementJSON) !! "href"
         = Some (PString (getAttribute "href" e))
       ∧ props (handleLinkElement e childNodes elementJSON) !! "label"
         = Some (PString (Some (Js.trim (textContent (Element e childNodes)))))).
Proof.
  unfold handleLinkElement. split; intros Htag.
  - by destruct (decide _).
  - destruct (decide _) as [NE|_]; [done |]. eexists. split; [reflexivity |].
    split; [| split; [| split]].
    + unfold linkKinds. cbn [li_isExternal li_isInternal li_isEmail li_isPhone].
      destruct (flagIsTrue (hrefFlag _ (λ h, _ || _))) eqn:F1;
        destruct (flagIsTrue (hrefFlag _ (Js.startsWith "#"))) eqn:F2;
        destruct (flagIsTrue (hrefFlag _ (Js.startsWith "mailto:"))) eqn:F3;
        destruct (flagIsTrue (hrefFlag _ (Js.startsWith "tel:"))) eqn:F4;
        try (simpl; lia); exfalso;
        repeat match goal with
               | F : flagIsTrue _ = true |- _ =>
                   apply hrefFlag_true in F as (? & ? & ? & F)
               | F : _ || _ = true |- _ => apply orb_prop in F as [F | F]
               | F : Js.startsWith _ _ = true |- _ => apply startsWith_head in F
               end;
        congruence.
    + intros ->. done.
    + simpl. repeat case_match; simpl;
        rewrite ?lookup_insert_ne by done; apply lookup_insert_eq.
    + simpl. repeat case_match; simpl;
        rewrite ?lookup_insert_ne by done; apply lookup_insert_eq.
Qed.

Lemma handleLinkElement_kinds_witness :
  ∃ info,
    linkInfo (metadata (handleLinkElement (anchorData [("href", "mailto:a@b.com")])
                          [TextNode " Write "]
                          (initialElementJSON sampleHost []
                             (anchorData [("href", "mailto:a@b.com")])
                             [TextNode " Write "] "" (mkResponsiveStyles ∅ ∅ ∅))))
    = Some info
    ∧ li_isEmail info = FlagBool true
    ∧ (linkKinds info ≤ 1)%nat.
Proof.
  destruct (proj2 (handleLinkElement_kinds (anchorData [("href", "mailto:a@b.com")])
                     [TextNode " Write "]
                     (initialElementJSON sampleHost []
                        (anchorData [("href", "mailto:a@b.com")])
                        [TextNode " Write "] "" (mkResponsiveStyles ∅ ∅ ∅)))
              eq_refl) as (info & Hinfo & Hkinds & _).
  exists info. split; [exact Hinfo |]. split; [| exact Hkinds].
  vm_compute in Hinfo. injection Hinfo as <-. reflexivity.
Defined.

(** ** Resolved styles *)

Lemma objSet_entries {A} (k : string) (v : A) (obj : list (string * A)) x y :
  (x, y) ∈ objSet k v obj → (x = k ∧ y = v) ∨ (x, y) ∈ obj.
Proof.
  induction obj as [|[k' v'] obj IH]; simpl.
  - intros H. apply list_elem_of_singleton in H. left. by injection H.
  - destruct (decide (k' = k)) as [->|NE]; intros H.
    + apply elem_of_cons in H as [[= -> ->] | H]; [by left | right; by right].
    + apply elem_of_cons in H as [[= -> ->] | H]; [right; by left |].
      apply IH in H as [H | H]; [by left | right; by right].
Qed.

Lemma foldl_collectStep_entries mode whitelist cs ua ps props_ out x y :
  (x, y) ∈ foldl (collectStep mode whitelist cs ua ps) out props_ →
  (x, y) ∈ out
  ∨ (x ∈ props_ ∧ y = getPropertyValue x cs
     ∧ kept mode whitelist cs ua ps x = true).
Proof.
  revert out. induction props_ as [|p props_ IH]; intros out; simpl; [auto |].
  intros H. apply IH in H as [H | (Hin & Hy & Hk)].
  - unfold collectStep in H.
    destruct (negb (Js.truthy _) || _ || _) eqn:E1; [auto |].
    destruct (includeProperty _ _ _ _ _) eqn:E2; simpl in H; [| auto].
    destruct (bool_decide (whitelist ≠ []) && _) eqn:E3; [auto |].
    apply objSet_entries in H as [[-> ->] | H]; [| auto].
    right. split; [by left | split; [done |]].
    unfold kept. by rewrite E1, E2, E3.
  - right. split; [by right | done].
Qed.

Lemma foldl_camel_entries (l : list (string * string)) (m : gmap string string) k v :
  foldl (λ out kv, <[Js.camel kv.1 := kv.2]> out) m l !! k = Some v →
  m !! k = Some v ∨ ∃ p, (p, v) ∈ l ∧ Js.camel p = k.
Proof.
  revert m. induction l as [|[p w] l IH]; intros m; simpl; [auto |].
  intros H. apply IH in H as [H | (p' & Hin & <-)].
  - destruct (decide (Js.camel p = k)) as [<-|NE].
    + rewrite lookup_insert_eq in H. injection H as <-.
      right. exists p. split; [left | done].
    + rewrite lookup_insert_ne in H by done. by left.
  - right. exists p'. split; [by right | done].
Qed.

(** X6: whatever the mode, every entry of the style map resolved against
    a baseline is either the [inline-block] display given to an anchor,
    or stands for a property of the computed style under its camelCase
    name, with its computed value, which is neither empty nor [initial]
    nor [unset]; the property passed the test of the mode and, when the
    whitelist is not empty, belongs to it. *)
Theorem stylesAgainst_entries
    (e : ElementData) (parent : option ElementData) (mode : string)
    (whitelist : list string) (ua : list (string * string))
    (k v : string) :
  stylesAgainst e parent mode whitelist ua !! k = Some v →
  (tagName e = "A" ∧ k = "display" ∧ v = "inline-block")
  ∨ ∃ prop,
      prop ∈ (computedStyle e).*1
      ∧ k = Js.camel prop
      ∧ v = getPropertyValue prop (computedStyle e)
      ∧ (v ∉ [""; "initial"; "unset"])
      ∧ includeProperty mode prop v ua (computedStyle <$> parent) = true
      ∧ (whitelist ≠ [] → prop ∈ whitelist).
Proof.
  intros H.
  assert (Hout : ∀ out : gmap string string,
             out = foldl (λ out kv, <[Js.camel kv.1 := kv.2]> out) ∅
                     (collectStyles mode whitelist (computedStyle e) ua
                        (computedStyle <$> parent)) →
             out !! k = Some v →
             ∃ prop,
               prop ∈ (computedStyle e).*1
               ∧ k = Js.camel prop
               ∧ v = getPropertyValue prop (computedStyle e)
               ∧ (v ∉ [""; "initial"; "unset"])
               ∧ includeProperty mode prop v ua (computedStyle <$> parent) = true
               ∧ (whitelist ≠ [] → prop ∈ whitelist)).
  { intros out -> Hk.
    apply foldl_camel_entries in Hk as [Hk | (p & Hin & <-)];
      [by rewrite lookup_empty in Hk |].
    unfold collectStyles in Hin.
    apply foldl_collectStep_entries in Hin as [Hin | (Hin & -> & Hkept)];
      [by apply elem_of_nil in Hin |].
    exists p. unfold kept in Hkept.
    apply andb_prop in Hkept as [Hkept Hwl].
    apply andb_prop in Hkept as [Hval Hinc].
    apply negb_true_iff in Hval. apply orb_false_elim in Hval as [Hval Hunset].
    apply orb_false_elim in Hval as [Hempty Hinitial].
    apply negb_false_iff in Hempty.
    apply bool_decide_eq_false in Hinitial, Hunset.
    repeat split; try done.
    - intros Hv. repeat (apply elem_of_cons in Hv as [Hv | Hv]);
        [by rewrite Hv in Hempty | done | done | by apply elem_of_nil in Hv].
    - intros Hne. apply negb_true_iff in Hwl.
      apply andb_false_iff in Hwl as [Hwl | Hwl].
      + apply bool_decide_eq_false in Hwl. done.
      + apply negb_false_iff, bool_decide_eq_true in Hwl. done. }
  unfold stylesAgainst in H.
  destruct (decide (tagName e = "A")) as [Ha|Ha]; [| right; by eapply Hout].
  destruct (looksLikeButton _ && _); [| right; by eapply Hout].
  destruct (decide (k = "display")) as [->|NE].
  - rewrite lookup_insert_eq in H. injection H as <-. by left.
  - rewrite lookup_insert_ne in H by done. right. by eapply Hout.
Qed.

Lemma stylesAgainst_entries_witness :
  ∃ prop,
    prop ∈ [("font-size"); ("color"); ("margin-top")]
    ∧ "fontSize" = Js.camel prop
    ∧ "12px" = getPropertyValue prop
                 [("font-size", "12px"); ("color", "initial"); ("margin-top", "")].
Proof.
  destruct (stylesAgainst_entries
              (plainElement "P" [] []
                 [("font-size", "12px"); ("color", "initial"); ("margin-top", "")])
              None "all" [] [] "fontSize" "12px")
    as [(H & _) | (prop & H1 & H2 & H3 & _)].
  - vm_compute. reflexivity.
  - vm_compute in H. discriminate H.
  - exists prop. split; [exact H1 | split; [exact H2 | exact H3]].
Defined.

(** ** Baseline cache *)

(** X7: once [getAppliedStyles] has returned for an element, the
    baseline of its tag is in the cache and the result is the style map
    resolved against it; resolving any element of the same tag from
    there on uses that same baseline, changes nothing in the state and
    asks nothing of the page (it returns even on a page that could not
    build a baseline document). *)
Theorem getAppliedStyles_memoizes
    (host : Host) (e : ElementData) (parent : option ElementData)
    (mode : string) (whitelist : list string) (s : ConvState)
    (out : gmap string string) (s1 : ConvState) :
  getAppliedStyles host e parent mode whitelist s = (Ret out, s1) →
  ∃ ua,
    baselineCache s1 !! tagName e = Some ua
    ∧ out = stylesAgainst e parent mode whitelist ua
    ∧ ∀ host' e' parent' mode' whitelist',
        tagName e' = tagName e →
        getAppliedStyles host' e' parent' mode' whitelist' s1
        = (Ret (stylesAgainst e' parent' mode' whitelist' ua), s1).
Proof.
  intros H. unfold getAppliedStyles in H.
  apply bind_Ret_inv in H as (frame & s0 & Hframe & H).
  apply bind_Ret_inv in H as (ua & s2 & Hua & H).
  unfold ret in H. injection H as <- <-.
  assert (Hf : baselineFrame s2 = Some frame ∧ baselineCache s2 !! tagName e = Some ua).
  { unfold ensureBaselineFrame in Hframe. unfold getBaseline in Hua.
    destruct (baselineFrame s) as [f|] eqn:Ef.
    - injection Hframe as <- <-.
      destruct (baselineCache s !! tagName e) as [ua'|] eqn:Ec;
        injection Hua as <- <-; simpl; [done |].
      split; [done | apply lookup_insert_eq].
    - destruct (newBaselineFrame host) as [f|]; [| discriminate].
      injection Hframe as <- <-. simpl in Hua.
      rewrite lookup_empty in Hua. injection Hua as <- <-. simpl.
      split; [done | apply lookup_insert_eq]. }
  destruct Hf as [Hf Hc]. exists ua. split; [done | split; [done |]].
  intros host' e' parent' mode' whitelist' Htag.
  unfold getAppliedStyles, bind, ensureBaselineFrame, getBaseline.
  by rewrite Hf, Htag, Hc.
Qed.

Lemma getAppliedStyles_memoizes_witness :
  ∃ ua out s1,
    getAppliedStyles sampleHost redParagraph None "uaDiff" [] initialState
    = (Ret out, s1)
    ∧ getAppliedStyles framelessHost (plainElement "P" [] [] []) None "all" [] s1
      = (Ret (stylesAgainst (plainElement "P" [] [] []) None "all" [] ua), s1).
Proof.
  destruct (getAppliedStyles sampleHost redParagraph None "uaDiff" [] initialState)
    as [[out|err] s1] eqn:E.
  - destruct (getAppliedStyles_memoizes sampleHost redParagraph None "uaDiff" []
                initialState out s1 E) as (ua & _ & _ & H).
    exists ua, out, s1. split; [reflexivity |]. apply H. reflexivity.
  - exfalso. vm_compute in E. discriminate E.
Defined.

(** ** Precedence of the three style layers *)

Lemma handleAdditionalStyles_tagDefault e classes k v :
  tagDefault (Js.toLowerCase (tagName e)) k = Some v →
  rs_default (handleAdditionalStyles e classes) !! k = Some v.
Proof.
  unfold tagDefault, handleAdditionalStyles. intros H.
  set (additional0 := if bool_decide ("border" ∈ classes) then _ else _).
  destruct (decide (Js.toLowerCase (tagName e) = "p")) as [Hp|Hp].
  { destruct (decide (k = "display")) as [->|]; [| done]. injection H as <-.
    rewrite Hp. simpl. apply lookup_insert_eq. }
  destruct (bool_decide (Js.toLowerCase (tagName e) ∈ _)) eqn:Hh.
  { destruct (decide (k = "display")) as [->|]; [| done]. injection H as <-.
    simpl.
    destruct (decide (Js.toLowerCase (tagName e) = "img")) as [E|_];
      [rewrite E in Hh; vm_compute in Hh; discriminate Hh |].
    destruct (decide (Js.toLowerCase (tagName e) = "button")) as [E|_];
      [rewrite E in Hh; vm_compute in Hh; discriminate Hh |].
    destruct (decide (Js.toLowerCase (tagName e) = "div")) as [E|_];
      [rewrite E in Hh; vm_compute in Hh; discriminate Hh |].
    apply lookup_insert_eq. }
  destruct (decide (Js.toLowerCase (tagName e) = "img")) as [Hi|Hi].
  { destruct (decide (k = "maxWidth")) as [->|]; [| done]. injection H as <-.
    simpl. apply lookup_insert_eq. }
  destruct (decide (Js.toLowerCase (tagName e) = "button")) as [Hb|Hb]; [| done].
  simpl.
  destruct (decide (k = "backgroundColor")) as [->|];
    [| destruct (decide (k = "backgroundImage")) as [->|]; [| done]];
    injection H as <-;
    destruct (negb _); rewrite ?lookup_insert_ne by done;
    rewrite ?lookup_insert_eq; try done;
    rewrite lookup_insert_ne by done; apply lookup_insert_eq.
Qed.

(** X8: whenever [getElementResponsiveStyles] returns, the tablet and
    mobile maps are empty. If the baseline document is there or can be
    built, the default map gives an inline declaration of the element
    the last word, and for the properties that a tag fixes ([display] of
    paragraphs and headings, [maxWidth] of images, the background of
    buttons) it holds the inline declaration if there is one and the
    value of the tag otherwise, never the computed value. *)
Theorem getElementResponsiveStyles_layers
    (host : Host) (e : ElementData) (parent : option ElementData)
    (s : ConvState) (r : ResponsiveStyles) (s' : ConvState) :
  getElementResponsiveStyles host e parent s = (Ret r, s') →
  rs_tablet r = ∅ ∧ rs_mobile r = ∅
  ∧ (is_Some (baselineFrame s) ∨ is_Some (newBaselineFrame host) →
     (∀ k v, handleInlineStyles e !! k = Some v → rs_default r !! k = Some v)
     ∧ (∀ k v, tagDefault (Js.toLowerCase (tagName e)) k = Some v →
               rs_default r !! k = Some (default v (handleInlineStyles e !! k)))).
Proof.
  intros H. unfold getElementResponsiveStyles, tryCatch in H.
  destruct (bind _ _ s) as [[r0|err] s0] eqn:E.
  - injection H as <- <-.
    apply bind_Ret_inv in E as (st & s1 & Hst & E).
    unfold ret in E. injection E as <- <-. simpl.
    split; [done | split; [done |]]. intros _. split.
    + intros k v Hk. rewrite <- assoc_L by apply _.
      by apply lookup_union_Some_l.
    + intros k v Hk.
      apply (handleAdditionalStyles_tagDefault e (classList e)) in Hk.
      destruct (handleInlineStyles e !! k) as [w|] eqn:Hw; simpl.
      * rewrite <- assoc_L by apply _. by apply lookup_union_Some_l.
      * rewrite <- assoc_L by apply _. rewrite lookup_union_r by done.
        by apply lookup_union_Some_l.
  - unfold ret in H. injection H as <- <-. simpl.
    split; [done | split; [done |]]. intros Hframe. exfalso.
    unfold bind, getAppliedStyles, bind, ensureBaselineFrame in E.
    destruct (baselineFrame s) as [f|].
    + destruct (getBaseline f (tagName e) s) as [[ua|?] ?] eqn:Eb;
        [discriminate E |].
      unfold getBaseline in Eb. destruct (baselineCache s !! tagName e); discriminate Eb.
    + destruct (newBaselineFrame host) as [f|];
        [| destruct Hframe as [[? [=]] | [? [=]]]].
      destruct (getBaseline f (tagName e) _) as [[ua|?] ?] eqn:Eb;
        [discriminate E |].
      unfold getBaseline in Eb. simpl in Eb. rewrite lookup_empty in Eb.
      discriminate Eb.
Qed.

Lemma getElementResponsiveStyles_layers_witness :
  ∃ r s',
    getElementResponsiveStyles sampleHost
      (plainElement "P" [("style", "color: blue")] [] [("display", "flex")])
      None initialState = (Ret r, s')
    ∧ rs_default r !! "display" = Some (SString "inline-block")
    ∧ rs_default r !! "color" = Some (SString "blue").
Proof.
  destruct (getElementResponsiveStyles sampleHost
              (plainElement "P" [("style", "color: blue")] [] [("display", "flex")])
              None initialState) as [[r|err] s'] eqn:E.
  - exists r, s'. split; [reflexivity |].
    destruct (getElementResponsiveStyles_layers _ _ _ _ _ _ E) as (_ & _ & H).
    destruct H as [Hinline Htag]; [right; by eexists |].
    split.
    + apply (Htag "display" (SString "inline-block")). reflexivity.
    + apply Hinline. vm_compute. reflexivity.
  - exfalso. vm_compute in E. discriminate E.
Defined.

(** ** The shape of emitted nodes *)

Lemma nodeForall_impl (P Q : Node → Prop) :
  (∀ n, P n → Q n) → ∀ n, nodeForall P n → nodeForall Q n.
Proof.
  intros HPQ. fix IH 1. intros [t u m a p sl st]. simpl. intros [HP Hsl].
  split; [apply HPQ, HP |]. clear HP.
  induction sl as [|[k ch] sl IHsl]; [exact I |].
  destruct Hsl as [Hch Hsl]. split; [| apply IHsl, Hsl].
  clear IHsl Hsl. induction ch as [|c ch IHch]; [exact I |].
  destruct Hch as [Hc Hch]. split; [apply IH, Hc | apply IHch, Hch].
Qed.

Lemma nodeShape_sameFrame j j' : sameFrame j j' → nodeShape j → nodeShape j'.
Proof.
  intros (Hu & Hs & Hc & Hst) (H1 & [H2 H3] & [H4 H5]).
  unfold nodeShape, uidShaped, defaultBreakpointOnly, noClassNoStyle.
  by rewrite Hu, Hs, Hc, Hst.
Qed.

Lemma sameFrame_refl j : sameFrame j j.
Proof. done. Qed.

Lemma sameFrame_trans j1 j2 j3 :
  sameFrame j1 j2 → sameFrame j2 j3 → sameFrame j1 j3.
Proof.
  intros (A1 & A2 & A3 & A4) (B1 & B2 & B3 & B4).
  unfold sameFrame. by rewrite B1, B2, B3, B4.
Qed.

Lemma handleTextNode_frame t j p : sameFrame j (handleTextNode t j p).
Proof. unfold handleTextNode. by repeat case_match. Qed.

Lemma handleButtonElement_frame t j : sameFrame j (handleButtonElement t j).
Proof. done. Qed.

Lemma handleLinkElement_frame e cs j : sameFrame j (handleLinkElement e cs j).
Proof. unfold handleLinkElement. by repeat case_match. Qed.

Lemma handleFormElement_frame e j s j' s' :
  handleFormElement e j s = (Ret j', s') → sameFrame j j'.
Proof.
  unfold handleFormElement, bind. intros H.
  repeat case_match; unfold ret, throw in *; by simplify_eq.
Qed.

Lemma handleCustomComponents_frame j c : sameFrame j (handleCustomComponents j c).
Proof. unfold handleCustomComponents. by repeat case_match. Qed.

Lemma attachChildren_frame uid_ ch j : sameFrame j (attachChildren uid_ ch j).
Proof. by destruct ch. Qed.

Lemma handleImageElement_frame host e j s j' s' :
  handleImageElement host e j s = (Ret j', s') → sameFrame j j'.
Proof.
  unfold handleImageElement. intros H.
  repeat case_match; unfold ret, throw in H; by simplify_eq.
Qed.

Lemma handleVideoElement_frame e cs j s j' s' :
  handleVideoElement e cs j s = (Ret j', s') → sameFrame j j'.
Proof.
  unfold handleVideoElement. intros H.
  repeat case_match; unfold ret, throw in H; simplify_eq; try done.
  unfold sameFrame. simpl. by rewrite !lookup_insert_ne.
Qed.

Lemma childLoop_frame rec e childNodes path nodes :
  ∀ i ej ch s ej' ch' s',
    childLoop rec e childNodes path i nodes ej ch s = (Ret (ej', ch'), s') →
    sameFrame ej ej'.
Proof.
  induction nodes as [|c nodes IH]; intros i ej ch s ej' ch' s' H.
  - simpl in H. unfold ret in H. by simplify_eq.
  - simpl in H. destruct c as [data|name|e' cs'].
    + apply IH in H. eapply sameFrame_trans; [| exact H].
      case_match; [apply handleTextNode_frame | done].
    + by apply IH in H.
    + apply bind_Ret_inv in H as (r & s1 & _ & H). by apply IH in H.
Qed.

Lemma brLoop_frame rec e childNodes path nodes :
  ∀ i cj t refs s cj' t' refs' s',
    brLoop rec e childNodes path i nodes cj t refs s
    = (Ret (cj', t', refs'), s') →
    sameFrame cj cj'.
Proof.
  induction nodes as [|c nodes IH]; intros i cj t refs s cj' t' refs' s' H.
  - simpl in H. unfold ret in H. by simplify_eq.
  - simpl in H. destruct (isBrNode c); [by apply IH in H |].
    destruct c as [data|name|e' cs'].
    + apply IH in H. eapply sameFrame_trans; [| exact H].
      apply handleTextNode_frame.
    + by apply IH in H.
    + apply bind_Ret_inv in H as (r & s1 & _ & H). by apply IH in H.
Qed.

Lemma generateUUID_matches host s u s' :
  generateUUID host s = (Ret u, s') → matchesTemplate UUID_TEMPLATE u = true.
Proof.
  unfold generateUUID. intros H.
  pose proof (fillTemplate_shape (random16 host) UUID_TEMPLATE (draws s))
    as (Hm & _).
  change "xxxxxxxx-xxxx-4xxx-yxxx-xxxxxxxxxxxx" with UUID_TEMPLATE in H.
  destruct (fillTemplate _ _ _) as [u' k]. by simplify_eq.
Qed.

Lemma getElementResponsiveStyles_breakpoints host e parent s r s' :
  getElementResponsiveStyles host e parent s = (Ret r, s') →
  rs_tablet r = ∅ ∧ rs_mobile r = ∅.
Proof.
  unfold getElementResponsiveStyles, tryCatch, bind, ret. intros H.
  destruct (getAppliedStyles _ _ _ _ _ _) as [[?|?] ?]; by simplify_eq.
Qed.

Lemma nodeForall_attach P uid_ ch ej :
  slots ej = [] →
  P (attachChildren uid_ ch ej) →
  Forall (nodeForall P) ch →
  nodeForall P (attachChildren uid_ ch ej).
Proof.
  intros E HP Hch. apply nodeForall_unfold. split; [done |].
  rewrite attachChildren_slots by done.
  destruct ch; constructor; [done | constructor].
Qed.

Lemma nodeForall_leaf P n : slots n = [] → P n → nodeForall P n.
Proof.
  intros E HP. apply nodeForall_unfold. split; [done |]. rewrite E. constructor.
Qed.

Lemma convertUnmapped_shape host rec path e childNodes cn m st ej s r s' :
  recYields rec (nodeForall nodeShape) childNodes →
  slots ej = [] →
  nodeShape ej →
  rs_tablet st = ∅ ∧ rs_mobile st = ∅ →
  convertUnmapped host rec path e childNodes cn m st ej s = (Ret (Some r), s') →
  nodeForall nodeShape r.
Proof.
  intros Hrec Hej Hshape Hst H. unfold convertUnmapped in H.
  conv_step H.
  assert (Hchild : ∀ t cuid s1 s2,
             generateUUID host s1 = (Ret cuid, s2) →
             nodeShape (mkNode t cuid m ∅ ∅ [] st)).
  { intros t cuid s1 s2 Hu. split; [| split; [done | done]].
    by eapply generateUUID_matches. }
  conv_step H; [| conv_step H; [| conv_step H; [| conv_step H]]].
  - (* a div without child nodes *)
    conv_step H. conv_step H. apply nodeForall_attach; [done | |].
    + eapply nodeShape_sameFrame; [apply attachChildren_frame | done].
    + destruct (Js.truthy (Js.trim _)); repeat constructor.
      apply nodeForall_leaf.
      * by rewrite handleTextNode_slots.
      * eapply nodeShape_sameFrame; [apply handleTextNode_frame |].
        by eapply Hchild.
  - (* the line-break branch *)
    conv_step H. conv_step H. destruct a1 as [[cj' t'] refs'].
    conv_step H.
    match goal with
    | L : brLoop _ _ _ _ _ _ _ _ _ _ = _ |- _ =>
        pose proof (brLoop_frame _ _ _ _ _ _ _ _ _ _ _ _ _ _ L) as Hframe;
        eapply brLoop_inv in L as [Hrefs Hcj]; [| done | constructor]
    end.
    apply nodeForall_attach; [done | |].
    + eapply nodeShape_sameFrame; [apply attachChildren_frame | done].
    + apply Forall_resolveRef; [| done]. apply nodeForall_leaf; [done |].
      eapply nodeShape_sameFrame; [exact Hframe |]. by eapply Hchild.
  - (* a rich-text container *)
    conv_step H. by apply nodeForall_leaf.
  - (* svg *)
    conv_step H. by apply nodeForall_leaf.
  - apply bind_Ret_inv in H as (j3 & s3 & Hform & H). cbv beta zeta in H.
    assert (Hj3 : slots j3 = [] ∧ sameFrame ej j3).
    { rewrite (handleFormElement_slots _ _ _ _ _ Hform).
      apply handleFormElement_frame in Hform. clear H. split.
      - clear Hform. repeat case_match;
          rewrite ?handleLinkElement_slots, ?handleButtonElement_slots; done.
      - eapply sameFrame_trans; [| exact Hform]. clear Hform.
        repeat case_match;
          eauto using sameFrame_trans, handleLinkElement_frame,
            handleButtonElement_frame, sameFrame_refl. }
    destruct Hj3 as [Hs3 Hf3].
    conv_step H.
    + (* media *)
      conv_step H. conv_step H. conv_step H.
      match goal with
      | L1 : handleImageElement _ _ _ _ = _,
        L2 : handleVideoElement _ _ _ _ = _ |- _ =>
          pose proof (handleImageElement_frame _ _ _ _ _ _ L1);
          pose proof (handleVideoElement_frame _ _ _ _ _ _ L2);
          pose proof (handleImageElement_slots _ _ _ _ _ _ L1) as Hs1;
          pose proof (handleVideoElement_slots _ _ _ _ _ _ L2) as Hs2
      end.
      apply nodeForall_leaf; [by rewrite Hs2, Hs1 |].
      eapply nodeShape_sameFrame; [| exact Hshape].
      eauto using sameFrame_trans.
    + (* the default loop *)
      conv_step H. destruct a0 as [j6 ch]. conv_step H.
      match goal with
      | L : childLoop _ _ _ _ _ _ _ _ _ = _ |- _ =>
          pose proof (childLoop_frame _ _ _ _ _ _ _ _ _ _ _ _ L) as Hframe;
          eapply childLoop_inv in L as (Hch & Hs & _); [| done | constructor]
      end.
      apply nodeForall_attach; [by rewrite Hs | | done].
      eapply nodeShape_sameFrame; [| exact Hshape].
      eauto using sameFrame_trans, attachChildren_frame.
Qed.

Lemma convert_shape host ms element :
  ∀ parent path s r s',
    convertHTMLToComposableJSON host ms parent path element s
    = (Ret (Some r), s') →
    nodeForall nodeShape r.
Proof.
  induction element as [data|name|e childNodes IH] using DomNode_nested_ind;
    intros parent path s r s' H; [discriminate | discriminate |].
  cbn [convertHTMLToComposableJSON] in H. unfold convertElement in H.
  conv_step H; [discriminate |].
  conv_step H. conv_step H.
  assert (Hinit : nodeShape (initialElementJSON host path e childNodes a0 a)).
  { split; [by eapply generateUUID_matches |].
    split; [by eapply getElementResponsiveStyles_breakpoints |].
    unfold noClassNoStyle, initialElementJSON, getElementAttributes. simpl.
    by rewrite !foldl_attributes_lookup. }
  conv_step H.
  - conv_step H. apply nodeForall_leaf.
    + by rewrite handleCustomComponents_slots.
    + eapply nodeShape_sameFrame; [apply handleCustomComponents_frame | done].
  - eapply convertUnmapped_shape in H; try done.
    by eapply getElementResponsiveStyles_breakpoints.
Qed.

(** X9: every node of an emitted tree, the synthetic text children
    included, has a uid that follows the version-4 UUID template. *)
Theorem emitted_uids_shaped
    (host : Host) (ms : list ComponentMapping) (parent : option ElementData)
    (path : list nat) (element : DomNode) (s : ConvState)
    (r : Node) (s' : ConvState) :
  convertHTMLToComposableJSON host ms parent path element s
  = (Ret (Some r), s') →
  nodeForall uidShaped r.
Proof.
  intros H. apply convert_shape in H.
  revert H. apply nodeForall_impl. by intros n (? & _).
Qed.

Lemma emitted_uids_shaped_witness :
  ∃ r s',
    convertHTMLToComposableJSON sampleHost [] None [] sampleTree initialState
    = (Ret (Some r), s')
    ∧ nodeForall uidShaped r.
Proof.
  eexists _, _. split; [vm_compute; reflexivity |].
  refine (emitted_uids_shaped sampleHost [] None [] sampleTree initialState _ _ _).
  vm_compute. reflexivity.
Defined.

(** X10: every node of an emitted tree carries styles whose tablet and
    mobile maps are empty: only the default breakpoint is ever filled. *)
Theorem emitted_styles_default_only
    (host : Host) (ms : list ComponentMapping) (parent : option ElementData)
    (path : list nat) (element : DomNode) (s : ConvState)
    (r : Node) (s' : ConvState) :
  convertHTMLToComposableJSON host ms parent path element s
  = (Ret (Some r), s') →
  nodeForall defaultBreakpointOnly r.
Proof.
  intros H. apply convert_shape in H.
  revert H. apply nodeForall_impl. by intros n (_ & ? & _).
Qed.

Lemma emitted_styles_default_only_witness :
  ∃ r s',
    convertHTMLToComposableJSON sampleHost [] None [] sampleTree initialState
    = (Ret (Some r), s')
    ∧ nodeForall defaultBreakpointOnly r.
Proof.
  eexists _, _. split; [vm_compute; reflexivity |].
  refine (emitted_styles_default_only sampleHost [] None [] sampleTree
            initialState _ _ _).
  vm_compute. reflexivity.
Defined.

(** X11: no node of an emitted tree has a [class] or a [style] key among
    its attributes, whatever the attributes of the source elements and
    whatever a mapping or a video source adds. *)
Theorem emitted_attrs_without_class_and_style
    (host : Host) (ms : list ComponentMapping) (parent : option ElementData)
    (path : list nat) (element : DomNode) (s : ConvState)
    (r : Node) (s' : ConvState) :
  convertHTMLToComposableJSON host ms parent path element s
  = (Ret (Some r), s') →
  nodeForall noClassNoStyle r.
Proof.
  intros H. apply convert_shape in H.
  revert H. apply nodeForall_impl. by intros n (_ & _ & ?).
Qed.

Lemma emitted_attrs_without_class_and_style_witness :
  ∃ r s',
    convertHTMLToComposableJSON sampleHost [] None [] classyTree initialState
    = (Ret (Some r), s')
    ∧ nodeForall noClassNoStyle r.
Proof.
  eexists _, _. split; [vm_compute; reflexivity |].
  refine (emitted_attrs_without_class_and_style sampleHost [] None []
            classyTree initialState _ _ _).
  vm_compute. reflexivity.
Defined.

(** ** Branches that skip the handlers *)

(** X12: in the line-break branch none of the tag handlers runs: the
    emitted node of an element that no mapping applies to and that has a
    line break among its child nodes has no property but [children] (an
    anchor gets no [href] and no [label], a button no [label]), and its
    metadata has neither link, form nor media information. *)
Theorem line_break_branch_drops_handlers
    (host : Host) (ms : list ComponentMapping) (parent : option ElementData)
    (path : list nat) (e : ElementData) (childNodes : list DomNode)
    (s : ConvState) (r : Node) (s' : ConvState) :
  Js.toLowerCase (tagName e) ≠ "br" →
  mappedComponent (findComponent ms (getAttribute "data-figma-id" e)) = None →
  existsb isBrNode childNodes = true →
  convertHTMLToComposableJSON host ms parent path (Element e childNodes) s
  = (Ret (Some r), s') →
  (∀ k, k ≠ "children" → props r !! k = None)
  ∧ linkInfo (metadata r) = None
  ∧ formInfo (metadata r) = None
  ∧ mediaInfo (metadata r) = None.
Proof.
  intros Hbr Hmap Hhas H.
  cbn [convertHTMLToComposableJSON] in H. unfold convertElement in H.
  conv_step H; [done |].
  conv_step H. conv_step H. rewrite Hmap in H.
  unfold convertUnmapped in H. rewrite Hhas in H.
  rewrite (bool_decide_eq_false_2 _ (getComponentName_not_rte e childNodes)) in H.
  conv_step H. conv_step H.
  - exfalso. apply andb_prop in Heqb as [Hd _]. apply andb_prop in Hd as [_ Hd].
    apply bool_decide_eq_true in Hd. subst childNodes. discriminate.
  - simpl in H. conv_step H. conv_step H. destruct a3 as [[cj' t'] refs'].
    conv_step H. split.
    + intros k NE. rewrite attachChildren_props_ne by done. apply lookup_empty.
    + by destruct (resolveRef cj' <$> refs').
Qed.

Lemma line_break_branch_drops_handlers_witness :
  ∃ r s',
    convertHTMLToComposableJSON sampleHost [] None []
      (Element (anchorData [("href", "/contact")])
         [TextNode "Get in"; lineBreak; TextNode "touch"]) initialState
    = (Ret (Some r), s')
    ∧ props r !! "href" = None
    ∧ linkInfo (metadata r) = None.
Proof.
  destruct (convertHTMLToComposableJSON sampleHost [] None []
              (Element (anchorData [("href", "/contact")])
                 [TextNode "Get in"; lineBreak; TextNode "touch"]) initialState)
    as [[[r|]|err] s'] eqn:E;
    [| exfalso; vm_compute in E; discriminate E
     | exfalso; vm_compute in E; discriminate E].
  exists r, s'. split; [reflexivity |].
  pose proof (line_break_branch_drops_handlers sampleHost [] None []
                (anchorData [("href", "/contact")])
                [TextNode "Get in"; lineBreak; TextNode "touch"]
                initialState r s'
                ltac:(vm_compute; discriminate) eq_refl eq_refl E)
    as (Hp & Hl & _).
  split; [apply Hp; discriminate | exact Hl].
Defined.

Lemma childLoop_anchor rec e childNodes path nodes :
  Js.toLowerCase (tagName e) = "a" →
  ∀ i ej ch s ej' ch' s',
    childLoop rec e childNodes path i nodes ej ch s = (Ret (ej', ch'), s') →
    ej' = ej.
Proof.
  intros Ha. induction nodes as [|c nodes IH]; intros i ej ch s ej' ch' s' H.
  - simpl in H. unfold ret in H. by simplify_eq.
  - simpl in H. destruct c as [data|name|e' cs'].
    + apply IH in H. destruct (decide _); done.
    + by apply IH in H.
    + apply bind_Ret_inv in H as (r & s1 & _ & H). by apply IH in H.
Qed.

Lemma media_tag_lower e :
  tagName e ∈ MEDIA_TAGS → Js.toLowerCase (tagName e) ∈ ["img"; "video"].
Proof.
  unfold MEDIA_TAGS. intros H.
  repeat (apply elem_of_cons in H as [-> | H]; [set_solver |]).
  by apply elem_of_nil in H.
Qed.

(** X13: an anchor never gets a [text] property from its text nodes:
    for an element whose lower-cased tag name is [a], that no mapping
    applies to and that has no line break among its child nodes, the
    emitted node has no [text]; if the tag name is [A] it has the
    trimmed text content as [label] and the attribute as [href], and if
    it is [a] (an anchor outside HTML) it has neither. *)
Theorem anchor_text_goes_to_label
    (host : Host) (ms : list ComponentMapping) (parent : option ElementData)
    (path : list nat) (e : ElementData) (childNodes : list DomNode)
    (s : ConvState) (r : Node) (s' : ConvState) :
  Js.toLowerCase (tagName e) = "a" →
  mappedComponent (findComponent ms (getAttribute "data-figma-id" e)) = None →
  existsb isBrNode childNodes = false →
  convertHTMLToComposableJSON host ms parent path (Element e childNodes) s
  = (Ret (Some r), s') →
  props r !! "text" = None
  ∧ (tagName e = "A" →
     props r !! "label"
     = Some (PString (Some (Js.trim (textContent (Element e childNodes)))))
     ∧ props r !! "href" = Some (PString (getAttribute "href" e)))
  ∧ (tagName e ≠ "A" → props r !! "label" = None ∧ props r !! "href" = None).
Proof.
  intros Ha Hmap Hbr H.
  assert (Hmedia : tagName e ∉ MEDIA_TAGS).
  { intros Hm. apply media_tag_lower in Hm. rewrite Ha in Hm. set_solver. }
  cbn [convertHTMLToComposableJSON] in H. unfold convertElement in H.
  conv_step H; [congruence |].
  conv_step H. conv_step H. rewrite Hmap in H.
  unfold convertUnmapped in H. rewrite Hbr in H.
  rewrite (bool_decide_eq_false_2 _ (getComponentName_not_rte e childNodes)) in H.
  rewrite (bool_decide_eq_false_2 _ Hmedia) in H.
  conv_step H. conv_step H.
  { exfalso. apply andb_prop in Heqb as [Hd _]. apply andb_prop in Hd as [Hd _].
    apply bool_decide_eq_true in Hd. rewrite Ha in Hd. discriminate. }
  simpl in H.
  destruct (decide (Js.toLowerCase (tagName e) = "svg")) as [Hx|_];
    [congruence |].
  destruct (decide (Js.toLowerCase (tagName e) = "button")) as [Hx|_];
    [congruence |].
  destruct (decide (Js.toLowerCase (tagName e) = "a")) as [_|]; [| done].
  apply bind_Ret_inv in H as (j3 & s3 & Hform & H). cbv beta zeta in H.
  apply handleFormElement_props in Hform.
  conv_step H. destruct a2 as [j6 ch]. conv_step H.
  match goal with
  | L : childLoop _ _ _ _ _ _ _ _ _ = _ |- _ =>
      apply childLoop_anchor in L; [| done]; subst j6
  end.
  rewrite !attachChildren_props_ne by done.
  rewrite !Hform. clear Hform.
  split; [by rewrite handleLinkElement_props_ne by set_solver |].
  unfold handleLinkElement. split; intros Htag.
  - destruct (decide (tagName e ≠ "A")) as [|_]; [done |]. split.
    + simpl. repeat case_match; simpl;
        rewrite ?lookup_insert_ne by done; apply lookup_insert_eq.
    + simpl. repeat case_match; simpl;
        rewrite ?lookup_insert_ne by done; apply lookup_insert_eq.
  - by destruct (decide (tagName e ≠ "A")).
Qed.

Lemma anchor_text_goes_to_label_witness :
  ∃ r s',
    convertHTMLToComposableJSON sampleHost [] None []
      (Element (anchorData [("href", "/contact")]) [TextNode " Contact "])
      initialState
    = (Ret (Some r), s')
    ∧ props r !! "text" = None
    ∧ props r !! "label" = Some (PString (Some "Contact")).
Proof.
  destruct (convertHTMLToComposableJSON sampleHost [] None []
              (Element (anchorData [("href", "/contact")]) [TextNode " Contact "])
              initialState)
    as [[[r|]|err] s'] eqn:E;
    [| exfalso; vm_compute in E; discriminate E
     | exfalso; vm_compute in E; discriminate E].
  exists r, s'. split; [reflexivity |].
  pose proof (anchor_text_goes_to_label sampleHost [] None []
                (anchorData [("href", "/contact")]) [TextNode " Contact "]
                initialState r s' eq_refl eq_refl eq_refl E)
    as (Ht & Hl & _).
  split; [exact Ht |]. exact (proj1 (Hl eq_refl)).
Defined.

(** ** Terminal elements *)

(** X14: svg and media elements are terminal. For an element that no
    mapping applies to, that has no line break among its child nodes and
    that is an svg or has the tag name [IMG] or [VIDEO], the conversion is
    the same whatever the recursive call does (the children are never
    converted), and a node it returns has no slot; for an svg the only
    property is [src], the data URI of its markup. *)
Theorem svg_and_media_are_terminal
    (host : Host) (ms : list ComponentMapping) (parent : option ElementData)
    (path : list nat) (e : ElementData) (childNodes : list DomNode)
    (s : ConvState) :
  mappedComponent (findComponent ms (getAttribute "data-figma-id" e)) = None →
  existsb isBrNode childNodes = false →
  Js.toLowerCase (tagName e) = "svg" ∨ tagName e ∈ MEDIA_TAGS →
  (∀ rec rec',
     convertElement host ms rec parent path e childNodes s
     = convertElement host ms rec' parent path e childNodes s)
  ∧ (∀ r s',
       convertHTMLToComposableJSON host ms parent path (Element e childNodes) s
       = (Ret (Some r), s') →
       slots r = []
       ∧ (Js.toLowerCase (tagName e) = "svg" →
          props r = {["src" := PImageUrl (convertSVGToBase64 host e)]})).
Proof.
  intros Hmap Hbr Hkind.
  assert (Hdiv : Js.toLowerCase (tagName e) ≠ "div").
  { intros Hd. destruct Hkind as [E | Hm]; [congruence |].
    apply media_tag_lower in Hm. rewrite Hd in Hm.
    repeat (apply elem_of_cons in Hm as [Hm | Hm]; [discriminate |]).
    by apply elem_of_nil in Hm. }
  assert (Hcond : bool_decide (Js.toLowerCase (tagName e) = "div")
                  && bool_decide (childNodes = [])
                  && Js.truthy (textContent (Element e childNodes)) = false).
  { by rewrite bool_decide_eq_false_2. }
  split.
  - intros rec rec'. unfold convertElement.
    destruct (decide _); [done |]. unfold bind.
    destruct (getElementResponsiveStyles _ _ _ _) as [[st|?] s1]; [| done].
    destruct (generateUUID host s1) as [[u|?] s2]; [| done].
    rewrite Hmap. unfold convertUnmapped, bind.
    destruct (generateUUID host s2) as [[u'|?] s3]; [| done].
    rewrite Hbr, Hcond. simpl.
    rewrite (bool_decide_eq_false_2 _ (getComponentName_not_rte e childNodes)).
    simpl. destruct (decide (Js.toLowerCase (tagName e) = "svg")) as [|Hsvg];
      [done |].
    destruct Hkind as [? | Hm]; [done |].
    by rewrite (bool_decide_eq_true_2 _ Hm).
  - intros r s' H.
    cbn [convertHTMLToComposableJSON] in H. unfold convertElement in H.
    conv_step H; [discriminate |].
    conv_step H. conv_step H. rewrite Hmap in H.
    unfold convertUnmapped in H. rewrite Hbr, Hcond in H.
    rewrite (bool_decide_eq_false_2 _ (getComponentName_not_rte e childNodes)) in H.
    conv_step H. simpl in H.
    destruct (decide (Js.toLowerCase (tagName e) = "svg")) as [Hsvg|Hsvg].
    + conv_step H. split; [done |]. intros _. simpl.
      by rewrite insert_empty.
    + destruct Hkind as [? | Hm]; [done |].
      rewrite (bool_decide_eq_true_2 _ Hm) in H.
      apply bind_Ret_inv in H as (j3 & s3 & Hform & H). cbv beta zeta in H.
      apply handleFormElement_slots in Hform.
      conv_step H. conv_step H. conv_step H. split; [| done].
      erewrite handleVideoElement_slots by done.
      erewrite handleImageElement_slots by done.
      rewrite Hform. clear Hform.
      repeat case_match;
        rewrite ?handleLinkElement_slots, ?handleButtonElement_slots; done.
Qed.

Lemma svg_and_media_are_terminal_witness :
  ∃ r s',
    convertHTMLToComposableJSON sampleHost [] None []
      (Element (plainElement "svg" [] [] [])
         [Element (plainElement "path" [] [] []) []]) initialState
    = (Ret (Some r), s')
    ∧ slots r = [].
Proof.
  eexists _, _. split; [vm_compute; reflexivity |].
  refine (proj1 (proj2 (svg_and_media_are_terminal sampleHost [] None []
                          (plainElement "svg" [] [] [])
                          [Element (plainElement "path" [] [] []) []]
                          initialState _ _ _) _ _ _)).
  - reflexivity.
  - reflexivity.
  - left. reflexivity.
  - vm_compute. reflexivity.
Defined.

(** ** Exceptions *)

Lemma video_without_source_throws
    (host : Host) (ms : list ComponentMapping)
    (e : ElementData) (childNodes : list DomNode) :
  tagName e = "VIDEO" →
  getSourceElements (Element e childNodes) = [] →
  mappedComponent (findComponent ms (getAttribute "data-figma-id" e)) = None →
  existsb isBrNode childNodes = false →
  alwaysThrows host ms (Element e childNodes).
Proof.
  intros Htag Hsrc Hmap Hbr parent path s.
  cbn [convertHTMLToComposableJSON]. unfold convertElement.
  rewrite Htag. change (Js.toLowerCase "VIDEO") with "video".
  destruct (decide ("video" = "br")); [discriminate |]. unfold bind.
  destruct (getElementResponsiveStyles_returns host e parent s) as (st & s1 & ->).
  destruct (generateUUID_returns host s1) as (u & s2 & ->).
  rewrite Hmap. unfold convertUnmapped, bind.
  destruct (generateUUID_returns host s2) as (u' & s3 & ->).
  rewrite Hbr, Htag. change (Js.toLowerCase "VIDEO") with "video".
  rewrite (bool_decide_eq_false_2 ("video" = "div")) by discriminate.
  rewrite (bool_decide_eq_false_2 _ (getComponentName_not_rte e childNodes)).
  simpl andb. cbv iota.
  destruct (decide ("video" = "svg")); [discriminate |].
  destruct (decide ("video" = "button")); [discriminate |].
  destruct (decide ("video" = "a")); [discriminate |].
  rewrite (bool_decide_eq_true_2 ("VIDEO" ∈ MEDIA_TAGS)) by set_solver.
  cbv beta iota delta [andb].
  rewrite handleFormElement_other by (by rewrite Htag).
  unfold handleImageElement, handleVideoElement. rewrite Htag, Hsrc.
  destruct (decide ("VIDEO" ≠ "IMG")) as [_|Hn];
    [| exfalso; apply Hn; discriminate].
  unfold ret at 1. destruct (decide ("VIDEO" ≠ "VIDEO")); [done |].
  unfold throw. eauto.
Qed.


(** X15: a video element without any [source] element below it, that no
    mapping applies to and that has no line break among its child nodes,
    makes the converter throw, in every state and wherever the element
    sits. *)
Theorem sourceless_video_throws
    (host : Host) (ms : list ComponentMapping)
    (e : ElementData) (childNodes : list DomNode) :
  tagName e = "VIDEO" →
  getSourceElements (Element e childNodes) = [] →
  mappedComponent (findComponent ms (getAttribute "data-figma-id" e)) = None →
  existsb isBrNode childNodes = false →
  alwaysThrows host ms (Element e childNodes).
Proof. apply video_without_source_throws. Qed.

Lemma sourceless_video_throws_witness :
  ∃ err s',
    convertHTMLToComposableJSON sampleHost [] None [] sourcelessVideo initialState
    = (Throw err, s').
Proof.
  apply (sourceless_video_throws sampleHost [] sourcelessVideoData []);
    reflexivity.
Defined.

Lemma childLoop_throws rec e childNodes path child nodes :
  child ∈ nodes →
  isElementNode child = true →
  (∀ parent path' s, ∃ err s', rec parent path' child s = (Throw err, s')) →
  ∀ i ej ch s, ∃ err s',
    childLoop rec e childNodes path i nodes ej ch s = (Throw err, s').
Proof.
  intros Hin Hel Hthrow. induction nodes as [|c nodes IH]; intros i ej ch s.
  - by apply elem_of_nil in Hin.
  - simpl. apply elem_of_cons in Hin as [<- | Hin].
    + destruct child as [| |e' cs']; try discriminate. unfold bind.
      destruct (Hthrow (Some e) (path ++ [i])%list s) as (err & s' & ->). eauto.
    + destruct c as [data|name|e' cs']; try by apply IH.
      unfold bind.
      destruct (rec (Some e) (path ++ [i])%list (Element e' cs') s)
        as [[r|err] s1]; [by apply IH | eauto].
Qed.

Lemma brLoop_throws rec e childNodes path child nodes :
  child ∈ nodes →
  isElementNode child = true →
  isBrNode child = false →
  (∀ parent path' s, ∃ err s', rec parent path' child s = (Throw err, s')) →
  ∀ i cj t refs s, ∃ err s',
    brLoop rec e childNodes path i nodes cj t refs s = (Throw err, s').
Proof.
  intros Hin Hel Hnbr Hthrow.
  induction nodes as [|c nodes IH]; intros i cj t refs s.
  - by apply elem_of_nil in Hin.
  - simpl. apply elem_of_cons in Hin as [<- | Hin].
    + rewrite Hnbr. destruct child as [| |e' cs']; try discriminate. unfold bind.
      destruct (Hthrow (Some e) (path ++ [i])%list s) as (err & s' & ->). eauto.
    + destruct (isBrNode c); [by apply IH |].
      destruct c as [data|name|e' cs']; try by apply IH.
      unfold bind.
      destruct (rec (Some e) (path ++ [i])%list (Element e' cs') s)
        as [[r|err] s1]; [by apply IH | eauto].
Qed.

Lemma convertElement_throws host ms rec e childNodes child :
  recursesInto ms e childNodes →
  child ∈ childNodes →
  isElementNode child = true →
  isBrNode child = false →
  (∀ parent path' s, ∃ err s', rec parent path' child s = (Throw err, s')) →
  ∀ parent path s, ∃ err s',
    convertElement host ms rec parent path e childNodes s = (Throw err, s').
Proof.
  intros (Hbr & Hmap & Hkind) Hin Hel Hnbr Hthrow parent path s.
  unfold convertElement. destruct (decide _); [done |]. unfold bind.
  destruct (getElementResponsiveStyles_returns host e parent s) as (st & s1 & ->).
  destruct (generateUUID_returns host s1) as (u & s2 & ->).
  rewrite Hmap. unfold convertUnmapped, bind.
  destruct (generateUUID_returns host s2) as (u' & s3 & ->).
  assert (Hne : bool_decide (childNodes = []) = false).
  { apply bool_decide_eq_false. intros ->. by apply elem_of_nil in Hin. }
  rewrite Hne, andb_false_r. cbn [andb].
  rewrite (bool_decide_eq_false_2 _ (getComponentName_not_rte e childNodes)).
  cbn [negb andb]. rewrite andb_true_r.
  destruct (existsb isBrNode childNodes) eqn:Hhas.
  - destruct (generateUUID_returns host s3) as (u'' & s4 & ->).
    edestruct (brLoop_throws rec e childNodes path child childNodes Hin Hel
                 Hnbr Hthrow) as (err & s' & ->). eauto.
  - destruct Hkind as [? | [Hsvg Hmedia]]; [done |].
    destruct (decide (Js.toLowerCase (tagName e) = "svg")); [done |].
    rewrite (bool_decide_eq_false_2 _ Hmedia).
    destruct (handleFormElement e _ s3) as [[j3|err3] s4]; [| eauto].
    edestruct (childLoop_throws rec e childNodes path child childNodes Hin Hel
                 Hthrow) as (err & s' & ->). eauto.
Qed.

(** X16: exceptions are not absorbed on the way up. If the conversion of
    some node always throws, so does the conversion of every element from
    which that node is reached through elements that the converter
    recurses into (no line breaks, no mapped elements and, where there is
    no line break among the child nodes, no svg or media elements), and
    [convertPageToJSON] throws on such a body. *)
Theorem exceptions_reach_the_top
    (host : Host) (ms : list ComponentMapping) (root target : DomNode) :
  reaches ms root target →
  alwaysThrows host ms target →
  alwaysThrows host ms root
  ∧ ∀ html s, ∃ err s',
      convertPageToJSON host ms html (Some root) s = (Throw err, s').
Proof.
  intros Hreach Htarget.
  assert (Hroot : alwaysThrows host ms root).
  { induction Hreach as [|e childNodes child target Hrec Hin Hel Hnbr _ IH];
      [done |].
    intros parent path s. cbn [convertHTMLToComposableJSON].
    eapply convertElement_throws; try done. apply IH, Htarget. }
  split; [done |]. intros html s. unfold convertPageToJSON, bind.
  destruct (Hroot html [] s) as (err & s' & ->). eauto.
Qed.

Lemma exceptions_reach_the_top_witness :
  ∃ err s',
    convertPageToJSON sampleHost [] None (Some pageWithSourcelessVideo)
      initialState = (Throw err, s').
Proof.
  refine (proj2 (exceptions_reach_the_top sampleHost [] pageWithSourcelessVideo
                   sourcelessVideo _ _) None initialState).
  - eapply reaches_below; [| | | | apply reaches_here].
    + split; [vm_compute; discriminate |]. split; [reflexivity |].
      right. split; [vm_compute; discriminate | vm_compute; set_solver].
    + set_solver.
    + reflexivity.
    + reflexivity.
  - apply video_without_source_throws; reflexivity.
Defined.

(** ** Export *)

Lemma countChar_app c (a b : string) :
  countChar c (a +:+ b) = (countChar c a + countChar c b)%nat.
Proof. induction a as [|d a IH]; simpl; [done | rewrite IH; lia]. Qed.

Lemma countChar_absent c P s :
  stringForall P s → (∀ d, P d → d ≠ c) → countChar c s = 0%nat.
Proof.
  intros Hs HP. induction s as [|d s IH]; simpl; [done |].
  destruct Hs as [Hd Hs]. rewrite IH by done.
  destruct (decide (d = c)); [by apply HP in Hd | done].
Qed.

Lemma getPageRoute_forall location :
  stringForall (λ c, isRouteChar c = true) (getPageRoute location).
Proof.
  destruct location as [u|]; [apply getPageRoute_alphabet |].
  vm_compute. tauto.
Qed.

Lemma countChar_route c location :
  isRouteChar c = false → countChar c (getPageRoute location) = 0%nat.
Proof.
  intros Hc. eapply countChar_absent; [apply getPageRoute_forall |].
  intros d Hd ->. congruence.
Qed.

Lemma countChar_dashed c isoNow :
  c = ":"%char ∨ c = "."%char → countChar c (dashColonsAndDots isoNow) = 0%nat.
Proof.
  intros Hc. unfold dashColonsAndDots.
  induction isoNow as [|d s IH]; simpl; [done |]. rewrite IH.
  destruct (bool_decide (d = ":"%char) || bool_decide (d = "."%char)) eqn:E.
  - destruct (decide _) as [<-|]; [| done]. by destruct Hc.
  - apply orb_false_elim in E as [E1 E2].
    apply bool_decide_eq_false in E1, E2.
    destruct (decide (d = c)) as [->|]; [| done]. by destruct Hc.
Qed.

(** X17: [convertAndDownload] never throws. When the conversion fails it
    answers [undefined] and offers no file; when it succeeds it offers
    exactly one file, whose name holds no colon and a single dot, that of
    the [.json] extension, whatever the location and the clock. Either
    way the cached last result is left as it was. *)
Theorem convertAndDownload_outcome
    (page : Page) (ms : list ComponentMapping) (st : ScriptState) :
  lastConversionResult (convertAndDownload page ms st).2
  = lastConversionResult st
  ∧ match (convertAndDownload page ms st).1.1 with
    | Some result =>
        (convertAndDownload page ms st).1.2
        = [Download (exportFilename (pg_location page) (pg_now page)) result]
        ∧ returned (convertPageToJSON (pg_host page) ms (pg_html page)
                      (pg_body page) (conv st)) = Some result
    | None =>
        (convertAndDownload page ms st).1.2 = []
        ∧ returned (convertPageToJSON (pg_host page) ms (pg_html page)
                      (pg_body page) (conv st)) = None
    end
  ∧ countChar "." (exportFilename (pg_location page) (pg_now page)) = 1%nat
  ∧ countChar ":" (exportFilename (pg_location page) (pg_now page)) = 0%nat.
Proof.
  unfold convertAndDownload, returned.
  split; [| split; [| split]].
  - by destruct (convertPageToJSON _ _ _ _ _) as [[r|err] c].
  - by destruct (convertPageToJSON _ _ _ _ _) as [[r|err] c].
  - unfold exportFilename. rewrite !countChar_app.
    rewrite countChar_route, countChar_dashed by auto. reflexivity.
  - unfold exportFilename. rewrite !countChar_app.
    rewrite countChar_route, countChar_dashed by auto. reflexivity.
Qed.

(** ** The message listener *)

Lemma onMessage_cached page event st r :
  lastConversionResult st = Some r →
  onMessage page event st
  = (if isRequest event then [PostResponse r (ev_origin event)] else [], st).
Proof.
  intros Hc. unfold onMessage, isRequest, STUDIO_ORIGINS.
  destruct (decide (ev_origin event = "http://localhost:5174")) as [E1|E1];
    [| destruct (decide (ev_origin event = "http://localhost:5173")) as [E2|E2]].
  - rewrite (bool_decide_eq_false_2 (_ ≠ "http://localhost:5174")) by tauto.
    rewrite (bool_decide_eq_true_2 (_ ∈ _)) by (rewrite E1; set_solver).
    simpl. rewrite Hc. by destruct (decide _); [rewrite bool_decide_eq_true_2
                                               | rewrite bool_decide_eq_false_2].
  - rewrite (bool_decide_eq_true_2 (_ ≠ "http://localhost:5174")) by done.
    rewrite (bool_decide_eq_false_2 (_ ≠ "http://localhost:5173")) by tauto.
    rewrite (bool_decide_eq_true_2 (_ ∈ _)) by (rewrite E2; set_solver).
    simpl. rewrite Hc. by destruct (decide _); [rewrite bool_decide_eq_true_2
                                               | rewrite bool_decide_eq_false_2].
  - rewrite !(bool_decide_eq_true_2 (_ ≠ _)) by done.
    rewrite (bool_decide_eq_false_2 (_ ∈ _)) by set_solver. done.
Qed.

(** X18: once a result is cached, the listener never converts again:
    over any run of events, on whatever pages, the state stays as it is
    and the messages sent are the cached result, once for every request
    from a studio origin, in order, each to the origin of its request. *)
Theorem cached_result_is_replayed
    (events : list (Page * MessageEvent)) (st : ScriptState) (r : Node) :
  lastConversionResult st = Some r →
  onMessages events st
  = ((λ pe, PostResponse r (ev_origin pe.2))
       <$> filter (λ pe, isRequest pe.2 = true) events,
     st).
Proof.
  intros Hc. induction events as [|[page event] events IH]; [done |].
  cbn [onMessages]. rewrite (onMessage_cached _ _ _ r Hc), IH.
  destruct (isRequest event) eqn:E.
  - by rewrite filter_cons_True by done.
  - rewrite filter_cons_False; [done |]. simpl. congruence.
Qed.

Lemma cached_result_is_replayed_witness :
  ∃ r st1,
    onMessages [(samplePage sampleTree,
                 mkMessageEvent "http://localhost:5173" "request-html-to-json" [])]
      (mkScriptState initialState None) = ([Download (studioFilename
                                                       (Some url_blog_post)
                                                       "2025-01-02T03:04:05.678Z") r;
                                            PostResponse r "http://localhost:5173"],
                                           st1)
    ∧ onMessages [(samplePage breakOnlyParagraph,
                   mkMessageEvent "http://evil.example" "request-html-to-json" []);
                  (samplePage breakOnlyParagraph,
                   mkMessageEvent "http://localhost:5174" "request-html-to-json" [])]
        st1
      = ([PostResponse r "http://localhost:5174"], st1).
Proof.
  destruct (onMessages [(samplePage sampleTree,
                         mkMessageEvent "http://localhost:5173"
                           "request-html-to-json" [])]
              (mkScriptState initialState None)) as [out st1] eqn:E.
  vm_compute in E. injection E as <- <-.
  eexists _, _. split; [reflexivity |].
  refine (cached_result_is_replayed _ _ _ _). reflexivity.
Defined.

Lemma onMessage_posts page event st :
  Forall (λ o, ∀ t, postTarget o = Some t → t = ev_origin event
                                           ∧ t ∈ STUDIO_ORIGINS)
    (onMessage page event st).1
  ∧ length (filter (λ o, is_Some (postTarget o)) (onMessage page event st).1)
    = (if isRequest event then 1 else 0)%nat.
Proof.
  unfold onMessage, isRequest, STUDIO_ORIGINS.
  assert (Hstar : ev_origin event ∈ ["http://localhost:5174"; "http://localhost:5173"]
                  → orStar (ev_origin event) = ev_origin event).
  { intros H. repeat (apply elem_of_cons in H as [-> | H]; [done |]).
    by apply elem_of_nil in H. }
  destruct (bool_decide (ev_origin event ∈ _)) eqn:Hin.
  - apply bool_decide_eq_true in Hin. pose proof (Hstar Hin) as Hs.
    assert (bool_decide (ev_origin event ≠ "http://localhost:5174")
            && bool_decide (ev_origin event ≠ "http://localhost:5173") = false)
      as ->.
    { apply andb_false_iff.
      apply elem_of_cons in Hin as [-> | Hin]; [by left |].
      apply elem_of_cons in Hin as [-> | Hin]; [by right |].
      by apply elem_of_nil in Hin. }
    destruct (decide (ev_type event = "request-html-to-json")) as [Et|Et].
    + rewrite (bool_decide_eq_true_2 _ Et). cbn [andb].
      destruct (lastConversionResult st) as [cached|].
      * split; [| done]. constructor; [| constructor]. by intros t' [= <-].
      * unfold convertAndSendToStudio.
        destruct (convertPageToJSON _ _ _ _ _) as [[r|err] c]; cbn [fst snd];
          rewrite Hs; (split; [| done]).
        -- constructor; [intros t' [=] |].
           constructor; [| constructor]. by intros t' [= <-].
        -- constructor; [| constructor]. by intros t' [= <-].
    + rewrite (bool_decide_eq_false_2 _ Et). cbn [andb]. split; [constructor | done].
  - apply bool_decide_eq_false in Hin.
    assert (bool_decide (ev_origin event ≠ "http://localhost:5174")
            && bool_decide (ev_origin event ≠ "http://localhost:5173") = true)
      as ->.
    { apply andb_true_iff. split; apply bool_decide_eq_true; set_solver. }
    cbn [andb fst]. split; [constructor | done].
Qed.

(** X19: over any run of events the listener posts exactly one message,
    a response or an error, for every request that comes from a studio
    origin and none for anything else; and every message it posts is
    meant for a studio origin, never for [*] or a foreign origin. *)
Theorem listener_replies_once_to_the_studio
    (events : list (Page * MessageEvent)) (st : ScriptState) :
  Forall (λ o, ∀ t, postTarget o = Some t → t ∈ STUDIO_ORIGINS)
    (onMessages events st).1
  ∧ length (filter (λ o, is_Some (postTarget o)) (onMessages events st).1)
    = length (filter (λ pe, isRequest pe.2 = true) events).
Proof.
  revert st. induction events as [|[page event] events IH]; intros st.
  - split; [constructor | done].
  - cbn [onMessages].
    destruct (onMessage_posts page event st) as [Hf Hl].
    destruct (onMessage page event st) as [out st1]. cbn [fst] in Hf, Hl.
    destruct (IH st1) as [IHf IHl].
    destruct (onMessages events st1) as [outs st2]. cbn [fst] in *.
    split.
    + apply Forall_app. split; [| done].
      eapply Forall_impl; [exact Hf |]. intros o Ho t Ht. by apply Ho.
    + rewrite filter_app, length_app, Hl, IHl.
      destruct (isRequest event) eqn:E.
      * by rewrite filter_cons_True by done.
      * rewrite filter_cons_False by (simpl; congruence). done.
Qed.

(** ** Navigation tracking *)

(** X20: over any run of navigation events the tracker ends on the
    location of the last event, notifies only of locations it was given,
    in their order, and never twice in a row of the same location (nor,
    first, of the one it started from): a repeated [pushState] to the
    current location is passed over in silence. *)
Theorem navigation_changes_only
    (locations : list (string * string)) (t : Tracker) :
  noRepeats (currentUrl t, currentPathname t) (handleNavigations locations t).1
  ∧ sublist (handleNavigations locations t).1 locations
  ∧ (currentUrl (handleNavigations locations t).2,
     currentPathname (handleNavigations locations t).2)
    = default (currentUrl t, currentPathname t) (last locations).
Proof.
  revert t. induction locations as [|[url pathname] locations IH]; intros t.
  - done.
  - cbn [handleNavigations]. unfold handleNavigation.
    destruct (bool_decide (url ≠ currentUrl t)
              || bool_decide (pathname ≠ currentPathname t)) eqn:E.
    + destruct (IH (mkTracker url pathname)) as (Hn & Hs & Hl).
      destruct (handleNavigations locations (mkTracker url pathname))
        as [notes t2]. cbn [fst snd] in *.
      split; [| split].
      * simpl. split; [| done]. intros [= -> ->].
        apply orb_prop in E as [E | E]; by apply bool_decide_eq_true in E.
      * by apply sublist_skip.
      * rewrite Hl, last_cons. by destruct (last locations).
    + destruct (IH t) as (Hn & Hs & Hl).
      destruct (handleNavigations locations t) as [notes t2].
      cbn [fst snd] in *.
      apply orb_false_elim in E as [E1 E2].
      apply bool_decide_eq_false in E1, E2.
      apply dec_stable in E1, E2.
      split; [done | split].
      * by apply sublist_cons.
      * rewrite Hl, last_cons. destruct (last locations); [done |].
        simpl. by rewrite E1, E2.
Qed.
